(** * Retrieval-and-answer pipeline: a shallow embedding and its properties

    The development follows the source modules of the service:
    - [app/utils/document_processor.py]: the chunking strategies, the
      content deduplicator and the processing of a file;
    - [app/models/vector_store_fixed.py]: query preprocessing, the adaptive
      threshold, the fused relevance score, the ranked search and the
      ingestion of documents;
    - [app/services/llm_service.py]: the response cache, context assembly,
      the retrying call of the generation backend and the degraded answer;
    - [main.py]: the rate limit of the routes.

    Conventions of the model.
    - A Python [str] is a [string]: a sequence of characters with code points
      below 256, with Python's whitespace and letter cases on that range.
    - A Python [float] is an exact rational ([Q]): decimal constants such as
      [0.05] denote the rationals they spell, and arithmetic does not round.
    - External collaborators (the digest functions, the library text
      splitter, the similarity index, the generation backend) are parameters,
      given as type classes; the clock and the history of backend calls and
      sleeps are threaded through the queries as an explicit state. *)

From Stdlib Require Import QArith Qminmax Qround Lia Lqa Ascii DecimalString Sorted.
From stdpp Require Import gmap strings list.

(** ** Python strings *)

Module PyStr.

(** [str.isspace] on one character, which is also the class [\s] of [re]
    for [str] patterns: the whitespace among the code points below 256. *)
Definition isspace (c : ascii) : bool :=
  match c with
  | "009" | "010" | "011" | "012" | "013"
  | "028" | "029" | "030" | "031" | " "
  | "133" | "160" => true
  | _ => false
  end%char.

(** [len(s)] *)
Abbreviation len := String.length.

(** [s.lower()]: the capital letters below code point 256 are A to Z and
    the accented capitals 192 to 222 without the sign 215. *)
Definition lower_char (c : ascii) : ascii :=
  let n := nat_of_ascii c in
  if ((65 <=? n) && (n <=? 90)
      || (192 <=? n) && (n <=? 222) && negb (n =? 215))%nat
  then ascii_of_nat (n + 32)
  else c.

Fixpoint lower (s : string) : string :=
  match s with
  | EmptyString => EmptyString
  | String c r => String (lower_char c) (lower r)
  end.

(** [s.startswith(p)] *)
Fixpoint startswith (p s : string) : bool :=
  match p, s with
  | EmptyString, _ => true
  | String _ _, EmptyString => false
  | String a p', String b s' => if Ascii.eqb a b then startswith p' s' else false
  end.

(** [needle in hay]: substring test. *)
Fixpoint contains (needle hay : string) : bool :=
  startswith needle hay ||
  match hay with
  | EmptyString => false
  | String _ r => contains needle r
  end.

(** [s.lstrip()], [s.rstrip()], [s.strip()] *)
Fixpoint lstrip (s : string) : string :=
  match s with
  | EmptyString => EmptyString
  | String c r => if isspace c then lstrip r else s
  end.

Fixpoint rstrip (s : string) : string :=
  match s with
  | EmptyString => EmptyString
  | String c r =>
      match rstrip r with
      | EmptyString => if isspace c then EmptyString else String c EmptyString
      | r' => String c r'
      end
  end.

Definition strip (s : string) : string := rstrip (lstrip s).

(** [s.split()]: the maximal runs of non-whitespace characters. [cur] is
    the run being read, reversed. *)
Fixpoint split_ws_go (cur : option string) (s : string) : list string :=
  match s with
  | EmptyString => option_list (String.rev <$> cur)
  | String c r =>
      if isspace c
      then option_list (String.rev <$> cur) ++ split_ws_go None r
      else split_ws_go (Some (String c (default EmptyString cur))) r
  end.

Definition split_ws (s : string) : list string := split_ws_go None s.

(** [s.split(sep)] for a non-empty [sep]: left to right, non-overlapping.
    [skip] counts the characters of a separator occurrence still to pass,
    [cur] is the piece being read, reversed. *)
Fixpoint split_go (sep : string) (skip : nat) (cur : string) (s : string)
  : list string :=
  match s with
  | EmptyString => [String.rev cur]
  | String c r =>
      match skip with
      | S k => split_go sep k cur r
      | O =>
          if startswith sep s
          then String.rev cur :: split_go sep (len sep - 1) EmptyString r
          else split_go sep 0 (String c cur) r
      end
  end.

Definition split (sep s : string) : list string := split_go sep 0 EmptyString s.

(** [s[:n]] for [n >= 0] *)
Fixpoint take (n : nat) (s : string) : string :=
  match n, s with
  | S k, String c r => String c (take k r)
  | _, _ => EmptyString
  end.

(** [s[n:]] for [n >= 0] *)
Fixpoint drop (n : nat) (s : string) : string :=
  match n, s with
  | S k, String _ r => drop k r
  | _, _ => s
  end.

(** [s[-n:]] for [n >= 0]; [s[-0:]] is [s[0:]], the whole string. *)
Definition take_last (n : nat) (s : string) : string :=
  match n with
  | O => s
  | _ => drop (len s - n) s
  end.

(** [sep.join(l)] *)
Fixpoint join (sep : string) (l : list string) : string :=
  match l with
  | [] => EmptyString
  | [x] => x
  | x :: r => x +:+ sep +:+ join sep r
  end.

(** [str(n)] for a non-negative integer *)
Definition of_nat (n : nat) : string := NilEmpty.string_of_uint (Nat.to_uint n).

(** [re.sub(r'\s+', ' ', s)]: every maximal whitespace run becomes one
    space. [in_ws] tells that the previous character was whitespace. *)
Fixpoint collapse_ws (in_ws : bool) (s : string) : string :=
  match s with
  | EmptyString => EmptyString
  | String c r =>
      if isspace c
      then (if in_ws then collapse_ws true r else String " " (collapse_ws true r))
      else String c (collapse_ws false r)
  end.

(** [set(l)] as a duplicate-free list, and [len(a.intersection(b))]. *)
Definition to_set (l : list string) : list string := remove_dups l.

Definition inter_size (a b : list string) : nat :=
  length (filter (fun w => w ∈ b) a).

End PyStr.

(** ** Python numbers *)

Module PyNum.
Local Open Scope Q_scope.

(** [max(a, b)] and [min(a, b)] on floats: the first argument is kept
    unless the second is strictly larger (smaller). *)
Definition max (a b : Q) : Q := if Qlt_le_dec a b then b else a.
Definition min (a b : Q) : Q := if Qlt_le_dec b a then b else a.

Definition of_nat (n : nat) : Q := inject_Z (Z.of_nat n).

(** [round(q, ndigits)]: the nearest multiple of [10^-ndigits], a tie going
    to the even one. *)
Definition round_half_even (q : Q) : Z :=
  let f := Qfloor q in
  let r := q - inject_Z f in
  match Qcompare r (1 # 2) with
  | Lt => f
  | Gt => (f + 1)%Z
  | Eq => if Z.even f then f else (f + 1)%Z
  end.

Definition round_ndigits (ndigits : nat) (q : Q) : Q :=
  let scale := inject_Z (10 ^ Z.of_nat ndigits) in
  inject_Z (round_half_even (q * scale)) / scale.

End PyNum.

(** ** Shared data: exceptions, metadata values, documents *)

(** A raised Python exception, reduced to its message ([str(e)]). *)
Definition exn := string.

Inductive result (A : Type) : Type :=
| Ok (a : A)
| Raised (e : exn).
Arguments Ok {A} a.
Arguments Raised {A} e.

#[global] Instance result_ret : MRet result := fun A a => Ok a.

#[global] Instance result_bind : MBind result := fun A B k r =>
  match r with
  | Ok a => k a
  | Raised e => Raised e
  end.

(** The values a metadata dictionary holds. *)
Inductive value : Type :=
| VInt (z : Z)
| VStr (s : string)
| VFloat (q : Q).

(** A langchain [Document]: [page_content] and [metadata]. *)
Record Document : Type := mkDocument {
  page_content : string;
  doc_metadata : gmap string value
}.

(** A search result as [similarity_search] builds it: a dictionary with the
    keys ['content'] and ['metadata']. *)
Record Hit : Type := mkHit {
  hit_content : string;
  hit_metadata : gmap string value
}.

(** ** app/models/vector_store_fixed.py *)

(** The Chroma vector store behind [self.vectorstore]; both calls may raise. *)
Class VectorIndex : Type := {
  similarity_search_with_score : string -> nat -> result (list (Document * Q));
  index_similarity_search : string -> nat -> result (list Document)
}.

Module VectorStore.
Local Open Scope Q_scope.

(** The [abbreviations] dictionary of [_preprocess_query], in insertion
    order, which is the order its [items()] are visited in. *)
Definition abbreviations : list (string * string) :=
  [ ("NHD", "National Hydrography Dataset");
    ("USGS", "United States Geological Survey");
    ("GIS", "Geographic Information System") ].

(** One turn of the loop over [abbreviations.items()]. *)
Definition expand_step (query : string) (item : string * string) : string :=
  let '(abbrev, expansion) := item in
  if PyStr.contains abbrev query && negb (PyStr.contains expansion query)
  then query +:+ " " +:+ expansion
  else query.

Definition _preprocess_query (query : string) : string :=
  let query := PyStr.collapse_ws false (PyStr.strip query) in
  foldl expand_step query abbreviations.

Definition comparison_terms : list string :=
  ["difference"; "compare"; "versus"; "vs"].

Definition _get_adaptive_threshold (query : string) (base_threshold : Q) : Q :=
  if existsb (fun term => PyStr.contains term (PyStr.lower query)) comparison_terms
  then PyNum.max 0.1 (base_threshold - 0.05)
  else if (length (PyStr.split_ws query) <=? 3)%nat
       then PyNum.max 0.05 (base_threshold - 0.1)
       else base_threshold.

(** [_calculate_enhanced_relevance]; the division raises when the query has
    no token. The [metadata] argument is not read. *)
Definition _calculate_enhanced_relevance
    (query document : string) (similarity_score : Q) (metadata : gmap string value)
  : result Q :=
  let score := similarity_score in
  let query_words := PyStr.to_set (PyStr.split_ws (PyStr.lower query)) in
  let doc_words := PyStr.to_set (PyStr.split_ws (PyStr.lower document)) in
  match length query_words with
  | O => Raised "division by zero"
  | S _ =>
      let keyword_overlap :=
        PyNum.of_nat (PyStr.inter_size query_words doc_words)
        / PyNum.of_nat (length query_words) in
      let score := score + keyword_overlap * 0.1 in
      let score := if (100 <? PyStr.len document)%nat then score + 0.05 else score in
      Ok (PyNum.min 1.0 score)
  end.

(** [1 - score if score <= 1 else 1 / (1 + score)] *)
Definition score_to_similarity (score : Q) : Q :=
  if Qlt_le_dec 1 score then 1 / (1 + score) else 1 - score.

(** [x['metadata']['relevance_score']], the sort key; every hit of the ranked
    path carries it. *)
Definition relevance_key (h : Hit) : Q :=
  match hit_metadata h !! "relevance_score" with
  | Some (VFloat q) => q
  | _ => 0
  end.

(** [documents.sort(key=..., reverse=True)]: descending and stable. *)
Fixpoint insert_desc (h : Hit) (l : list Hit) : list Hit :=
  match l with
  | [] => [h]
  | y :: r =>
      if Qlt_le_dec (relevance_key h) (relevance_key y)
      then y :: insert_desc h r
      else h :: l
  end.

Definition sort_desc (l : list Hit) : list Hit := foldr insert_desc [] l.

Section Search.
Context `{VectorIndex}.

(** The body of the loop over [results]: one candidate, appended to
    [documents] when it passes the adaptive threshold. *)
Definition rank_candidate (query : string) (threshold : Q)
    (documents : list Hit) (cand : Document * Q) : result (list Hit) :=
  let '(doc, score) := cand in
  let similarity_score := score_to_similarity score in
  let adjusted_threshold := _get_adaptive_threshold query threshold in
  if Qle_bool adjusted_threshold similarity_score
  then
    enhanced_score ← _calculate_enhanced_relevance
                       query (page_content doc) similarity_score (doc_metadata doc);
    Ok (documents ++
        [ mkHit (page_content doc)
            (<["search_type" := VStr "optimized_semantic"]>
               (<["relevance_score" := VFloat (PyNum.round_ndigits 3 enhanced_score)]>
                  (doc_metadata doc))) ])
  else Ok documents.

Fixpoint rank_candidates (query : string) (threshold : Q)
    (documents : list Hit) (results : list (Document * Q)) : result (list Hit) :=
  match results with
  | [] => Ok documents
  | cand :: rest =>
      documents ← rank_candidate query threshold documents cand;
      rank_candidates query threshold documents rest
  end.

(** The [try] block of [similarity_search]. *)
Definition optimized_search (query : string) (k : nat) (threshold : Q)
  : result (list Hit) :=
  let processed_query := _preprocess_query query in
  results ← similarity_search_with_score processed_query (Nat.min (k * 2)%nat 20%nat);
  documents ← rank_candidates query threshold [] results;
  Ok (firstn k (sort_desc documents)).

(** The [except] block: the basic search, and [[]] when that raises too. *)
Definition fallback_search (query : string) (k : nat) : list Hit :=
  match index_similarity_search query k with
  | Ok basic_results =>
      map (fun doc => mkHit (page_content doc)
                        (<["search_type" := VStr "fallback_basic"]> (doc_metadata doc)))
          basic_results
  | Raised _ => []
  end.

Definition similarity_search (query : string) (k : nat) (threshold : Q) : list Hit :=
  match optimized_search query k threshold with
  | Ok final_docs => final_docs
  | Raised _ => fallback_search query k
  end.

End Search.

End VectorStore.

(** ** app/utils/document_processor.py *)

(** [hashlib.md5(s.encode()).hexdigest()] and
    [hashlib.sha256(s.encode('utf-8')).hexdigest()]. *)
Class Digest : Type := {
  md5_hexdigest : string -> string;
  sha256_hexdigest : string -> string
}.

(** [self.splitter.split_text(text)], a library call: the recursive character
    splitter built with [chunk_size], [chunk_overlap], [len] as the length
    function and the separators paragraph break, line break, space and the
    empty separator. *)
Class TextSplitter : Type := {
  split_text : nat -> nat -> string -> list string
}.

(** [str(x)] of a float, as an f-string prints it. *)
Class FloatRepr : Type := {
  float_str : Q -> string
}.

(** A chunk as the chunkers build it: a dictionary with the keys
    ['content'], ['metadata'] and ['chunk_id']. *)
Record Chunk : Type := mkChunk {
  content : string;
  metadata : gmap string value;
  chunk_id : string
}.

(** The paragraph separator ["\n\n"]. *)
Definition para_sep : string := String "010" (String "010" EmptyString).

(** The interface [ChunkingStrategy] with its abstract method [chunk_text]. *)
Class ChunkingStrategy (T : Type) : Type := {
  chunk_text : T -> string -> gmap string value -> list Chunk
}.

Record RecursiveChunker : Type := mkRecursiveChunker {
  rc_chunk_size : nat;
  rc_chunk_overlap : nat
}.

Record SemanticChunker : Type := mkSemanticChunker {
  sc_chunk_size : nat;
  sc_chunk_overlap : nat
}.

Record HybridChunker : Type := mkHybridChunker {
  semantic_chunker : SemanticChunker;
  recursive_chunker : RecursiveChunker
}.

(** [HybridChunker(chunk_size, chunk_overlap)] *)
Definition new_HybridChunker (chunk_size chunk_overlap : nat) : HybridChunker :=
  mkHybridChunker (mkSemanticChunker chunk_size chunk_overlap)
                  (mkRecursiveChunker chunk_size chunk_overlap).

(** The state of the loop of [SemanticChunker.chunk_text]. *)
Record SemState : Type := mkSemState {
  sem_chunks : list Chunk;
  sem_current : string;
  sem_index : nat
}.

(** [DocumentProcessor]: the chunking strategy in use and the set
    [processed_hashes]. *)
Record DocumentProcessor (T : Type) : Type := mkDocumentProcessor {
  chunking_strategy : T;
  processed_hashes : gset string
}.
Arguments mkDocumentProcessor {T} _ _.
Arguments chunking_strategy {T} _.
Arguments processed_hashes {T} _.

(** [DocumentProcessor(chunking_strategy)]: nothing processed yet. *)
Definition new_DocumentProcessor {T} (strategy : T) : DocumentProcessor T :=
  mkDocumentProcessor strategy ∅.

Section Chunking.
Context `{Digest} `{TextSplitter} `{FloatRepr}.

(** [str(v)] inside an f-string. *)
Definition value_str (v : value) : string :=
  match v with
  | VInt z => NilEmpty.string_of_int (Z.to_int z)
  | VStr s => s
  | VFloat q => float_str q
  end.

(** [hashlib.md5(f"{metadata.get('filename', 'unknown')}_{i}_{text[:50]}"
    .encode()).hexdigest()] *)
Definition make_chunk_id (md : gmap string value) (i : nat) (text : string) : string :=
  md5_hexdigest
    (value_str (default (VStr "unknown") (md !! "filename"))
     +:+ "_" +:+ PyStr.of_nat i +:+ "_" +:+ PyStr.take 50 text).

(** [chunk_metadata = metadata.copy(); chunk_metadata.update({...})] *)
Definition chunk_metadata_of (md : gmap string value) (i size : nat) (strategy : string)
  : gmap string value :=
  <["chunking_strategy" := VStr strategy]>
    (<["chunk_size" := VInt (Z.of_nat size)]>
       (<["chunk_index" := VInt (Z.of_nat i)]> md)).

(** [RecursiveChunker.chunk_text] *)
Definition recursive_chunk_text (self : RecursiveChunker)
    (text : string) (md : gmap string value) : list Chunk :=
  let chunks := split_text (rc_chunk_size self) (rc_chunk_overlap self) text in
  imap (fun i chunk =>
          mkChunk chunk
                  (chunk_metadata_of md i (PyStr.len chunk) "recursive")
                  (make_chunk_id md i chunk))
       chunks.

(** The chunk [SemanticChunker.chunk_text] appends for the buffer
    [current_chunk]. *)
Definition semantic_emit (md : gmap string value) (chunk_index : nat)
    (current_chunk : string) : Chunk :=
  mkChunk (PyStr.strip current_chunk)
          (chunk_metadata_of md chunk_index (PyStr.len current_chunk) "semantic")
          (make_chunk_id md chunk_index current_chunk).

(** [[p.strip() for p in text.split('\n\n') if p.strip()]] *)
Definition paragraphs_of (text : string) : list string :=
  filter (fun p => p ≠ EmptyString) (map PyStr.strip (PyStr.split para_sep text)).

Definition semantic_step (self : SemanticChunker) (md : gmap string value)
    (st : SemState) (paragraph : string) : SemState :=
  let current_chunk := sem_current st in
  let chunk_index := sem_index st in
  if (sc_chunk_size self <? PyStr.len current_chunk + PyStr.len paragraph)%nat
     && bool_decide (current_chunk ≠ EmptyString)
  then
    let overlap_text :=
      if (sc_chunk_overlap self <? PyStr.len current_chunk)%nat
      then PyStr.take_last (sc_chunk_overlap self) current_chunk
      else current_chunk in
    mkSemState (sem_chunks st ++ [semantic_emit md chunk_index current_chunk])
               (overlap_text +:+ para_sep +:+ paragraph)
               (chunk_index + 1)
  else
    mkSemState (sem_chunks st)
               (if bool_decide (current_chunk ≠ EmptyString)
                then current_chunk +:+ para_sep +:+ paragraph
                else paragraph)
               chunk_index.

(** [SemanticChunker.chunk_text] *)
Definition semantic_chunk_text (self : SemanticChunker)
    (text : string) (md : gmap string value) : list Chunk :=
  let st := foldl (semantic_step self md) (mkSemState [] EmptyString 0)
                  (paragraphs_of text) in
  if bool_decide (sem_current st ≠ EmptyString)
  then sem_chunks st ++ [semantic_emit md (sem_index st) (sem_current st)]
  else sem_chunks st.

(** [c['metadata']['chunking_strategy'] = 'hybrid'] *)
Definition tag_hybrid (c : Chunk) : Chunk :=
  mkChunk (content c)
          (<["chunking_strategy" := VStr "hybrid"]> (metadata c))
          (chunk_id c).

(** [len(chunk['content']) > self.semantic_chunker.chunk_size * 1.5] *)
Definition oversized (self : HybridChunker) (chunk : Chunk) : bool :=
  negb (Qle_bool (PyNum.of_nat (PyStr.len (content chunk)))
                 (PyNum.of_nat (sc_chunk_size (semantic_chunker self)) * 1.5)).

(** The chunks one semantic chunk contributes to [final_chunks]. *)
Definition hybrid_step (self : HybridChunker) (chunk : Chunk) : list Chunk :=
  if oversized self chunk
  then map tag_hybrid
           (recursive_chunk_text (recursive_chunker self) (content chunk) (metadata chunk))
  else [tag_hybrid chunk].

(** [HybridChunker.chunk_text] *)
Definition hybrid_chunk_text (self : HybridChunker)
    (text : string) (md : gmap string value) : list Chunk :=
  let semantic_chunks := semantic_chunk_text (semantic_chunker self) text md in
  concat (map (hybrid_step self) semantic_chunks).

#[global] Instance RecursiveChunker_strategy : ChunkingStrategy RecursiveChunker :=
  {| chunk_text := recursive_chunk_text |}.
#[global] Instance SemanticChunker_strategy : ChunkingStrategy SemanticChunker :=
  {| chunk_text := semantic_chunk_text |}.
#[global] Instance HybridChunker_strategy : ChunkingStrategy HybridChunker :=
  {| chunk_text := hybrid_chunk_text |}.

Definition generate_content_hash (text : string) : string := sha256_hexdigest text.

(** [is_duplicate]: the answer and the processor after the call. *)
Definition is_duplicate {T} (self : DocumentProcessor T) (text : string)
  : bool * DocumentProcessor T :=
  let content_hash := generate_content_hash text in
  if bool_decide (content_hash ∈ processed_hashes self)
  then (true, self)
  else (false, mkDocumentProcessor (chunking_strategy self)
                                   ({[content_hash]} ∪ processed_hashes self)).

(** A sequence of calls of [is_duplicate] on one processor, in order: the
    answers and the processor at the end. *)
Fixpoint is_duplicate_calls {T} (self : DocumentProcessor T) (texts : list string)
  : list bool * DocumentProcessor T :=
  match texts with
  | [] => ([], self)
  | text :: rest =>
      let '(b, self) := is_duplicate self text in
      let '(bs, self) := is_duplicate_calls self rest in
      (b :: bs, self)
  end.

End Chunking.

(** ** app/services/llm_service.py *)

(** What [vector_store.similarity_search] may hand back, as [_process_query]
    and [_format_source_documents] tell the cases apart: an object with a
    [page_content] attribute, a dictionary (either key may be absent), or
    anything else. *)
Inductive RetrievedDoc : Type :=
| ObjDoc (d : Document)
| DictDoc (c : option string) (m : option (gmap string value))
| OtherDoc.

(** The [content] and [metadata] the two loops read; [None] is the [else:
    continue] case. *)
Definition doc_fields (doc : RetrievedDoc) : option (string * gmap string value) :=
  match doc with
  | ObjDoc d => Some (page_content d, doc_metadata d)
  | DictDoc c m => Some (default EmptyString c, default ∅ m)
  | OtherDoc => None
  end.

(** The [vector_store] object the service is built on. *)
Class Retriever : Type := {
  retrieve : string -> nat -> list RetrievedDoc
}.

(** [EnhancedVectorStore] as that object: [similarity_search(question, k)]
    with its default [threshold=0.15]. *)
Definition store_retriever `{VectorIndex} : Retriever :=
  {| retrieve query k :=
       map (fun h => DictDoc (Some (hit_content h)) (Some (hit_metadata h)))
           (VectorStore.similarity_search query k 0.15%Q) |}.

(** The generation backend [self.llm]: what the [n]-th call (counted from 0)
    with a prompt does, and how many seconds it takes. *)
Class Backend : Type := {
  llm : nat -> string -> result string * Q
}.

(** The configuration values the service reads. *)
Class Settings : Type := {
  OLLAMA_MODEL : string
}.

(** [Config.ENABLE_QUERY_CACHE] *)
Definition ENABLE_QUERY_CACHE : bool := true.

Inductive Event : Type :=
| EvLLM (prompt : string) (outcome : result string)
| EvSleep (seconds : Q).

(** What lies outside the service object: a clock that advances during
    backend calls and sleeps only, the number of backend calls made, and the
    history of both, oldest first. *)
Record World : Type := mkWorld {
  now : Q;
  llm_calls : nat;
  trace : list Event
}.

(** One element of ['source_documents']. *)
Record SourceDoc : Type := mkSourceDoc {
  sd_content : string;
  sd_metadata : gmap string value;
  sd_source : value
}.

(** The dictionary a query returns; a key that a path leaves out is [None]. *)
Record Answer : Type := mkAnswer {
  response : string;
  source_documents : list SourceDoc;
  confidence : option Q;
  retrieved_docs_count : option nat;
  processing_time : Q;
  error : option string;
  timestamp : option Z;
  model_used : option string;
  cached : option bool
}.

(** [EnhancedLLMService], reduced to the state the queries touch. *)
Record Service : Type := mkService {
  response_cache : gmap string (Answer * Q)
}.

Module LLMService.
Local Open Scope Q_scope.

Definition nl : string := String "010" EmptyString.

(** [s[:m]] for a signed [m]: a negative bound counts from the end. *)
Definition slice_to (m : Z) (s : string) : string :=
  if (m <? 0)%Z
  then PyStr.take (PyStr.len s - Z.to_nat (- m)) s
  else PyStr.take (Z.to_nat m) s.

(** The loop of [_intelligent_truncate] over [sentences]. *)
Fixpoint add_sentences (limit : Z) (truncated : string) (sentences : list string)
  : string :=
  match sentences with
  | [] => truncated
  | sentence :: rest =>
      if (Z.of_nat (PyStr.len (truncated +:+ sentence +:+ ". ")) <=? limit)%Z
      then add_sentences limit (truncated +:+ sentence +:+ ". ") rest
      else truncated
  end.

Definition _intelligent_truncate (text : string) (max_length : nat) : string :=
  if (PyStr.len text <=? max_length)%nat then text
  else
    let sentences := PyStr.split ". " text in
    let truncated := add_sentences (Z.of_nat max_length - 3) EmptyString sentences in
    if bool_decide (truncated ≠ EmptyString)
    then PyStr.strip truncated +:+ "..."
    else slice_to (Z.of_nat max_length - 3) text +:+ "...".

(** [f"Source {i+1}: {content}"] *)
Definition source_entry (i : nat) (text : string) : string :=
  "Source " +:+ PyStr.of_nat (i + 1) +:+ ": " +:+ text.

(** The context loop of [_process_query], from the [i]-th retrieved document
    on; [total_chars] never exceeds [max_context_chars], so the budget left
    is a natural number. *)
Fixpoint assemble_from (max_context_chars : nat) (i : nat)
    (docs : list RetrievedDoc) (contexts : list string) (total_chars : nat)
  : list string :=
  match docs with
  | [] => contexts
  | doc :: rest =>
      match doc_fields doc with
      | None => assemble_from max_context_chars (i + 1) rest contexts total_chars
      | Some (text, _) =>
          if bool_decide (text = EmptyString)
          then assemble_from max_context_chars (i + 1) rest contexts total_chars
          else if (max_context_chars <? total_chars + PyStr.len text)%nat
          then
            let remaining_chars := (max_context_chars - total_chars)%nat in
            if (200 <? remaining_chars)%nat
            then contexts ++ [source_entry i (_intelligent_truncate text remaining_chars)]
            else contexts
          else assemble_from max_context_chars (i + 1) rest
                 (contexts ++ [source_entry i text])
                 (total_chars + PyStr.len text)
      end
  end.

Definition max_context_chars : nat := 3000.

Definition assemble_contexts (relevant_docs : list RetrievedDoc) : list string :=
  assemble_from max_context_chars 0 relevant_docs [] 0.

Definition _create_optimized_prompt (question context : string) : string :=
  "You are a helpful AI assistant that answers questions based on provided document content. 

Document Context:
" +:+ context +:+ "

Question: " +:+ question +:+ "

Instructions:
- Provide a comprehensive, accurate answer based on the document content
- If comparing or contrasting (like differences between versions), structure your response clearly
- If the documents don't contain enough information, state what is available and what might be missing
- Be specific and reference the document content when relevant
- Keep your answer focused and well-organized

Answer:".

(** [_format_source_documents] *)
Definition format_source (fields : string * gmap string value) : SourceDoc :=
  let '(text, md) := fields in
  mkSourceDoc
    (if (300 <? PyStr.len text)%nat then PyStr.take 300 text +:+ "..." else text)
    md
    (default (default (VStr "Unknown") (md !! "filename")) (md !! "source_file")).

Definition _format_source_documents (docs : list RetrievedDoc) : list SourceDoc :=
  omap (fun doc => format_source <$> doc_fields doc) docs.

(** [_calculate_enhanced_confidence]; the division raises when the question
    has no token. *)
Definition _calculate_enhanced_confidence
    (question : string) (docs : list RetrievedDoc) (answer : string) : result Q :=
  match docs with
  | [] => Ok 0.0
  | _ =>
      let base_confidence := PyNum.min (PyNum.of_nat (length docs) / 7) 1.0 in
      let base_confidence :=
        if (200 <? PyStr.len answer)%nat then base_confidence + 0.1 else base_confidence in
      let question_words := PyStr.to_set (PyStr.split_ws (PyStr.lower question)) in
      let response_words := PyStr.to_set (PyStr.split_ws (PyStr.lower answer)) in
      match length question_words with
      | O => Raised "division by zero"
      | S _ =>
          let overlap :=
            PyNum.of_nat (PyStr.inter_size question_words response_words)
            / PyNum.of_nat (length question_words) in
          Ok (PyNum.min 1.0 (base_confidence + overlap * 0.2))
      end
  end.

Section Queries.
Context `{Digest} `{Retriever} `{Backend} `{Settings}.

(** [hashlib.md5(question.lower().strip().encode()).hexdigest()] *)
Definition _generate_cache_key (question : string) : string :=
  md5_hexdigest (PyStr.strip (PyStr.lower question)).

(** [_get_cached_response]: the body is a bare [return None]. *)
Definition _get_cached_response (self : Service) (cache_key : string)
  : option Answer :=
  None.

(** [_cache_response], storing [(response, time.time())]. *)
Definition _cache_response (self : Service) (cache_key : string)
    (answer : Answer) (w : World) : Service :=
  if ENABLE_QUERY_CACHE
  then mkService (<[cache_key := (answer, now w)]> (response_cache self))
  else self.

(** [self.llm(prompt)] *)
Definition call_llm (prompt : string) (w : World) : result string * World :=
  let '(outcome, seconds) := llm (llm_calls w) prompt in
  (outcome,
   mkWorld (now w + seconds) (llm_calls w + 1) (trace w ++ [EvLLM prompt outcome])).

(** [time.sleep(seconds)] *)
Definition sleep (seconds : Q) (w : World) : World :=
  mkWorld (now w + seconds) (llm_calls w) (trace w ++ [EvSleep seconds]).

(** The loop [for attempt in range(max_retries + 1)] of
    [_call_llm_with_retry], with [todo] turns left to run. A loop that runs
    out falls off the end of the function, which then returns [None]. *)
Fixpoint retry_loop (todo attempt max_retries : nat) (prompt : string) (w : World)
  : result (option string) * World :=
  match todo with
  | O => (Ok None, w)
  | S todo =>
      match call_llm prompt w with
      | (Ok answer, w) => (Ok (Some answer), w)
      | (Raised e, w) =>
          if (attempt =? max_retries)%nat
          then (Raised e, w)
          else retry_loop todo (attempt + 1) max_retries prompt (sleep 1 w)
      end
  end.

Definition _call_llm_with_retry (prompt : string) (max_retries : nat) (w : World)
  : result (option string) * World :=
  retry_loop (max_retries + 1) 0 max_retries prompt w.

(** The three dictionaries [_process_query] returns. *)
Definition no_documents_answer (elapsed : Q) : Answer :=
  mkAnswer
    "I couldn't find any relevant information in the uploaded documents to answer your question. Please make sure you have uploaded relevant documents or try rephrasing your question."
    [] (Some 0.0) None (PyNum.round_ndigits 2 elapsed) None None None None.

Definition degraded_answer (llm_error : exn) (relevant_docs : list RetrievedDoc)
    (elapsed : Q) : Answer :=
  mkAnswer
    ("I found relevant documents but encountered an issue processing them. Please try again. Error: "
     +:+ llm_error)
    (_format_source_documents (firstn 3 relevant_docs))
    (Some 0.5) None (PyNum.round_ndigits 2 elapsed) None None None None.

Definition full_answer (answer : string) (relevant_docs : list RetrievedDoc)
    (conf : Q) (elapsed : Q) : Answer :=
  mkAnswer (PyStr.strip answer) (_format_source_documents relevant_docs)
    (Some conf) (Some (length relevant_docs)) (PyNum.round_ndigits 2 elapsed)
    None None None None.

(** [_process_query]. An answer of [None] from the retry loop raises in the
    logging line right after the call, inside the same [try]. *)
Definition _process_query (question : string) (w : World) : result Answer * World :=
  let start_time := now w in
  let relevant_docs := retrieve question 7 in
  match relevant_docs with
  | [] => (Ok (no_documents_answer (now w - start_time)), w)
  | _ =>
      let contexts := assemble_contexts relevant_docs in
      let context := PyStr.join (nl +:+ nl) contexts in
      let prompt := _create_optimized_prompt question context in
      let '(outcome, w) := _call_llm_with_retry prompt 2 w in
      let outcome :=
        match outcome with
        | Ok (Some answer) => Ok answer
        | Ok None => Raised "object of type 'NoneType' has no len()"
        | Raised e => Raised e
        end in
      match outcome with
      | Raised llm_error =>
          (Ok (degraded_answer llm_error relevant_docs (now w - start_time)), w)
      | Ok answer =>
          match _calculate_enhanced_confidence question relevant_docs answer with
          | Raised e => (Raised e, w)
          | Ok conf =>
              (Ok (full_answer answer relevant_docs conf (now w - start_time)), w)
          end
      end
  end.

Definition timeout_answer (timeout : nat) : Answer :=
  mkAnswer
    "I apologize, but the query is taking longer than expected to process. Please try again with a more specific question."
    [] None None (PyNum.of_nat timeout) (Some "timeout") None None None.

Definition error_answer (e : exn) (elapsed : Q) : Answer :=
  mkAnswer
    "I encountered an error while processing your question. Please try rephrasing your question or contact support if the issue persists."
    [] None None elapsed (Some e) None None None.

(** [{**result, 'processing_time': ..., 'timestamp': ..., 'model_used': ...,
    'cached': False}] *)
Definition enhance (r : Answer) (elapsed : Q) (w : World) : Answer :=
  mkAnswer (response r) (source_documents r) (confidence r) (retrieved_docs_count r)
    (PyNum.round_ndigits 2 elapsed) (error r)
    (Some (Qfloor (now w))) (Some OLLAMA_MODEL) (Some false).

(** [get_response]. The task handed to the executor is run to its end; the
    wait on its future times out when the task took longer than [timeout]
    seconds, and the caller then goes on at [start_time + timeout]. *)
Definition get_response (self : Service) (question : string) (timeout : option nat)
    (w : World) : Answer * Service * World :=
  let timeout := match timeout with Some (S t) => S t | _ => 60%nat end in
  let start_time := now w in
  let cache_key := _generate_cache_key question in
  match _get_cached_response self cache_key with
  | Some cached_response => (cached_response, self, w)
  | None =>
      let '(outcome, w1) := _process_query question w in
      if Qle_bool (now w1 - start_time) (PyNum.of_nat timeout)
      then
        match outcome with
        | Ok r =>
            let enhanced_result := enhance r (now w1 - start_time) w1 in
            (enhanced_result, _cache_response self cache_key enhanced_result w1, w1)
        | Raised e => (error_answer e (now w1 - start_time), self, w1)
        end
      else
        (timeout_answer timeout, self,
         mkWorld (start_time + PyNum.of_nat timeout) (llm_calls w1) (trace w1))
  end.

End Queries.

End LLMService.

(** ** app/models/vector_store_fixed.py: ingestion *)

(** [self.vectorstore.add_documents], a call of the Chroma store that
    returns the ids it gave; it may raise. *)
Class VectorWriter : Type := {
  index_add_documents : list Document -> result (list string)
}.

Section Ingest.
Context `{Digest} `{VectorWriter}.

(** One turn of the loop of [_remove_duplicates] over [documents], on the
    pair of [seen_hashes] and [unique_docs]. A document that is kept gets
    its hash written into its metadata. *)
Definition dedup_step (st : gset string * list Document) (doc : Document)
  : gset string * list Document :=
  let '(seen_hashes, unique_docs) := st in
  let content_hash := md5_hexdigest (page_content doc) in
  if bool_decide (content_hash ∈ seen_hashes)
  then st
  else ({[content_hash]} ∪ seen_hashes,
        unique_docs
        ++ [mkDocument (page_content doc)
              (<["content_hash" := VStr content_hash]> (doc_metadata doc))]).

Definition _remove_duplicates (documents : list Document) : list Document :=
  snd (foldl dedup_step (∅, []) documents).

(** [add_documents]: an exception of the store is logged and raised again. *)
Definition add_documents (documents : list Document) : result (list string) :=
  let unique_docs := _remove_duplicates documents in
  index_add_documents unique_docs.

End Ingest.

(** ** app/utils/document_processor.py: files *)

(** [os.path] on POSIX paths. *)
Module OsPath.

(** [s.rpartition(c)] when [c] occurs in [s]: what is before and what is
    after its last occurrence. *)
Fixpoint rsplit_char (c : ascii) (s : string) : option (string * string) :=
  match s with
  | EmptyString => None
  | String a r =>
      match rsplit_char c r with
      | Some (before, after) => Some (String a before, after)
      | None => if Ascii.eqb a c then Some (EmptyString, r) else None
      end
  end.

(** [os.path.split(p)], without the stripping of trailing slashes from the
    head: the part up to and with the last slash, and the part after it. *)
Definition split_last_sep (p : string) : string * string :=
  match rsplit_char "/" p with
  | Some (before, after) => (before +:+ "/", after)
  | None => (EmptyString, p)
  end.

(** [os.path.basename(p)] *)
Definition basename (p : string) : string := snd (split_last_sep p).

Fixpoint all_dots (s : string) : bool :=
  match s with
  | EmptyString => true
  | String a r => Ascii.eqb a "." && all_dots r
  end.

(** [os.path.splitext(p)]: the extension starts at the last dot of the last
    component, unless only dots come before it in that component. *)
Definition splitext (p : string) : string * string :=
  let '(head, tail) := split_last_sep p in
  match rsplit_char "." tail with
  | Some (stem, ext) =>
      if all_dots stem then (p, EmptyString)
      else (head +:+ stem, String "." ext)
  | None => (p, EmptyString)
  end.

End OsPath.

(** [os.stat(path)], the fields [extract_metadata] reads. *)
Record FileStat : Type := mkFileStat {
  st_size : nat;
  st_ctime : Q;
  st_mtime : Q
}.

(** The file system and the two document loaders; every call but
    [os.path.exists] may raise. *)
Class FileSystem : Type := {
  path_exists : string -> bool;
  getsize : string -> result nat;
  stat : string -> result FileStat;
  load_pdf : string -> result (list Document);
  load_text : string -> result (list Document)
}.

(** The attribute [max_file_size_bytes] of a [DocumentProcessor], beside the
    two the deduplication reads. *)
Record FileProcessor (T : Type) : Type := mkFileProcessor {
  processor : DocumentProcessor T;
  max_file_size_bytes : nat
}.
Arguments mkFileProcessor {T} _ _.
Arguments processor {T} _.
Arguments max_file_size_bytes {T} _.

(** [DocumentProcessor(chunking_strategy, max_file_size_mb)] *)
Definition new_FileProcessor {T} (strategy : T) (max_file_size_mb : nat)
  : FileProcessor T :=
  mkFileProcessor (new_DocumentProcessor strategy) (max_file_size_mb * 1024 * 1024).

(** [SUPPORTED_EXTENSIONS] *)
Definition SUPPORTED_EXTENSIONS : list string := [".pdf"; ".txt"; ".md"].

Section Files.
Context `{Digest} `{FileSystem}.

(** [validate_file]; an exception counts as a failed validation. *)
Definition validate_file {T} (self : FileProcessor T) (file_path : string) : bool :=
  if negb (path_exists file_path) then false
  else
    match getsize file_path with
    | Raised _ => false
    | Ok file_size =>
        if (max_file_size_bytes self <? file_size)%nat then false
        else
          let ext := snd (OsPath.splitext (PyStr.lower file_path)) in
          bool_decide (ext ∈ SUPPORTED_EXTENSIONS)
    end.

(** [extract_text]; [None] for an unsupported type and for an exception. *)
Definition extract_text (file_path : string) : option string :=
  let ext := snd (OsPath.splitext (PyStr.lower file_path)) in
  if bool_decide (ext = ".pdf")
  then
    match load_pdf file_path with
    | Ok documents => Some (PyStr.join para_sep (map page_content documents))
    | Raised _ => None
    end
  else if bool_decide (ext ∈ [".txt"; ".md"])
  then
    match load_text file_path with
    | Ok documents =>
        Some (match documents with
              | doc :: _ => page_content doc
              | [] => EmptyString
              end)
    | Raised _ => None
    end
  else None.

(** [extract_metadata] at the clock reading [current_time]; when [os.stat]
    raises, the file name alone. *)
Definition extract_metadata (file_path : string) (current_time : Q)
  : gmap string value :=
  let filename := OsPath.basename file_path in
  match stat file_path with
  | Ok st =>
      <["filename" := VStr filename]>
      (<["file_path" := VStr file_path]>
      (<["file_size" := VInt (Z.of_nat (st_size st))]>
      (<["file_extension" := VStr (PyStr.lower (snd (OsPath.splitext filename)))]>
      (<["created_time" := VFloat (st_ctime st)]>
      (<["modified_time" := VFloat (st_mtime st)]>
      (<["processing_timestamp" := VFloat current_time]> ∅))))))
  | Raised _ => <["filename" := VStr filename]> ∅
  end.

(** [process_document]: the chunks and the processor after the call. No step
    of the body raises in this model, so its [except] branch is left out. *)
Definition process_document {T} `{ChunkingStrategy T}
    (self : FileProcessor T) (file_path : string) (current_time : Q)
  : list Chunk * FileProcessor T :=
  if negb (validate_file self file_path) then ([], self)
  else
    match extract_text file_path with
    | None => ([], self)
    | Some text =>
        if bool_decide (text = EmptyString) then ([], self)
        else
          let '(dup, p) := is_duplicate (processor self) text in
          let self := mkFileProcessor p (max_file_size_bytes self) in
          if dup then ([], self)
          else
            let md := extract_metadata file_path current_time in
            let md := <["content_hash" := VStr (generate_content_hash text)]> md in
            (chunk_text (chunking_strategy (processor self)) text md, self)
    end.

(** ['processed_documents'] of [get_processing_stats] *)
Definition processed_documents {T} (self : FileProcessor T) : nat :=
  size (processed_hashes (processor self)).

End Files.

(** ** main.py: rate limiting *)

(** [check_rate_limit] at the clock reading [current_time], on the dictionary
    [request_count]; the lock makes the call atomic. *)
Definition check_rate_limit (remote_addr : string) (limit_per_minute : Z)
    (current_time : Q) (request_count : gmap string (list Q))
  : bool * gmap string (list Q) :=
  let minute_ago := (current_time - 60)%Q in
  let times := default [] (request_count !! remote_addr) in
  let times := List.filter (fun req_time => negb (Qle_bool req_time minute_ago)) times in
  if (limit_per_minute <=? Z.of_nat (length times))%Z
  then (false, <[remote_addr := times]> request_count)
  else (true, <[remote_addr := times ++ [current_time]]> request_count).

(** A sequence of requests, each with its address and clock reading, in
    order: the answers and the dictionary at the end. *)
Fixpoint check_rate_limit_calls (limit_per_minute : Z)
    (requests : list (string * Q)) (request_count : gmap string (list Q))
  : list bool * gmap string (list Q) :=
  match requests with
  | [] => ([], request_count)
  | (remote_addr, current_time) :: rest =>
      let '(b, request_count) :=
        check_rate_limit remote_addr limit_per_minute current_time request_count in
      let '(bs, request_count) :=
        check_rate_limit_calls limit_per_minute rest request_count in
      (b :: bs, request_count)
  end.

(** * The vocabulary of the statements *)

(** ** Ranking *)

Definition nhd_query : string := "NHD vs USGS".

Definition long_query : string :=
  "Explain the full history of hydrography standards in detail".

(** The adaptive threshold as the design states it: the rule picked by the
    two facts about the query, with the mathematical maximum. *)
Definition adaptive_threshold_spec (b : Q) (comparison : bool) (tokens : nat) : Q :=
  if comparison then Qmax 0.1 (b - 0.05)
  else if (tokens <=? 3)%nat then Qmax 0.05 (b - 0.1)
  else b.

Definition clamp01 (x : Q) : Q := Qmax 0 (Qmin 1 x).

(** [|query_tokens ∩ chunk_tokens| / |query_tokens|] *)
Definition keyword_ratio (query document : string) : Q :=
  let query_words := PyStr.to_set (PyStr.split_ws (PyStr.lower query)) in
  let doc_words := PyStr.to_set (PyStr.split_ws (PyStr.lower document)) in
  (PyNum.of_nat (PyStr.inter_size query_words doc_words)
   / PyNum.of_nat (length query_words))%Q.

(** The fused relevance as the design states it. *)
Definition fused_relevance_spec (similarity : Q) (query document : string) : Q :=
  clamp01 (similarity + 0.1 * keyword_ratio query document
           + (if (100 <? PyStr.len document)%nat then 0.05 else 0))%Q.

(** ** Chunking *)

Definition chunk_index_of (c : Chunk) : option value := metadata c !! "chunk_index".

Definition expected_indices (n : nat) : list (option value) :=
  map (fun i => Some (VInt (Z.of_nat i))) (seq 0 n).

(** The chunk emitted at position [i] carries [chunk_index = i]. *)
Definition numbered_in_order (chunks : list Chunk) : Prop :=
  map chunk_index_of chunks = expected_indices (length chunks).

(** The loop invariant of the Semantic strategy: the chunks emitted so far
    are numbered in order and [chunk_index] counts them. *)
Definition sem_inv (st : SemState) : Prop :=
  numbered_in_order (sem_chunks st) /\ sem_index st = length (sem_chunks st).

(** [len(content) <= 1.5 * chunk_size] *)
Definition within_hybrid_bound (chunk_size : nat) (c : Chunk) : Prop :=
  (PyNum.of_nat (PyStr.len (content c)) <= 1.5 * PyNum.of_nat chunk_size)%Q.

(** What the Hybrid strategy makes of one Semantic chunk, content-wise: the
    pieces of the library splitter when it is longer than [1.5 * chunk_size],
    and the chunk's own content otherwise. *)
Definition hybrid_contents_of `{TextSplitter} (chunk_size chunk_overlap : nat) (c : Chunk)
  : list string :=
  if Qlt_le_dec (1.5 * PyNum.of_nat chunk_size) (PyNum.of_nat (PyStr.len (content c)))
  then split_text chunk_size chunk_overlap (content c)
  else [content c].

(** Three paragraphs of 4, 20 and 2 characters. *)
Definition three_paragraphs : string :=
  "aaaa" +:+ para_sep +:+ "bbbbbbbbbbbbbbbbbbbb" +:+ para_sep +:+ "cc".

(** ** Stand-ins for the external collaborators, to run the model *)

(** A splitter that cuts a window of [size] characters every [step]
    characters, which is what the library splitter does with a text that has
    no separator in it. *)
Fixpoint windows (fuel size step : nat) (s : string) : list string :=
  match fuel with
  | O => []
  | S fuel =>
      if (PyStr.len s <=? size)%nat
      then (if bool_decide (s = EmptyString) then [] else [s])
      else PyStr.take size s :: windows fuel size step (PyStr.drop step s)
  end.

Definition window_splitter : TextSplitter :=
  {| split_text chunk_size chunk_overlap text :=
       windows (PyStr.len text) chunk_size (chunk_size - chunk_overlap) text |}.

(** Digests that return their input: injective, so free of collisions. *)
Definition plain_digest : Digest :=
  {| md5_hexdigest s := s; sha256_hexdigest s := s |}.

Definition plain_float_repr : FloatRepr := {| float_str q := "0.0" |}.

(** A document with no metadata. *)
Definition doc_of (text : string) : Document := mkDocument text ∅.

(** An index that returns four candidates with their distances. *)
Definition four_hits_index : VectorIndex :=
  {| similarity_search_with_score query k :=
       Ok [ (doc_of "NHD is the National Hydrography Dataset.", 0.2%Q);
            (doc_of "USGS maintains the NHD.", 0.3%Q);
            (doc_of "The dataset maps streams and lakes.", 0.4%Q);
            (doc_of "Hydrography NHD data is updated yearly.", 0.5%Q) ];
     index_similarity_search query k := Ok [] |}.

Definition four_hits_store : Retriever := @store_retriever four_hits_index.

(** A backend whose every call fails after two seconds. *)
Definition failing_backend : Backend :=
  {| llm n prompt := (Raised "connection refused", 2%Q) |}.

(** A backend that answers every call after two seconds, each time with
    another text. *)
Definition counting_backend : Backend :=
  {| llm n prompt := (Ok ("answer " +:+ PyStr.of_nat n), 2%Q) |}.

Definition llama2_settings : Settings := {| OLLAMA_MODEL := "llama2" |}.

Definition world0 : World := mkWorld 100 0 [].

(** A service whose cache is still empty. *)
Definition service0 : Service := mkService ∅.

(** ** The orchestrator *)

(** The prompt [_process_query] sends for a question. *)
Definition prompt_of `{Retriever} (question : string) : string :=
  LLMService._create_optimized_prompt question
    (PyStr.join (LLMService.nl +:+ LLMService.nl)
                (LLMService.assemble_contexts (retrieve question 7))).

(** ** Query normalization *)

(** A string in normal form for whitespace: the only whitespace is a single
    space between two other characters. [after_space] tells that the
    character before [s] was a space, or that [s] is the whole string. *)
Fixpoint tidy_at (after_space : bool) (s : string) : bool :=
  match s with
  | EmptyString => negb after_space
  | String c r =>
      if PyStr.isspace c
      then Ascii.eqb c " " && negb after_space && tidy_at true r
      else tidy_at false r
  end.

Definition tidy (s : string) : bool :=
  match s with
  | EmptyString => true
  | _ => tidy_at true s
  end.

(** The last character is not whitespace. *)
Fixpoint ends_nonspace (s : string) : bool :=
  match s with
  | EmptyString => false
  | String c EmptyString => negb (PyStr.isspace c)
  | String _ r => ends_nonspace r
  end.

(** No space character in [s]. *)
Fixpoint space_free (s : string) : bool :=
  match s with
  | EmptyString => true
  | String c r => negb (Ascii.eqb c " ") && space_free r
  end.


(** ** Context assembly *)

(** The pieces of a split put together again, each followed by the
    separator. *)
Fixpoint unsplit (sep : string) (pieces : list string) : string :=
  match pieces with
  | [] => EmptyString
  | x :: r => x +:+ sep +:+ unsplit sep r
  end.

(** The content [_process_query] reads from a retrieved document; empty for
    a document it skips. *)
Definition doc_text (doc : RetrievedDoc) : string :=
  match doc_fields doc with
  | Some (text, _) => text
  | None => EmptyString
  end.

(** The entries of documents that are appended whole, numbered by their
    rank from [i] on. *)
Fixpoint plain_entries (i : nat) (docs : list RetrievedDoc) : list string :=
  match docs with
  | [] => []
  | doc :: rest =>
      (if bool_decide (doc_text doc = EmptyString) then []
       else [LLMService.source_entry i (doc_text doc)])
      ++ plain_entries (i + 1) rest
  end.

(** The characters those documents take from the budget. *)
Fixpoint total_len (docs : list RetrievedDoc) : nat :=
  match docs with
  | [] => 0
  | doc :: rest => PyStr.len (doc_text doc) + total_len rest
  end.

(** The first [k] sentences of a text, each with the separator ['. '] that
    ended it. *)
Definition whole_sentences (k : nat) (text : string) : string :=
  unsplit ". " (take k (PyStr.split ". " text)).

(** [s.startswith(p)], as a proposition. *)
Definition is_prefix (p s : string) : Prop := exists r, s = p +:+ r.

(** A retrieved dictionary with the given content and no metadata. *)
Definition text_doc (text : string) : RetrievedDoc := DictDoc (Some text) (Some ∅).

(** [s * n] *)
Fixpoint repeat_str (n : nat) (s : string) : string :=
  match n with
  | O => EmptyString
  | S n => s +:+ repeat_str n s
  end.


(** ** The ranked search *)

Section RankedVocabulary.
Import VectorStore.
Local Open Scope Q_scope.

(** [h] sorts before [h']: its relevance is the greater or the same. *)
Definition at_least (h h' : Hit) : Prop := relevance_key h' <= relevance_key h.

Definition descending (l : list Hit) : Prop := StronglySorted at_least l.

(** The candidate passes the adaptive threshold of the query. *)
Definition passes (query : string) (threshold : Q) (cand : Document * Q) : bool :=
  Qle_bool (_get_adaptive_threshold query threshold) (score_to_similarity (snd cand)).

(** [h] is made from a candidate of [results] that passes the threshold: it
    has the candidate's content and metadata, and two more keys, the search
    type and a relevance in [0,1]. *)
Definition ranked_hit (query : string) (threshold : Q)
    (results : list (Document * Q)) (h : Hit) : Prop :=
  exists doc score r,
    (doc, score) ∈ results
    /\ hit_content h = page_content doc
    /\ passes query threshold (doc, score) = true
    /\ hit_metadata h !! "search_type" = Some (VStr "optimized_semantic")
    /\ hit_metadata h !! "relevance_score" = Some (VFloat r)
    /\ 0 <= r <= 1
    /\ forall key, key ≠ "search_type" -> key ≠ "relevance_score" ->
         hit_metadata h !! key = doc_metadata doc !! key.

End RankedVocabulary.

(** ** Ingestion *)

Section IngestVocabulary.
Context `{Digest}.

Definition doc_hash (doc : Document) : string := md5_hexdigest (page_content doc).

(** The document as [_remove_duplicates] keeps it. *)
Definition with_hash (doc : Document) : Document :=
  mkDocument (page_content doc)
    (<["content_hash" := VStr (doc_hash doc)]> (doc_metadata doc)).

(** The documents kept from [documents] when the hashes of [seen] have been
    met before. *)
Fixpoint dedup_from (seen : gset string) (documents : list Document) : list Document :=
  match documents with
  | [] => []
  | doc :: rest =>
      if bool_decide (doc_hash doc ∈ seen) then dedup_from seen rest
      else with_hash doc :: dedup_from ({[doc_hash doc]} ∪ seen) rest
  end.

End IngestVocabulary.

(** Two documents of the same content between two others. *)
Definition four_documents : list Document :=
  [ doc_of "alpha";
    mkDocument "beta" {[ "page" := VInt 1 ]};
    mkDocument "beta" {[ "page" := VInt 2 ]};
    doc_of "gamma" ].

(** ** Retries *)

(** The events of failed attempts, each followed by the pause of a second. *)
Definition failed_attempts (prompt : string) (failures : list (exn * Q)) : list Event :=
  flat_map (fun f => [EvLLM prompt (Raised (fst f)); EvSleep 1]) failures.

(** The backend fails its next calls as [failures] tells: with which
    exception, and after how many seconds. *)
Definition fails_next `{Backend} (prompt : string) (w : World)
    (failures : list (exn * Q)) : Prop :=
  forall i e d, failures !! i = Some (e, d) ->
    llm (llm_calls w + i) prompt = (Raised e, d).

(** A backend whose first call fails and whose later calls answer. *)
Definition flaky_backend : Backend :=
  {| llm n prompt :=
       if (n =? 0)%nat then (Raised "busy", 1%Q) else (Ok "fine", 2%Q) |}.


(** ** Text with something in it *)

(** Some character of [s] is not whitespace. *)
Fixpoint has_nonspace (s : string) : bool :=
  match s with
  | EmptyString => false
  | String c r => negb (PyStr.isspace c) || has_nonspace r
  end.

(** The first character is not whitespace. *)
Definition starts_nonspace (s : string) : bool :=
  match s with
  | EmptyString => false
  | String c _ => negb (PyStr.isspace c)
  end.

(** ** Chunks and their metadata *)

(** The buffer of the Semantic loop is empty or ends in a character that is
    not whitespace, and the chunks made so far have content. *)
Definition sem_content_inv (st : SemState) : Prop :=
  (sem_current st = EmptyString \/ ends_nonspace (sem_current st) = true)
  /\ Forall (fun c => content c ≠ EmptyString) (sem_chunks st).

(** [current_chunk] after [paragraph] is added to it without a split. *)
Definition append_paragraph (current_chunk paragraph : string) : string :=
  if bool_decide (current_chunk ≠ EmptyString)
  then current_chunk +:+ para_sep +:+ paragraph
  else paragraph.

(** The metadata of [c] name the strategy and have every other key of [md],
    the index and the size of the chunk apart. *)
Definition carries (md : gmap string value) (strategy : string) (c : Chunk) : Prop :=
  metadata c !! "chunking_strategy" = Some (VStr strategy)
  /\ forall key, key ≠ "chunk_index" -> key ≠ "chunk_size" -> key ≠ "chunking_strategy" ->
       metadata c !! key = md !! key.

(** A file system with one file of two paragraphs, under a name in capitals. *)
Definition guide_fs : FileSystem :=
  {| path_exists p := bool_decide (p = "docs/Guide.MD");
     getsize p := Ok 24;
     stat p := Ok (mkFileStat 24 1 2);
     load_pdf p := Raised "not a PDF file";
     load_text p := Ok [doc_of ("First part." +:+ para_sep +:+ "Second part.")] |}.

(** ** The rate limit as a sliding window *)

(** The request times of [times] later than [minute_ago]. *)
Definition later_than (minute_ago : Q) (times : list Q) : list Q :=
  List.filter (fun req_time => negb (Qle_bool req_time minute_ago)) times.

(** The times of the requests of [remote_addr] in [accepted] that are later
    than [minute_ago]. *)
Definition recent_of (remote_addr : string) (minute_ago : Q)
    (accepted : list (string * Q)) : list Q :=
  later_than minute_ago
    (map snd (List.filter (fun r => bool_decide (fst r = remote_addr)) accepted)).

(** The answers to [requests] read off the whole history [accepted] of the
    requests let through so far, none of it forgotten: a request passes when
    fewer than [limit_per_minute] requests of its address passed in the
    sixty seconds before it. *)
Fixpoint window_answers (limit_per_minute : Z) (requests : list (string * Q))
    (accepted : list (string * Q)) : list bool :=
  match requests with
  | [] => []
  | (remote_addr, current_time) :: rest =>
      if (limit_per_minute
          <=? Z.of_nat (length (recent_of remote_addr (current_time - 60)%Q accepted)))%Z
      then false :: window_answers limit_per_minute rest accepted
      else true :: window_answers limit_per_minute rest
                     (accepted ++ [(remote_addr, current_time)])
  end.

(** The clock does not run backwards from one request to the next. *)
Definition clock_order (requests : list (string * Q)) : Prop :=
  StronglySorted Qle (map snd requests).

(** The requests that were answered [True]. *)
Fixpoint accepted_of (requests : list (string * Q)) (answers : list bool)
  : list (string * Q) :=
  match requests, answers with
  | r :: requests, true :: answers => r :: accepted_of requests answers
  | _ :: requests, false :: answers => accepted_of requests answers
  | _, _ => []
  end.

(** The times of the requests of [remote_addr] in [accepted] within the
    sixty seconds after [start]. *)
Definition in_minute_after (remote_addr : string) (start : Q)
    (accepted : list (string * Q)) : list Q :=
  List.filter (fun req_time => Qle_bool req_time (start + 60))
              (recent_of remote_addr start accepted).

(** The list kept for [remote_addr] in the dictionary. *)
Definition stored (request_count : gmap string (list Q)) (remote_addr : string) : list Q :=
  default [] (request_count !! remote_addr).

(** The dictionary and the whole history agree on every window that starts
    at [lo] or later. *)
Definition agree (lo : Q) (request_count : gmap string (list Q))
    (accepted : list (string * Q)) : Prop :=
  forall remote_addr m, (lo <= m)%Q ->
    later_than m (stored request_count remote_addr) = recent_of remote_addr m accepted.

(** No address has more than [limit_per_minute] requests of [accepted] in
    any sixty seconds. *)
Definition window_bounded (limit_per_minute : Z) (accepted : list (string * Q)) : Prop :=
  forall remote_addr start,
    (Z.of_nat (length (in_minute_after remote_addr start accepted)) <= limit_per_minute)%Z.

(** Three requests of one address within a minute, one of another address,
    and a fourth of the first address after the minute has passed. *)
Definition five_requests : list (string * Q) :=
  [ ("10.0.0.1", 0%Q); ("10.0.0.1", 10%Q); ("10.0.0.2", 15%Q);
    ("10.0.0.1", 20%Q); ("10.0.0.1", 65%Q) ].

(** * Properties *)

(** ** Strings: append and length *)

Lemma app_cons c s t : String c s +:+ t = String c (s +:+ t).
Proof. reflexivity. Qed.

Lemma app_empty t : EmptyString +:+ t = t.
Proof. reflexivity. Qed.

Lemma app_empty_r s : s +:+ EmptyString = s.
Proof. induction s as [|c s IH]; [done|]. by rewrite app_cons, IH. Qed.

Lemma app_assoc_str s t u : (s +:+ t) +:+ u = s +:+ t +:+ u.
Proof. induction s as [|c s IH]; [done|]. by rewrite !app_cons, IH. Qed.

Lemma len_app s t : PyStr.len (s +:+ t) = PyStr.len s + PyStr.len t.
Proof. induction s as [|c s IH]; [done|]. rewrite app_cons. simpl. by rewrite IH. Qed.

(** Arithmetic goals over the lengths of strings that hold literals are
    closed after naming the lengths. *)
Ltac len_lia :=
  repeat match goal with
    | |- context [String.length ?s] =>
        let n := fresh "n" in set (n := String.length s) in *; clearbody n
    | H : context [String.length ?s] |- _ =>
        let n := fresh "n" in set (n := String.length s) in *; clearbody n
    end;
  lia.

Lemma take_len n s : (PyStr.len (PyStr.take n s) <= n)%nat.
Proof.
  revert s. induction n as [|n IH]; intros [|c s]; simpl; try lia.
  specialize (IH s). lia.
Qed.

Lemma take_len_exact n s : n <= PyStr.len s -> PyStr.len (PyStr.take n s) = n.
Proof.
  revert s. induction n as [|n IH]; intros [|c s] Hn; simpl in *; try lia.
  rewrite IH; lia.
Qed.

Lemma drop_len k s : PyStr.len (PyStr.drop k s) = PyStr.len s - k.
Proof.
  revert s. induction k as [|k IH]; intros [|c s]; simpl; auto.
Qed.

Lemma lstrip_len s : PyStr.len (PyStr.lstrip s) <= PyStr.len s.
Proof. induction s as [|c s IH]; simpl; [lia|]. destruct (PyStr.isspace c); simpl; lia. Qed.

Lemma rstrip_len s : PyStr.len (PyStr.rstrip s) <= PyStr.len s.
Proof.
  induction s as [|c s IH]; simpl; [lia|].
  destruct (PyStr.rstrip s); [destruct (PyStr.isspace c)|]; simpl in *; lia.
Qed.

Lemma strip_len s : PyStr.len (PyStr.strip s) <= PyStr.len s.
Proof.
  unfold PyStr.strip. pose proof (rstrip_len (PyStr.lstrip s)). pose proof (lstrip_len s). lia.
Qed.

(** ** Strings: the normal form for whitespace *)

Lemma tidy_at_collapse b s : tidy_at b s = true -> PyStr.collapse_ws b s = s.
Proof.
  revert b. induction s as [|c r IH]; intros b Ht; [done|].
  simpl in *. destruct (PyStr.isspace c).
  - apply andb_true_iff in Ht as [Ht Hr]. apply andb_true_iff in Ht as [Hc Hb].
    apply Ascii.eqb_eq in Hc as ->. destruct b; [done|].
    f_equal. by apply IH.
  - f_equal. by apply IH.
Qed.

Lemma tidy_at_rstrip b s : tidy_at b s = true -> PyStr.rstrip s = s.
Proof.
  revert b. induction s as [|c r IH]; intros b Ht; [done|].
  simpl in *. destruct (PyStr.isspace c) eqn:Hc.
  - apply andb_true_iff in Ht as [_ Hr]. rewrite (IH _ Hr).
    destruct r; [discriminate Hr | done].
  - rewrite (IH _ Ht). by destruct r.
Qed.

Lemma tidy_strip s : tidy s = true -> PyStr.strip s = s.
Proof.
  destruct s as [|c r]; [done|]. intros Ht. unfold PyStr.strip.
  assert (Hl : PyStr.lstrip (String c r) = String c r).
  { simpl in *. destruct (PyStr.isspace c); [|done].
    rewrite andb_false_r in Ht. discriminate Ht. }
  rewrite Hl. by apply (tidy_at_rstrip true).
Qed.

Lemma collapse_tidy_at b s : ends_nonspace s = true -> tidy_at b (PyStr.collapse_ws b s) = true.
Proof.
  revert b. induction s as [|c r IH]; intros b He; [done|].
  simpl in He. simpl. destruct r as [|d r'].
  - destruct (PyStr.isspace c) eqn:Hc; [done|]. simpl. by rewrite Hc.
  - destruct (PyStr.isspace c) eqn:Hc.
    + destruct b; [by apply IH|].
      cbn [tidy_at]. change (PyStr.isspace " ") with true. cbn. by apply IH.
    + cbn [tidy_at]. rewrite Hc. by apply IH.
Qed.

Lemma rstrip_ends s : PyStr.rstrip s = EmptyString \/ ends_nonspace (PyStr.rstrip s) = true.
Proof.
  induction s as [|c r IH]; [by left|].
  simpl. destruct IH as [-> | He].
  - destruct (PyStr.isspace c) eqn:Hc; [by left | right; simpl; by rewrite Hc].
  - right. destruct (PyStr.rstrip r) as [|d r']; [done|]. exact He.
Qed.

Lemma rstrip_head c r :
  PyStr.isspace c = false -> exists r', PyStr.rstrip (String c r) = String c r'.
Proof.
  intros Hc. simpl. destruct (PyStr.rstrip r); rewrite ?Hc; eauto.
Qed.

Lemma lstrip_head s :
  PyStr.lstrip s = EmptyString
  \/ exists c r, PyStr.lstrip s = String c r /\ PyStr.isspace c = false.
Proof.
  induction s as [|c r IH]; [by left|].
  simpl. destruct (PyStr.isspace c) eqn:Hc; [exact IH | right; eauto].
Qed.

Lemma normalize_tidy s : tidy (PyStr.collapse_ws false (PyStr.strip s)) = true.
Proof.
  unfold PyStr.strip.
  destruct (lstrip_head s) as [-> | (c & r & -> & Hc)]; [done|].
  destruct (rstrip_head c r Hc) as [r' Hr].
  pose proof (rstrip_ends (String c r)) as He. rewrite Hr in *.
  destruct He as [He|He]; [discriminate He|].
  simpl. rewrite Hc. simpl. rewrite Hc.
  destruct r' as [|d r'']; [done|].
  apply collapse_tidy_at. exact He.
Qed.

Lemma tidy_at_append b a e :
  a ≠ EmptyString -> tidy_at b a = true -> tidy_at true e = true ->
  tidy_at b (a +:+ " " +:+ e) = true.
Proof.
  revert b. induction a as [|c r IH]; intros b Ha Ht He; [done|].
  rewrite app_cons. simpl in *. destruct (PyStr.isspace c).
  - apply andb_true_iff in Ht as [Ht Hr]. rewrite Ht. simpl.
    destruct r as [|d r']; [discriminate Hr|]. by apply IH.
  - destruct r as [|d r']; [exact He|]. by apply IH.
Qed.

Lemma tidy_append a e :
  a ≠ EmptyString -> tidy a = true -> tidy_at true e = true ->
  tidy (a +:+ " " +:+ e) = true.
Proof.
  intros Ha Ht He. destruct a as [|c r]; [done|].
  rewrite app_cons. unfold tidy in *. rewrite <- app_cons. by apply tidy_at_append.
Qed.

(** ** Strings: prefixes and substrings *)

Lemma startswith_refl s : PyStr.startswith s s = true.
Proof. induction s as [|c r IH]; [done|]. simpl. by rewrite Ascii.eqb_refl. Qed.

Lemma startswith_app n x y :
  PyStr.startswith n x = true -> PyStr.startswith n (x +:+ y) = true.
Proof.
  revert x. induction n as [|a n IH]; intros [|b x] Hs; try done.
  rewrite app_cons. simpl in *. destruct (Ascii.eqb a b); [by apply IH | done].
Qed.

Lemma contains_app_l n x y :
  PyStr.contains n x = true -> PyStr.contains n (x +:+ y) = true.
Proof.
  induction x as [|b x IH]; intros Hc.
  - simpl in Hc. rewrite orb_false_r in Hc. destruct n; [|done]. by destruct y.
  - rewrite app_cons. simpl in Hc. apply orb_true_iff in Hc as [Hs|Hc].
    + apply (startswith_app _ _ y) in Hs. rewrite app_cons in Hs.
      cbn [PyStr.contains]. by rewrite Hs.
    + cbn [PyStr.contains]. rewrite (IH Hc). apply orb_true_r.
Qed.

Lemma contains_app_r n x y :
  PyStr.contains n y = true -> PyStr.contains n (x +:+ y) = true.
Proof.
  intros Hc. induction x as [|b x IH]; [done|].
  rewrite app_cons. cbn [PyStr.contains]. rewrite IH. apply orb_true_r.
Qed.

Lemma contains_refl s : PyStr.contains s s = true.
Proof. destruct s; simpl; [done|]. by rewrite Ascii.eqb_refl, startswith_refl. Qed.

Lemma startswith_before_space n x y :
  space_free n = true ->
  PyStr.startswith n (x +:+ " " +:+ y) = true -> PyStr.startswith n x = true.
Proof.
  revert x. induction n as [|a n IH]; intros x Hn Hs; [by destruct x|].
  simpl in Hn. apply andb_true_iff in Hn as [Ha Hn].
  destruct x as [|b x].
  - rewrite app_empty in Hs. change (" " +:+ y) with (String " " y) in Hs.
    simpl in Hs. destruct (Ascii.eqb a " "); done.
  - rewrite app_cons in Hs. simpl in *. destruct (Ascii.eqb a b); [by apply IH | done].
Qed.

Lemma contains_across_space n x y :
  space_free n = true ->
  PyStr.contains n (x +:+ " " +:+ y) = true ->
  PyStr.contains n x = true \/ PyStr.contains n y = true.
Proof.
  intros Hn. induction x as [|b x IH]; intros Hc.
  - rewrite app_empty in Hc. change (" " +:+ y) with (String " " y) in Hc.
    cbn [PyStr.contains] in Hc. apply orb_true_iff in Hc as [Hs|Hc]; [|by right].
    left. destruct n as [|a n]; [done|].
    simpl in Hn, Hs. apply andb_true_iff in Hn as [Ha _].
    destruct (Ascii.eqb a " "); done.
  - rewrite app_cons in Hc. cbn [PyStr.contains] in Hc.
    apply orb_true_iff in Hc as [Hs|Hc].
    + left. rewrite <- app_cons in Hs. apply startswith_before_space in Hs; [|done].
      cbn [PyStr.contains]. by rewrite Hs.
    + destruct (IH Hc) as [Hx|Hy]; [left | by right].
      cbn [PyStr.contains]. rewrite Hx. apply orb_true_r.
Qed.

Lemma prefix_of_longer a b c d :
  a +:+ b = c +:+ d -> PyStr.len a <= PyStr.len c -> is_prefix a c.
Proof.
  revert c. induction a as [|x a IH]; intros c Heq Hlen.
  - by exists c.
  - destruct c as [|y c]; simpl in Hlen; [lia|].
    rewrite !app_cons in Heq. injection Heq as -> Heq.
    destruct (IH c Heq) as [r ->]; [lia|]. by exists r.
Qed.

(** [startswith] and [contains] decide the prefix and the substring
    relation. *)
Lemma startswith_spec p s : PyStr.startswith p s = true <-> is_prefix p s.
Proof.
  split.
  - revert s. induction p as [|a p IH]; intros s Hs; [by exists s|].
    destruct s as [|b s]; [done|]. simpl in Hs.
    destruct (Ascii.eqb_spec a b) as [->|]; [|done].
    destruct (IH s Hs) as [r ->]. by exists r.
  - intros [r ->]. apply startswith_app, startswith_refl.
Qed.

Lemma contains_spec needle hay :
  PyStr.contains needle hay = true <-> exists a b, hay = a +:+ needle +:+ b.
Proof.
  split.
  - induction hay as [|c hay IH]; intros Hc.
    + simpl in Hc. rewrite orb_false_r in Hc. destruct needle; [|done].
      by exists EmptyString, EmptyString.
    + cbn [PyStr.contains] in Hc. apply orb_true_iff in Hc as [Hs|Hc].
      * apply startswith_spec in Hs as [r ->]. by exists EmptyString, r.
      * destruct (IH Hc) as (a & b & ->). by exists (String c a), b.
  - intros (a & b & ->). apply contains_app_r, contains_app_l, contains_refl.
Qed.

(** ** Strings: splitting and putting together again *)

Lemma unsplit_app sep l1 l2 : unsplit sep (l1 ++ l2) = unsplit sep l1 +:+ unsplit sep l2.
Proof.
  induction l1 as [|x l1 IH]; [done|].
  simpl. by rewrite IH, !app_assoc_str.
Qed.

Lemma unsplit_nonempty sep x l : sep ≠ EmptyString -> unsplit sep (x :: l) ≠ EmptyString.
Proof.
  intros Hsep E. apply (f_equal String.length) in E. simpl in E.
  rewrite !len_app in E. destruct sep; [done|]. simpl in E. lia.
Qed.

Lemma rev_app_app a b x : String.rev_app a b +:+ x = String.rev_app a (b +:+ x).
Proof.
  revert b. induction a as [|c a IH]; intros b; [done|].
  simpl. by rewrite IH.
Qed.

Lemma rev_cons c cur x : String.rev (String c cur) +:+ x = String.rev cur +:+ String c x.
Proof. unfold String.rev. simpl. by rewrite !rev_app_app. Qed.

Lemma startswith_split p s :
  PyStr.startswith p s = true -> s = p +:+ PyStr.drop (PyStr.len p) s.
Proof.
  revert s. induction p as [|a p IH]; intros s Hs; [by destruct s|].
  destruct s as [|b s]; [done|]. simpl in Hs.
  destruct (Ascii.eqb_spec a b) as [->|]; [|done].
  rewrite app_cons. simpl. f_equal. by apply IH.
Qed.

Lemma split_go_skip sep k cur s :
  k <= PyStr.len s ->
  PyStr.split_go sep k cur s = PyStr.split_go sep 0 cur (PyStr.drop k s).
Proof.
  revert s. induction k as [|k IH]; intros s Hk.
  - by destruct s.
  - destruct s as [|c s]; simpl in *; [lia|]. apply IH. lia.
Qed.

Lemma unsplit_split_go sep n cur s :
  sep ≠ EmptyString -> PyStr.len s <= n ->
  unsplit sep (PyStr.split_go sep 0 cur s) = String.rev cur +:+ s +:+ sep.
Proof.
  intros Hsep. revert cur s. induction n as [|n IH]; intros cur s Hn.
  - destruct s; simpl in *; [|lia]. by rewrite app_empty_r.
  - destruct s as [|c r]; [simpl; by rewrite app_empty_r|].
    cbn [PyStr.split_go].
    destruct (PyStr.startswith sep (String c r)) eqn:Hs.
    + pose proof (startswith_split _ _ Hs) as Hdec.
      assert (Hpos : 1 <= PyStr.len sep) by (destruct sep; simpl; [done | lia]).
      assert (Hd : PyStr.drop (PyStr.len sep) (String c r)
                   = PyStr.drop (PyStr.len sep - 1) r).
      { destruct (PyStr.len sep); [lia|]. simpl. by rewrite Nat.sub_0_r. }
      rewrite Hd in Hdec.
      assert (Hlen : PyStr.len sep - 1 <= PyStr.len r).
      { apply (f_equal String.length) in Hdec.
        rewrite len_app, drop_len in Hdec. simpl in Hdec. lia. }
      rewrite split_go_skip by done.
      cbn [unsplit]. rewrite IH.
      2:{ rewrite drop_len. simpl in Hn. lia. }
      rewrite Hdec. unfold String.rev at 2. simpl.
      by rewrite !app_assoc_str.
    + rewrite IH by (simpl in Hn; lia). by rewrite rev_cons.
Qed.

Lemma unsplit_split sep s :
  sep ≠ EmptyString -> unsplit sep (PyStr.split sep s) = s +:+ sep.
Proof.
  intros Hsep. unfold PyStr.split.
  by rewrite (unsplit_split_go sep (PyStr.len s)).
Qed.

(** ** Ranking: thresholds and fused relevance *)

Section Ranking.
Import VectorStore.
Local Open Scope Q_scope.

Lemma py_max_Qmax a b : PyNum.max a b = Qmax a b.
Proof.
  unfold PyNum.max, Qmax, GenericMinMax.gmax.
  destruct (Qlt_le_dec a b) as [Hlt|Hle]; destruct (a ?= b) eqn:E; try reflexivity.
  - apply Qeq_alt in E. lra.
  - apply Qgt_alt in E. lra.
  - apply Qlt_alt in E. lra.
Qed.

Lemma nhd_query_threshold b :
  _get_adaptive_threshold nhd_query b = PyNum.max 0.1 (b - 0.05).
Proof. reflexivity. Qed.

Lemma long_query_threshold b : _get_adaptive_threshold long_query b = b.
Proof. reflexivity. Qed.

(** C6. The adaptive threshold of a query with base [b] is [max(0.10, b - 0.05)]
    when the lowercased query contains one of 'difference', 'compare',
    'versus', 'vs'; otherwise [max(0.05, b - 0.10)] when the query has at most
    3 tokens; otherwise [b]. One rule applies, the comparison rule first. *)
Theorem adaptive_threshold_rules (query : string) (b : Q) :
  _get_adaptive_threshold query b
  = adaptive_threshold_spec b
      (existsb (fun term => PyStr.contains term (PyStr.lower query))
               ["difference"; "compare"; "versus"; "vs"])
      (length (PyStr.split_ws query)).
Proof.
  unfold _get_adaptive_threshold, adaptive_threshold_spec, comparison_terms.
  rewrite !py_max_Qmax. reflexivity.
Qed.

(** C3, as stated, fails at the base threshold 0.10: the comparison query
    stays at the floor 0.10, which is not below the long query's 0.10. *)
Lemma comparison_threshold_not_lower_at_floor :
  ~ (_get_adaptive_threshold nhd_query 0.1 < _get_adaptive_threshold long_query 0.1).
Proof. vm_compute. intros E. discriminate E. Qed.

(** C3, amended. For every base threshold above 0.10 and at most 1, the
    range of the similarities it is compared with, the query "NHD vs USGS"
    gets a strictly lower threshold than the long query without a comparison
    term. The upper bound keeps the base where subtracting 0.05 changes a
    float: from about 5.6e14 on, [b - 0.05] is [b] again in the code's
    arithmetic, and both queries get the same threshold. *)
Theorem comparison_threshold_lower (b : Q) :
  0.1 < b -> b <= 1 ->
  _get_adaptive_threshold nhd_query b < _get_adaptive_threshold long_query b.
Proof.
  intros Hb _. rewrite nhd_query_threshold, long_query_threshold.
  unfold PyNum.max. destruct (Qlt_le_dec _ _); lra.
Qed.

Lemma comparison_threshold_lower_witness :
  0.1 < 0.15 /\ 0.15 <= 1
  /\ _get_adaptive_threshold nhd_query 0.15 < _get_adaptive_threshold long_query 0.15.
Proof.
  assert (H1 : 0.1 < 0.15) by reflexivity.
  assert (H2 : 0.15 <= 1) by (vm_compute; discriminate).
  split; [exact H1|]. split; [exact H2|].
  exact (comparison_threshold_lower 0.15 H1 H2).
Defined.

Lemma similarity_nonneg score : 0 <= score_to_similarity score.
Proof.
  unfold score_to_similarity. destruct (Qlt_le_dec 1 score) as [Hgt|Hle].
  - apply Qle_shift_div_l; lra.
  - lra.
Qed.

Lemma of_nat_le a b : (a <= b)%nat -> PyNum.of_nat a <= PyNum.of_nat b.
Proof. intros Hab. unfold PyNum.of_nat. rewrite <- Zle_Qle. lia. Qed.

Lemma of_nat_nonneg n : 0 <= PyNum.of_nat n.
Proof. apply (of_nat_le 0 n). lia. Qed.

Lemma of_nat_pos n : (0 < n)%nat -> 0 < PyNum.of_nat n.
Proof.
  intros Hn. unfold PyNum.of_nat. change 0 with (inject_Z 0).
  rewrite <- Zlt_Qlt. lia.
Qed.

Lemma ratio_nonneg a b : (0 < b)%nat -> 0 <= PyNum.of_nat a / PyNum.of_nat b.
Proof.
  intros Hb. apply Qle_shift_div_l; [by apply of_nat_pos|].
  rewrite Qmult_0_l. apply of_nat_nonneg.
Qed.

Lemma to_set_nonempty l : l ≠ [] -> (0 < length (PyStr.to_set l))%nat.
Proof.
  intros Hl. destruct l as [|x l]; [done|].
  unfold PyStr.to_set.
  assert (Hin : x ∈ remove_dups (x :: l)) by (apply elem_of_remove_dups; left).
  destruct (remove_dups (x :: l)); [by apply elem_of_nil in Hin | simpl; lia].
Qed.

Lemma py_min_clamp x :
  0 <= x -> PyNum.min 1.0 x == clamp01 x /\ 0 <= PyNum.min 1.0 x <= 1.
Proof.
  intros Hx. unfold PyNum.min, clamp01.
  destruct (Qlt_le_dec x 1.0) as [Hlt|Hle].
  - rewrite Q.min_r by lra. rewrite Q.max_r by lra. split; [reflexivity | lra].
  - rewrite Q.min_l by lra. rewrite Q.max_r by lra. split; [reflexivity | lra].
Qed.

Lemma round_half_even_bounds q (n : Z) :
  (0 <= n)%Z -> 0 <= q <= inject_Z n -> (0 <= PyNum.round_half_even q <= n)%Z.
Proof.
  intros Hn [H0 H1]. unfold PyNum.round_half_even.
  assert (Hf0 : (0 <= Qfloor q)%Z).
  { change 0%Z with (Qfloor 0). by apply Qfloor_resp_le. }
  assert (Hf1 : (Qfloor q <= n)%Z).
  { rewrite <- (Qfloor_Z n). by apply Qfloor_resp_le. }
  assert (Hstep : inject_Z (Qfloor q) < q -> (Qfloor q + 1 <= n)%Z).
  { intros Hlt. assert (Qfloor q < n)%Z; [|lia]. rewrite Zlt_Qlt. lra. }
  pose proof (Qfloor_le q) as Hfl.
  destruct (Qcompare_spec (q - inject_Z (Qfloor q)) (1 # 2)) as [E|E|E].
  - destruct (Z.even (Qfloor q)); [lia|]. split; [lia|]. apply Hstep.
    assert (q - inject_Z (Qfloor q) == 1 # 2) by exact E. lra.
  - lia.
  - split; [lia|]. apply Hstep. lra.
Qed.

Lemma round_ndigits_unit r : 0 <= r <= 1 -> 0 <= PyNum.round_ndigits 3 r <= 1.
Proof.
  intros [H0 H1]. unfold PyNum.round_ndigits.
  change (inject_Z (10 ^ Z.of_nat 3)) with 1000.
  destruct (round_half_even_bounds (r * 1000) 1000) as [Ha Hb]; [lia | |].
  { change (inject_Z 1000) with 1000. split; lra. }
  rewrite Zle_Qle in Ha, Hb.
  change (inject_Z 0) with 0 in Ha. change (inject_Z 1000) with 1000 in Hb.
  split.
  - apply Qle_shift_div_l; [reflexivity|]. lra.
  - apply Qle_shift_div_r; [reflexivity|]. lra.
Qed.

(** C4. For every query with at least one token, every document content and
    every raw score of the index, converted to a similarity as the search
    does, the fused relevance is
    [similarity + 0.1 * (|query_tokens ∩ chunk_tokens| / |query_tokens|)
     + (0.05 if len(document) > 100 else 0)] clamped to [0,1]; it lies in
    [0,1], and so does the three-digit rounding the search stores. *)
Theorem fused_relevance_clamped
    (query document : string) (score : Q) (md : gmap string value) :
  PyStr.split_ws (PyStr.lower query) ≠ [] ->
  exists r,
    _calculate_enhanced_relevance query document (score_to_similarity score) md = Ok r
    /\ r == fused_relevance_spec (score_to_similarity score) query document
    /\ 0 <= r <= 1
    /\ 0 <= PyNum.round_ndigits 3 r <= 1.
Proof.
  intros Hq. apply to_set_nonempty in Hq.
  pose proof (similarity_nonneg score) as Hs.
  unfold _calculate_enhanced_relevance, fused_relevance_spec, keyword_ratio.
  set (qw := PyStr.to_set (PyStr.split_ws (PyStr.lower query))) in *.
  set (dw := PyStr.to_set (PyStr.split_ws (PyStr.lower document))).
  pose proof (ratio_nonneg (PyStr.inter_size qw dw) (length qw) Hq) as Hr.
  destruct (length qw) as [|n] eqn:En; [lia|].
  set (ratio := PyNum.of_nat (PyStr.inter_size qw dw) / PyNum.of_nat (S n)) in *.
  set (s := score_to_similarity score) in *.
  eexists. split; [reflexivity|].
  destruct (100 <? PyStr.len document)%nat.
  - destruct (py_min_clamp (s + ratio * 0.1 + 0.05)) as [He Hb]; [lra|].
    split; [|split; [exact Hb | by apply round_ndigits_unit]].
    rewrite He. unfold clamp01.
    assert (E : s + ratio * 0.1 + 0.05 == s + 0.1 * ratio + 0.05) by ring.
    rewrite E. reflexivity.
  - destruct (py_min_clamp (s + ratio * 0.1)) as [He Hb]; [lra|].
    split; [|split; [exact Hb | by apply round_ndigits_unit]].
    rewrite He. unfold clamp01.
    assert (E : s + ratio * 0.1 == s + 0.1 * ratio + 0) by ring.
    rewrite E. reflexivity.
Qed.

Lemma fused_relevance_clamped_witness :
  PyStr.split_ws (PyStr.lower "What is NHD") ≠ []
  /\ exists r,
       _calculate_enhanced_relevance "What is NHD" "NHD is a dataset"
         (score_to_similarity 0.4) ∅ = Ok r
       /\ r == fused_relevance_spec (score_to_similarity 0.4) "What is NHD" "NHD is a dataset"
       /\ 0 <= r <= 1
       /\ 0 <= PyNum.round_ndigits 3 r <= 1.
Proof.
  split; [vm_compute; discriminate|].
  apply (fused_relevance_clamped "What is NHD" "NHD is a dataset" 0.4 ∅).
  vm_compute. discriminate.
Defined.

End Ranking.

(** ** Chunking: numbering and the Hybrid bound *)

Section ChunkingProps.
Context `{Digest} `{TextSplitter} `{FloatRepr}.

Lemma chunk_metadata_index md i size strategy :
  chunk_metadata_of md i size strategy !! "chunk_index" = Some (VInt (Z.of_nat i)).
Proof.
  unfold chunk_metadata_of.
  rewrite lookup_insert_ne by done. rewrite lookup_insert_ne by done.
  apply lookup_insert_eq.
Qed.

Lemma tag_hybrid_index c : chunk_index_of (tag_hybrid c) = chunk_index_of c.
Proof. unfold chunk_index_of, tag_hybrid. simpl. by rewrite lookup_insert_ne. Qed.

Lemma imap_indices {A} (f : nat -> A -> Chunk) (l : list A) (k : nat) :
  (forall i x, chunk_index_of (f i x) = Some (VInt (Z.of_nat (k + i)))) ->
  map chunk_index_of (imap f l)
  = map (fun i => Some (VInt (Z.of_nat i))) (seq k (length l)).
Proof.
  revert f k. induction l as [|x l IH]; intros f k Hf; [done|].
  simpl. rewrite Hf, Nat.add_0_r. f_equal.
  apply IH. intros i y. unfold compose. rewrite Hf. do 3 f_equal. lia.
Qed.

(** The Recursive strategy numbers its chunks 0, 1, 2, ... in emission order. *)
Lemma recursive_numbered self text md :
  numbered_in_order (recursive_chunk_text self text md).
Proof.
  unfold numbered_in_order, recursive_chunk_text, expected_indices.
  rewrite length_imap. apply imap_indices.
  intros i x. unfold chunk_index_of. simpl. apply chunk_metadata_index.
Qed.

Lemma numbered_snoc chunks c :
  numbered_in_order chunks ->
  chunk_index_of c = Some (VInt (Z.of_nat (length chunks))) ->
  numbered_in_order (chunks ++ [c]).
Proof.
  unfold numbered_in_order, expected_indices. intros Hn Hc.
  rewrite map_app, length_app, Hn. simpl.
  rewrite seq_app, map_app. simpl. by rewrite Hc.
Qed.

Lemma semantic_emit_index md i cur :
  chunk_index_of (semantic_emit md i cur) = Some (VInt (Z.of_nat i)).
Proof. apply chunk_metadata_index. Qed.

Lemma semantic_step_inv self md st p :
  sem_inv st -> sem_inv (semantic_step self md st p).
Proof.
  intros [Hn Hi]. unfold semantic_step.
  destruct (_ && _); split; simpl; try done.
  - apply numbered_snoc; [done|]. rewrite semantic_emit_index. by rewrite Hi.
  - rewrite length_app. simpl. lia.
Qed.

Lemma semantic_loop_inv self md ps st :
  sem_inv st -> sem_inv (foldl (semantic_step self md) st ps).
Proof.
  revert st. induction ps as [|p ps IH]; intros st Hst; [done|].
  simpl. apply IH. by apply semantic_step_inv.
Qed.

(** The Semantic strategy numbers its chunks 0, 1, 2, ... in emission order. *)
Lemma semantic_numbered self text md :
  numbered_in_order (semantic_chunk_text self text md).
Proof.
  unfold semantic_chunk_text.
  destruct (semantic_loop_inv self md (paragraphs_of text) (mkSemState [] EmptyString 0))
    as [Hn Hi]; [by split|].
  case_bool_decide; [|done].
  apply numbered_snoc; [done|]. rewrite semantic_emit_index. by rewrite Hi.
Qed.

Lemma hybrid_indices_three_paragraphs :
  map chunk_index_of (hybrid_chunk_text (new_HybridChunker 10 2) three_paragraphs ∅)
  = [Some (VInt 0)]
    ++ expected_indices
         (length (split_text 10 2 ("aa" +:+ para_sep +:+ "bbbbbbbbbbbbbbbbbbbb")))
    ++ [Some (VInt 2)].
Proof.
  unfold hybrid_chunk_text.
  set (sem := semantic_chunk_text _ _ _).
  assert (Hsem : map (fun c => (content c, chunk_index_of c)) sem
    = [("aaaa", Some (VInt 0));
       ("aa" +:+ para_sep +:+ "bbbbbbbbbbbbbbbbbbbb", Some (VInt 1));
       ("bb" +:+ para_sep +:+ "cc", Some (VInt 2))]) by (vm_compute; reflexivity).
  destruct sem as [|c0 [|c1 [|c2 [|]]]]; try discriminate Hsem.
  injection Hsem as Hc0 Hi0 Hc1 Hi1 Hc2 Hi2.
  assert (Hk0 : hybrid_step (new_HybridChunker 10 2) c0 = [tag_hybrid c0]).
  { unfold hybrid_step, oversized. by rewrite Hc0. }
  assert (Hk2 : hybrid_step (new_HybridChunker 10 2) c2 = [tag_hybrid c2]).
  { unfold hybrid_step, oversized. by rewrite Hc2. }
  assert (Hk1 : hybrid_step (new_HybridChunker 10 2) c1
                = map tag_hybrid
                    (recursive_chunk_text (mkRecursiveChunker 10 2) (content c1) (metadata c1))).
  { unfold hybrid_step, oversized. by rewrite Hc1. }
  simpl. rewrite Hk0, Hk1, Hk2, app_nil_r. simpl.
  rewrite map_app, map_map. simpl.
  rewrite !tag_hybrid_index, Hi0, Hi2. do 2 f_equal.
  rewrite (map_ext _ chunk_index_of) by (intros c; apply tag_hybrid_index).
  pose proof (recursive_numbered (mkRecursiveChunker 10 2) (content c1) (metadata c1)) as Hn.
  unfold numbered_in_order in Hn. rewrite Hn. f_equal.
  unfold recursive_chunk_text. rewrite length_imap. simpl. by rewrite Hc1.
Qed.

(** C2, at the failing input. With [chunk_size = 10] and [chunk_overlap = 2],
    the Hybrid strategy on three paragraphs of 4, 20 and 2 characters does
    not number its chunks in emission order, whatever the library splitter
    returns: the middle Semantic chunk is re-split and its pieces are
    numbered from 0 again, after the chunk numbered 0 and before the chunk
    numbered 2. Either the re-split yields nothing and the indices are 0, 2,
    or index 0 is given twice in a row. *)
Theorem hybrid_numbering_restarts :
  ~ numbered_in_order (hybrid_chunk_text (new_HybridChunker 10 2) three_paragraphs ∅)
  /\ (map chunk_index_of (hybrid_chunk_text (new_HybridChunker 10 2) three_paragraphs ∅)
      = [Some (VInt 0); Some (VInt 2)]
      \/ exists rest,
           map chunk_index_of (hybrid_chunk_text (new_HybridChunker 10 2) three_paragraphs ∅)
           = Some (VInt 0) :: Some (VInt 0) :: rest).
Proof.
  pose proof hybrid_indices_three_paragraphs as Hidx.
  unfold numbered_in_order.
  rewrite <- (length_map chunk_index_of), Hidx.
  destruct (split_text 10 2 _) as [|p ps]; simpl.
  - split; [discriminate | by left].
  - split; [discriminate | right; eauto].
Qed.

Lemma recursive_contents self text md :
  map content (recursive_chunk_text self text md)
  = split_text (rc_chunk_size self) (rc_chunk_overlap self) text.
Proof.
  unfold recursive_chunk_text.
  generalize (split_text (rc_chunk_size self) (rc_chunk_overlap self) text) as l.
  intros l.
  assert (G : forall (f : nat -> string -> Chunk),
             (forall i x, content (f i x) = x) -> map content (imap f l) = l).
  { induction l as [|x l IH]; intros f Hf; [done|]. simpl. rewrite Hf. f_equal.
    apply IH. intros i y. apply Hf. }
  by apply G.
Qed.

Lemma hybrid_step_contents chunk_size chunk_overlap c :
  map content (hybrid_step (new_HybridChunker chunk_size chunk_overlap) c)
  = hybrid_contents_of chunk_size chunk_overlap c.
Proof.
  unfold hybrid_step, hybrid_contents_of, oversized. simpl.
  destruct (Qlt_le_dec _ _) as [Hlt|Hle].
  - destruct (Qle_bool _ _) eqn:E.
    + apply Qle_bool_iff in E. lra.
    + simpl. rewrite map_map. simpl.
      change (map (fun x => content x)) with (map content).
      apply recursive_contents.
  - destruct (Qle_bool _ _) eqn:E; [done|].
    assert (Qle_bool (PyNum.of_nat (String.length (content c)))
                     (PyNum.of_nat chunk_size * 1.5) = true); [|congruence].
    apply Qle_bool_iff. lra.
Qed.

(** C7. When the library splitter keeps its pieces within [chunk_size], every
    chunk the Hybrid strategy emits has [len(content) <= 1.5 * chunk_size]:
    a Semantic chunk longer than that is replaced by the splitter's pieces of
    its content, every other Semantic chunk keeps its content. *)
Theorem hybrid_chunks_bounded
    (chunk_size chunk_overlap : nat) (text : string) (md : gmap string value) :
  (forall t, Forall (fun p => (PyStr.len p <= chunk_size)%nat)
                    (split_text chunk_size chunk_overlap t)) ->
  Forall (within_hybrid_bound chunk_size)
         (hybrid_chunk_text (new_HybridChunker chunk_size chunk_overlap) text md)
  /\ map content (hybrid_chunk_text (new_HybridChunker chunk_size chunk_overlap) text md)
     = concat (map (hybrid_contents_of chunk_size chunk_overlap)
                   (semantic_chunk_text (mkSemanticChunker chunk_size chunk_overlap)
                                        text md)).
Proof.
  intros Hsplit.
  assert (Hmap :
    map content (hybrid_chunk_text (new_HybridChunker chunk_size chunk_overlap) text md)
    = concat (map (hybrid_contents_of chunk_size chunk_overlap)
                  (semantic_chunk_text (mkSemanticChunker chunk_size chunk_overlap)
                                       text md))).
  { unfold hybrid_chunk_text. simpl.
    induction (semantic_chunk_text _ text md) as [|c l IH]; [done|].
    simpl. rewrite map_app, IH. f_equal. apply hybrid_step_contents. }
  split; [|exact Hmap].
  assert (Hc : Forall (fun s => (PyNum.of_nat (PyStr.len s)
                                 <= 1.5 * PyNum.of_nat chunk_size)%Q)
    (map content
         (hybrid_chunk_text (new_HybridChunker chunk_size chunk_overlap) text md))).
  { rewrite Hmap. apply Forall_concat. apply Forall_map. apply Forall_forall.
    intros c _. unfold hybrid_contents_of.
    destruct (Qlt_le_dec _ _) as [Hlt|Hle].
    - eapply Forall_impl; [apply Hsplit|]. intros p Hp. simpl in *.
      apply of_nat_le in Hp. pose proof (of_nat_nonneg chunk_size). lra.
    - by constructor. }
  rewrite List.Forall_forall in Hc. apply List.Forall_forall.
  intros c Hin. apply (Hc (content c)). by apply in_map.
Qed.

End ChunkingProps.

Lemma windows_bound fuel size step s :
  Forall (fun p => (PyStr.len p <= size)%nat) (windows fuel size step s).
Proof.
  revert s. induction fuel as [|fuel IH]; intros s; simpl; [constructor|].
  destruct (PyStr.len s <=? size)%nat eqn:E.
  - case_bool_decide; constructor; [|constructor]. by apply Nat.leb_le.
  - constructor; [apply take_len | apply IH].
Qed.

Lemma hybrid_chunks_bounded_witness :
  (forall t, Forall (fun p => (PyStr.len p <= 10)%nat)
                    (@split_text window_splitter 10 2 t))
  /\ Forall (within_hybrid_bound 10)
       (@hybrid_chunk_text plain_digest window_splitter plain_float_repr
          (new_HybridChunker 10 2) three_paragraphs ∅).
Proof.
  split.
  - intros t. apply windows_bound.
  - apply (@hybrid_chunks_bounded plain_digest window_splitter plain_float_repr
             10 2 three_paragraphs ∅).
    intros t. apply windows_bound.
Defined.

(** ** Deduplication *)

Section Dedup.
Context `{Digest}.

Lemma is_duplicate_answer {T} (self : DocumentProcessor T) text :
  fst (is_duplicate self text)
  = bool_decide (generate_content_hash text ∈ processed_hashes self).
Proof. unfold is_duplicate. by case_bool_decide. Qed.

Lemma is_duplicate_records {T} (self : DocumentProcessor T) text :
  processed_hashes (snd (is_duplicate self text))
  = {[generate_content_hash text]} ∪ processed_hashes self.
Proof.
  unfold is_duplicate. case_bool_decide; simpl; [|done].
  set_solver.
Qed.

Lemma is_duplicate_calls_hashes {T} (texts : list string) (self : DocumentProcessor T) :
  processed_hashes (snd (is_duplicate_calls self texts))
  = list_to_set (generate_content_hash <$> texts) ∪ processed_hashes self.
Proof.
  revert self. induction texts as [|t texts IH]; intros self; simpl.
  - set_solver.
  - pose proof (is_duplicate_records self t) as Hrec.
    destruct (is_duplicate self t) as [b self1]. simpl in Hrec.
    specialize (IH self1).
    destruct (is_duplicate_calls self1 texts) as [bs self2]. simpl in *.
    rewrite IH, Hrec. set_solver.
Qed.

(** The answer of the [i]-th call: the hash was in the set at the start or
    is the hash of an earlier call. *)
Lemma is_duplicate_calls_answer {T} (texts : list string) (self : DocumentProcessor T)
    (i : nat) (text : string) :
  texts !! i = Some text ->
  fst (is_duplicate_calls self texts) !! i
  = Some (bool_decide
            (generate_content_hash text ∈ processed_hashes self
             ∨ generate_content_hash text ∈ generate_content_hash <$> take i texts)).
Proof.
  revert self i. induction texts as [|t texts IH]; intros self i Hi; [done|].
  simpl.
  pose proof (is_duplicate_answer self t) as Hans.
  pose proof (is_duplicate_records self t) as Hrec.
  destruct (is_duplicate self t) as [b self1]. simpl in Hans, Hrec.
  destruct i as [|i]; simpl in Hi.
  - injection Hi as ->. specialize (IH self1).
    destruct (is_duplicate_calls self1 texts) as [bs self2]. simpl.
    f_equal. rewrite Hans. apply bool_decide_ext. simpl. set_solver.
  - specialize (IH self1 i Hi).
    destruct (is_duplicate_calls self1 texts) as [bs self2]. simpl in *.
    rewrite IH. f_equal. apply bool_decide_ext. rewrite Hrec.
    set_solver.
Qed.

(** C8. On a fresh processor and over any sequence of calls of
    [is_duplicate], the call at position [i] answers true exactly when its
    content was passed by an earlier call of the sequence: false for the
    first call with a content, true for every later call with it. The hash
    of the content is in [processed_hashes] afterwards. The earlier contents
    are taken not to collide with this one under SHA-256. *)
Theorem is_duplicate_once_per_content {T} (strategy : T)
    (texts : list string) (i : nat) (text : string) :
  texts !! i = Some text ->
  (forall other, other ∈ take i texts ->
     generate_content_hash other = generate_content_hash text -> other = text) ->
  fst (is_duplicate_calls (new_DocumentProcessor strategy) texts) !! i
  = Some (bool_decide (text ∈ take i texts))
  /\ generate_content_hash text
     ∈ processed_hashes (snd (is_duplicate_calls (new_DocumentProcessor strategy) texts)).
Proof.
  intros Hi Hinj. split.
  - rewrite (is_duplicate_calls_answer _ _ _ _ Hi). f_equal.
    apply bool_decide_ext. simpl. split.
    + intros [Hin|Hin]; [set_solver|].
      apply list_elem_of_fmap in Hin as (other & Heq & Hin).
      by rewrite (Hinj other Hin (eq_sym Heq)) in Hin.
    + intros Hin. right. by apply list_elem_of_fmap_2.
  - rewrite is_duplicate_calls_hashes.
    apply elem_of_union_l, elem_of_list_to_set, list_elem_of_fmap_2.
    by eapply list_elem_of_lookup_2.
Qed.

End Dedup.

(** Five calls with the contents a, b, a, c, b: the third call is the second
    one with a, and it answers true. *)
Lemma is_duplicate_once_per_content_witness :
  ["a"; "b"; "a"; "c"; "b"] !! 2%nat = Some "a"
  /\ (forall other : string, other ∈ take 2 ["a"; "b"; "a"; "c"; "b"] ->
        @generate_content_hash plain_digest other = @generate_content_hash plain_digest "a" ->
        other = "a")
  /\ fst (@is_duplicate_calls plain_digest _ (new_DocumentProcessor tt)
            ["a"; "b"; "a"; "c"; "b"]) !! 2%nat = Some true.
Proof.
  split; [reflexivity|]. split; [intros other _ E; exact E|].
  destruct (@is_duplicate_once_per_content plain_digest unit tt
              ["a"; "b"; "a"; "c"; "b"] 2 "a") as [Hans _].
  - reflexivity.
  - intros other _ E. exact E.
  - rewrite Hans. f_equal.
Defined.

(** ** The orchestrator: retries, the degraded answer, the cache *)

Section ServiceProps.
Import LLMService.
Context `{Digest} `{Retriever} `{Backend} `{Settings}.

(** One failed attempt that is not the last: the loop sleeps one second and
    goes on with the next attempt. *)
Lemma retry_loop_failure todo attempt max_retries prompt w e d :
  llm (llm_calls w) prompt = (Raised e, d) ->
  attempt ≠ max_retries ->
  retry_loop (S todo) attempt max_retries prompt w
  = retry_loop todo (attempt + 1) max_retries prompt
      (sleep 1 (mkWorld (now w + d)%Q (llm_calls w + 1)
                        (trace w ++ [EvLLM prompt (Raised e)]))).
Proof.
  intros Hllm Hne. simpl. unfold call_llm. rewrite Hllm.
  by apply Nat.eqb_neq in Hne as ->.
Qed.

(** The last attempt fails: its exception is raised, with no sleep after it. *)
Lemma retry_loop_last_failure todo max_retries prompt w e d :
  llm (llm_calls w) prompt = (Raised e, d) ->
  retry_loop (S todo) max_retries max_retries prompt w
  = (Raised e, mkWorld (now w + d)%Q (llm_calls w + 1)
                       (trace w ++ [EvLLM prompt (Raised e)])).
Proof.
  intros Hllm. simpl. unfold call_llm. rewrite Hllm.
  by rewrite Nat.eqb_refl.
Qed.

(** An attempt that succeeds ends the loop with its answer. *)
Lemma retry_loop_success todo attempt max_retries prompt w answer d :
  llm (llm_calls w) prompt = (Ok answer, d) ->
  retry_loop (S todo) attempt max_retries prompt w
  = (Ok (Some answer), mkWorld (now w + d)%Q (llm_calls w + 1)
                               (trace w ++ [EvLLM prompt (Ok answer)])).
Proof. intros Hllm. simpl. unfold call_llm. by rewrite Hllm. Qed.

(** The loop never runs out: with [max_retries + 1] turns from attempt 0, the
    function returns an answer or raises. *)
Lemma retry_loop_returns todo attempt max_retries prompt w :
  attempt + todo = S max_retries -> (0 < todo)%nat ->
  fst (retry_loop todo attempt max_retries prompt w) ≠ Ok None.
Proof.
  revert attempt w. induction todo as [|todo IH]; intros attempt w Hsum Hpos; [lia|].
  simpl. destruct (call_llm prompt w) as [[answer|e] w1]; [done|].
  destruct (Nat.eqb_spec attempt max_retries) as [->|Hne]; [done|].
  apply IH; lia.
Qed.

Lemma _call_llm_with_retry_returns prompt max_retries w :
  fst (_call_llm_with_retry prompt max_retries w) ≠ Ok None.
Proof. apply retry_loop_returns; lia. Qed.

(** Three failures in a row: three calls with one-second sleeps in between,
    and the third exception is the one raised. *)
Lemma _call_llm_with_retry_exhausted prompt w e0 e1 e2 d0 d1 d2 :
  llm (llm_calls w) prompt = (Raised e0, d0) ->
  llm (llm_calls w + 1) prompt = (Raised e1, d1) ->
  llm (llm_calls w + 2) prompt = (Raised e2, d2) ->
  _call_llm_with_retry prompt 2 w
  = (Raised e2,
     mkWorld (now w + d0 + 1 + d1 + 1 + d2)%Q (llm_calls w + 3)
       (trace w ++ [EvLLM prompt (Raised e0); EvSleep 1;
                    EvLLM prompt (Raised e1); EvSleep 1;
                    EvLLM prompt (Raised e2)])).
Proof.
  intros H0' H1' H2'. unfold _call_llm_with_retry.
  change (2 + 1)%nat with 3%nat.
  rewrite (retry_loop_failure _ _ _ _ _ _ _ H0') by lia.
  rewrite (retry_loop_failure _ _ _ _ _ e1 d1) by (simpl; done || lia).
  rewrite (retry_loop_last_failure _ _ _ _ e2 d2).
  - simpl. f_equal. f_equal; [lia|].
    rewrite <- !app_assoc. reflexivity.
  - simpl. rewrite <- H2'. f_equal. lia.
Qed.

(** C9, amended. When the index returned documents and the three backend
    calls of a query all fail, the backend was called three times with a
    one-second sleep after the first and after the second failure, and the
    query returns, without raising, the degraded answer: its confidence is
    0.5 and its sources are the first three retrieved documents, formatted. *)
Theorem generation_failure_degrades
    (question : string) (w : World) (e0 e1 e2 : exn) (d0 d1 d2 : Q) :
  retrieve question 7 ≠ [] ->
  llm (llm_calls w) (prompt_of question) = (Raised e0, d0) ->
  llm (llm_calls w + 1) (prompt_of question) = (Raised e1, d1) ->
  llm (llm_calls w + 2) (prompt_of question) = (Raised e2, d2) ->
  exists a w',
    _process_query question w = (Ok a, w')
    /\ trace w' = trace w ++ [EvLLM (prompt_of question) (Raised e0); EvSleep 1;
                              EvLLM (prompt_of question) (Raised e1); EvSleep 1;
                              EvLLM (prompt_of question) (Raised e2)]
    /\ llm_calls w' = llm_calls w + 3
    /\ confidence a = Some 0.5%Q
    /\ source_documents a = _format_source_documents (firstn 3 (retrieve question 7))
    /\ response a
       = "I found relevant documents but encountered an issue processing them. Please try again. Error: "
         +:+ e2
    /\ error a = None.
Proof.
  intros Hdocs H0' H1' H2'. unfold _process_query.
  destruct (retrieve question 7) as [|doc docs] eqn:Hret; [done|].
  fold (prompt_of question) in *.
  assert (Hp : _create_optimized_prompt question
                 (PyStr.join (nl +:+ nl) (assemble_contexts (doc :: docs)))
               = prompt_of question).
  { unfold prompt_of. by rewrite Hret. }
  rewrite Hp.
  rewrite (_call_llm_with_retry_exhausted _ _ _ _ _ _ _ _ H0' H1' H2').
  eexists _, _. split; [reflexivity|]. simpl. repeat split; reflexivity.
Qed.

(** [_get_cached_response] reports a miss whatever the cache holds. *)
Lemma _get_cached_response_miss (self : Service) (cache_key : string) :
  _get_cached_response self cache_key = None.
Proof. reflexivity. Qed.

(** What a query returns does not depend on what the cache holds. *)
Lemma get_response_ignores_cache (self : Service) question timeout w :
  (get_response self question timeout w).1.1
  = (get_response service0 question timeout w).1.1
  /\ (get_response self question timeout w).2
     = (get_response service0 question timeout w).2.
Proof.
  unfold get_response. rewrite !_get_cached_response_miss.
  destruct (_process_query question w) as [[r|e] w1];
    destruct (Qle_bool _ _); done.
Qed.

End ServiceProps.

Lemma generation_failure_degrades_witness :
  @retrieve four_hits_store "What is NHD?" 7 ≠ []
  /\ @llm failing_backend (llm_calls world0) (@prompt_of four_hits_store "What is NHD?")
     = (Raised "connection refused", 2%Q)
  /\ exists a w',
       @LLMService._process_query four_hits_store failing_backend "What is NHD?" world0
       = (Ok a, w')
       /\ llm_calls w' = 3
       /\ confidence a = Some 0.5%Q.
Proof.
  split; [vm_compute; discriminate|]. split; [reflexivity|].
  destruct (@generation_failure_degrades four_hits_store failing_backend
              "What is NHD?" world0
              "connection refused" "connection refused" "connection refused"
              2%Q 2%Q 2%Q)
    as (a & w' & Hrun & _ & Hcalls & Hconf & _);
    [vm_compute; discriminate | reflexivity | reflexivity | reflexivity |].
  exists a, w'. split; [exact Hrun|]. split; [exact Hcalls | exact Hconf].
Defined.

(** C9, as stated, fails when more than three documents were retrieved: of
    four retrieved documents the degraded answer carries three. *)
Lemma degraded_answer_omits_fourth_source :
  match @LLMService._process_query four_hits_store failing_backend "What is NHD?" world0 with
  | (Ok a, _) =>
      length (@retrieve four_hits_store "What is NHD?" 7) = 4
      /\ length (source_documents a) = 3
      /\ source_documents a
         ≠ LLMService._format_source_documents (@retrieve four_hits_store "What is NHD?" 7)
  | (Raised _, _) => False
  end.
Proof.
  assert (Hlen :
    match fst (@LLMService._process_query four_hits_store failing_backend
                 "What is NHD?" world0) with
    | Ok a => length (source_documents a)
    | Raised _ => 0
    end = 3) by (vm_compute; reflexivity).
  destruct (@LLMService._process_query four_hits_store failing_backend "What is NHD?" world0)
    as [[a|e] w']; simpl in Hlen; [|discriminate Hlen].
  split; [vm_compute; reflexivity|]. split; [exact Hlen|].
  intros E. apply (f_equal length) in E. rewrite Hlen in E.
  vm_compute in E. discriminate E.
Qed.

(** C1, at the failing input. A first [get_response] for a question stores
    its answer under the question's key; a second [get_response] for the same
    question, started at the very time the entry was stored, finds the entry
    in the cache, is told a miss by [_get_cached_response], calls the backend
    again and returns another answer, marked as not cached. *)
Theorem cached_answer_not_served :
  let '(a1, s1, w1) :=
    @LLMService.get_response plain_digest four_hits_store counting_backend llama2_settings
      service0 "What is NHD?" None world0 in
  let '(a2, s2, w2) :=
    @LLMService.get_response plain_digest four_hits_store counting_backend llama2_settings
      s1 "What is NHD?" None w1 in
  response_cache s1 !! @LLMService._generate_cache_key plain_digest "What is NHD?"
  = Some (a1, now w1)
  /\ LLMService._get_cached_response s1
       (@LLMService._generate_cache_key plain_digest "What is NHD?") = None
  /\ llm_calls w1 = 1 /\ llm_calls w2 = 2
  /\ response a1 = "answer 0" /\ response a2 = "answer 1"
  /\ cached a2 = Some false.
Proof. vm_compute. repeat split; reflexivity. Qed.

(** ** Context assembly *)

Section Assembly.
Import LLMService.

Lemma add_sentences_spec (limit : Z) (truncated : string) (sentences : list string) :
  exists k,
    k <= length sentences
    /\ add_sentences limit truncated sentences
       = truncated +:+ unsplit ". " (take k sentences)
    /\ (k < length sentences ->
        (limit < Z.of_nat (PyStr.len (truncated +:+ unsplit ". " (take (S k) sentences))))%Z)
    /\ ((Z.of_nat (PyStr.len truncated) <= limit)%Z ->
        (Z.of_nat (PyStr.len (add_sentences limit truncated sentences)) <= limit)%Z).
Proof.
  revert truncated. induction sentences as [|s ss IH]; intros truncated.
  - exists 0. simpl. rewrite app_empty_r. repeat split; [lia | lia | done].
  - cbn [add_sentences].
    destruct (Z.leb_spec (Z.of_nat (PyStr.len (truncated +:+ s +:+ ". "))) limit) as [Hfit|Hno].
    + destruct (IH (truncated +:+ s +:+ ". ")) as (k & Hk & Heq & Hmax & Hlen).
      exists (S k). cbn [take firstn unsplit length].
      rewrite Heq. rewrite !app_assoc_str.
      repeat split; [lia | | ].
      * intros Hlt. specialize (Hmax ltac:(lia)).
        cbn [take firstn unsplit] in Hmax. by rewrite !app_assoc_str in Hmax.
      * intros _. specialize (Hlen Hfit). rewrite Heq in Hlen.
        by rewrite !app_assoc_str in Hlen.
    + exists 0. cbn [take firstn unsplit length]. rewrite app_empty_r.
      repeat split; [lia | | done].
      intros _. by rewrite app_empty_r.
Qed.

Lemma truncate_overflow (text : string) (m : nat) :
  m < PyStr.len text -> 3 <= m ->
  exists k cut,
    _intelligent_truncate text m = cut +:+ "..."
    /\ PyStr.len (cut +:+ "...") <= m
    /\ PyStr.len (whole_sentences k text) <= m - 3
    /\ m - 3 < PyStr.len (whole_sentences (S k) text)
    /\ is_prefix (whole_sentences k text) text
    /\ cut = match k with
             | O => PyStr.take (m - 3) text
             | S _ => PyStr.strip (whole_sentences k text)
             end.
Proof.
  intros Hlong Hm. unfold _intelligent_truncate, whole_sentences.
  destruct (Nat.leb_spec (PyStr.len text) m) as [Hle|_]; [lia|].
  assert (Hall : unsplit ". " (PyStr.split ". " text) = text +:+ ". ")
    by (by apply unsplit_split).
  generalize dependent (PyStr.split ". " text). intros ss Hall.
  destruct (add_sentences_spec (Z.of_nat m - 3) EmptyString ss)
    as (k & Hk & Heq & Hmax & Hlen).
  rewrite app_empty in Heq. specialize (Hlen ltac:(simpl; lia)). rewrite Heq in Hlen.
  assert (Hklt : k < length ss).
  { destruct (decide (k = length ss)) as [->|]; [|lia].
    rewrite firstn_all, Hall, len_app in Hlen. simpl in Hlen. lia. }
  specialize (Hmax Hklt). rewrite app_empty in Hmax.
  assert (Hpre : is_prefix (unsplit ". " (take k ss)) text).
  { apply (prefix_of_longer _ (unsplit ". " (drop k ss)) _ ". "); [|len_lia].
    by rewrite <- unsplit_app, take_drop. }
  rewrite Heq.
  exists k. destruct k as [|k].
  - exists (PyStr.take (m - 3) text). simpl.
    unfold slice_to. destruct (Z.ltb_spec (Z.of_nat m - 3) 0) as [Hneg|_]; [lia|].
    replace (Z.to_nat (Z.of_nat m - 3)) with (m - 3) by lia.
    split; [done|]. split.
    { rewrite len_app, take_len_exact by lia. change (String.length "...") with 3. lia. }
    split; [lia|]. split; [len_lia|].
    split; [exact Hpre | done].
  - exists (PyStr.strip (unsplit ". " (take (S k) ss))).
    destruct ss as [|x ss']; [simpl in Hklt; lia|].
    cbn [take firstn] in *. case_bool_decide as Hne.
    2:{ exfalso. by apply (unsplit_nonempty ". " x (take k ss')). }
    split; [done|]. split.
    { rewrite len_app. pose proof (strip_len (unsplit ". " (x :: take k ss'))) as Hs.
      change (String.length "...") with 3. len_lia. }
    split; [len_lia|]. split; [len_lia|].
    split; [exact Hpre | done].
Qed.

Lemma assemble_skip budget i doc rest contexts total :
  doc_text doc = EmptyString ->
  assemble_from budget i (doc :: rest) contexts total
  = assemble_from budget (i + 1) rest contexts total.
Proof.
  unfold doc_text. intros Ht. cbn [assemble_from].
  destruct (doc_fields doc) as [[text md]|]; [|done].
  subst text. by rewrite bool_decide_eq_true_2.
Qed.

Lemma assemble_fit budget i doc rest contexts total :
  doc_text doc ≠ EmptyString ->
  total + PyStr.len (doc_text doc) <= budget ->
  assemble_from budget i (doc :: rest) contexts total
  = assemble_from budget (i + 1) rest
      (contexts ++ [source_entry i (doc_text doc)])
      (total + PyStr.len (doc_text doc)).
Proof.
  unfold doc_text. intros Ht Hfit. cbn [assemble_from].
  destruct (doc_fields doc) as [[text md]|]; [|done].
  rewrite bool_decide_eq_false_2 by done.
  destruct (Nat.ltb_spec budget (total + String.length text)); [lia | done].
Qed.

Lemma assemble_overflow budget i doc rest contexts total :
  doc_text doc ≠ EmptyString ->
  budget < total + PyStr.len (doc_text doc) ->
  assemble_from budget i (doc :: rest) contexts total
  = contexts
    ++ (if (200 <? budget - total)
        then [source_entry i (_intelligent_truncate (doc_text doc) (budget - total))]
        else []).
Proof.
  unfold doc_text. intros Ht Hover. cbn [assemble_from].
  destruct (doc_fields doc) as [[text md]|]; [|done].
  rewrite bool_decide_eq_false_2 by done.
  destruct (Nat.ltb_spec budget (total + String.length text)); [|lia].
  destruct (200 <? budget - total); [done | by rewrite app_nil_r].
Qed.

Lemma assemble_prefix budget pre rest i contexts total :
  total + total_len pre <= budget ->
  assemble_from budget i (pre ++ rest) contexts total
  = assemble_from budget (i + length pre) rest
      (contexts ++ plain_entries i pre) (total + total_len pre).
Proof.
  revert i contexts total. induction pre as [|doc pre IH]; intros i contexts total Hfit.
  - simpl. by rewrite app_nil_r, !Nat.add_0_r.
  - cbn [total_len plain_entries length app] in *.
    destruct (decide (doc_text doc = EmptyString)) as [He|Hne].
    + rewrite assemble_skip by done. rewrite IH by (rewrite He in Hfit; simpl in Hfit; lia).
      rewrite He. simpl. f_equal; lia.
    + rewrite assemble_fit by (done || lia). rewrite IH by lia.
      rewrite bool_decide_eq_false_2 by done. rewrite <- app_assoc. simpl.
      f_equal; lia.
Qed.

(** Documents that fit the budget together are all appended, in rank order. *)
Lemma assemble_all_fit (docs : list RetrievedDoc) :
  total_len docs <= max_context_chars ->
  assemble_contexts docs = plain_entries 0 docs.
Proof.
  intros Hfit. unfold assemble_contexts.
  rewrite <- (app_nil_r docs) at 1. rewrite assemble_prefix by lia. done.
Qed.

(** C5, amended. Contents are appended in rank order while they fit the
    budget of 3000 characters. At the first content that would overflow it,
    assembly stops, whatever follows: with 200 characters of budget or fewer
    left the content is left out; with more left it is included truncated to
    the budget left, as the longest run of its first whole sentences (split
    on '. ') that fits with three characters to spare, stripped, or, when
    not even the first sentence fits, as its first characters, and "..." is
    appended. *)
Theorem context_assembly_stops_at_overflow
    (pre : list RetrievedDoc) (doc : RetrievedDoc) (rest : list RetrievedDoc) :
  total_len pre <= max_context_chars ->
  doc_text doc ≠ EmptyString ->
  max_context_chars < total_len pre + PyStr.len (doc_text doc) ->
  (max_context_chars - total_len pre <= 200 ->
   assemble_contexts (pre ++ doc :: rest) = plain_entries 0 pre)
  /\ (200 < max_context_chars - total_len pre ->
      exists k cut,
        assemble_contexts (pre ++ doc :: rest)
        = plain_entries 0 pre ++ [source_entry (length pre) (cut +:+ "...")]
        /\ PyStr.len (cut +:+ "...") <= max_context_chars - total_len pre
        /\ PyStr.len (whole_sentences k (doc_text doc))
           <= max_context_chars - total_len pre - 3
        /\ max_context_chars - total_len pre - 3
           < PyStr.len (whole_sentences (S k) (doc_text doc))
        /\ is_prefix (whole_sentences k (doc_text doc)) (doc_text doc)
        /\ cut = match k with
                 | O => PyStr.take (max_context_chars - total_len pre - 3) (doc_text doc)
                 | S _ => PyStr.strip (whole_sentences k (doc_text doc))
                 end).
Proof.
  intros Hpre Hne Hover. unfold assemble_contexts.
  rewrite assemble_prefix by lia. rewrite !Nat.add_0_l, app_nil_l.
  rewrite assemble_overflow by (done || lia).
  split.
  - intros Hsmall. destruct (Nat.ltb_spec 200 (max_context_chars - total_len pre)); [lia|].
    by rewrite app_nil_r.
  - intros Hroom. destruct (Nat.ltb_spec 200 (max_context_chars - total_len pre)); [|lia].
    destruct (truncate_overflow (doc_text doc) (max_context_chars - total_len pre))
      as (k & cut & Heq & Hlen & Hk & Hmax & Hpref & Hcut); [lia | lia |].
    exists k, cut. rewrite Heq. done.
Qed.

(** C5, as stated, fails when little budget is left: after a content of 2900
    characters, a content of 200 characters would overflow the budget of
    3000; it is not truncated and included, it is left out, and assembly
    stops there. *)
Lemma overflowing_chunk_left_out :
  max_context_chars < 2900 + PyStr.len (repeat_str 200 "y")
  /\ assemble_contexts
       [text_doc (repeat_str 2900 "x"); text_doc (repeat_str 200 "y");
        text_doc (repeat_str 50 "z")]
     = ["Source 1: " +:+ repeat_str 2900 "x"].
Proof. split; [apply Nat.ltb_lt|]; vm_compute; reflexivity. Qed.

(** After 2700 characters, a content of 40 sentences of 13 characters each:
    300 characters are left, and the content is included truncated. *)
Lemma context_assembly_stops_at_overflow_witness :
  total_len [text_doc (repeat_str 2700 "x")] <= max_context_chars
  /\ doc_text (text_doc (repeat_str 40 "Water flows. ")) ≠ EmptyString
  /\ max_context_chars
     < total_len [text_doc (repeat_str 2700 "x")]
       + PyStr.len (doc_text (text_doc (repeat_str 40 "Water flows. ")))
  /\ 200 < max_context_chars - total_len [text_doc (repeat_str 2700 "x")]
  /\ exists cut,
       assemble_contexts
         ([text_doc (repeat_str 2700 "x")]
          ++ text_doc (repeat_str 40 "Water flows. ") :: [text_doc "The end."])
       = plain_entries 0 [text_doc (repeat_str 2700 "x")]
         ++ [source_entry 1 (cut +:+ "...")]
       /\ PyStr.len (cut +:+ "...")
          <= max_context_chars - total_len [text_doc (repeat_str 2700 "x")].
Proof.
  assert (H1 : total_len [text_doc (repeat_str 2700 "x")] <= max_context_chars)
    by (apply Nat.leb_le; vm_compute; reflexivity).
  assert (H2 : doc_text (text_doc (repeat_str 40 "Water flows. ")) ≠ EmptyString)
    by (vm_compute; discriminate).
  assert (H3 : max_context_chars
               < total_len [text_doc (repeat_str 2700 "x")]
                 + PyStr.len (doc_text (text_doc (repeat_str 40 "Water flows. "))))
    by (apply Nat.ltb_lt; vm_compute; reflexivity).
  assert (H4 : 200 < max_context_chars - total_len [text_doc (repeat_str 2700 "x")])
    by (apply Nat.ltb_lt; vm_compute; reflexivity).
  repeat (split; [assumption|]).
  destruct (context_assembly_stops_at_overflow
              [text_doc (repeat_str 2700 "x")]
              (text_doc (repeat_str 40 "Water flows. "))
              [text_doc "The end."] H1 H2 H3) as [_ Hroom].
  destruct (Hroom H4) as (k & cut & Heq & Hlen & _).
  exists cut. split; [exact Heq | exact Hlen].
Defined.

End Assembly.

(** ** Query normalization *)

Section Normalization.
Import VectorStore.

Lemma contains_empty_hay n : n ≠ EmptyString -> PyStr.contains n EmptyString = false.
Proof. by destruct n. Qed.

Section Expansion.
Variable table : list (string * string).
Hypothesis abbrev_ok :
  forall a e, (a, e) ∈ table -> a ≠ EmptyString /\ space_free a = true.
Hypothesis expansion_ok :
  forall a e, (a, e) ∈ table -> tidy_at true e = true.
Hypothesis abbrev_not_in_expansion :
  forall a e a' e', (a, e) ∈ table -> (a', e') ∈ table -> PyStr.contains a e' = false.

Lemma expand_step_keeps x q item :
  PyStr.contains x q = true -> PyStr.contains x (expand_step q item) = true.
Proof.
  intros Hx. destruct item as [a e]. unfold expand_step.
  destruct (_ && _); [by apply contains_app_l | done].
Qed.

Lemma expand_fold_keeps x l q :
  PyStr.contains x q = true -> PyStr.contains x (foldl expand_step q l) = true.
Proof.
  revert q. induction l as [|item l IH]; intros q Hx; [done|].
  simpl. apply IH. by apply expand_step_keeps.
Qed.

Lemma expand_step_abbrev a e a' e' q :
  (a, e) ∈ table -> (a', e') ∈ table ->
  PyStr.contains a (expand_step q (a', e')) = PyStr.contains a q.
Proof.
  intros Ha Ha'. unfold expand_step. destruct (_ && _); [|done].
  destruct (PyStr.contains a q) eqn:Hq; [by apply contains_app_l|].
  destruct (PyStr.contains a (q +:+ " " +:+ e')) eqn:Hc; [|done].
  apply contains_across_space in Hc; [|by apply (abbrev_ok a e)].
  destruct Hc as [Hc|Hc]; [congruence|].
  by rewrite (abbrev_not_in_expansion a e a' e') in Hc.
Qed.

Lemma expand_fold_abbrev a e l q :
  (a, e) ∈ table -> l ⊆ table ->
  PyStr.contains a (foldl expand_step q l) = PyStr.contains a q.
Proof.
  intros Ha. revert q. induction l as [|[a' e'] l IH]; intros q Hl; [done|].
  simpl. rewrite IH by set_solver.
  apply (expand_step_abbrev a e); [done | set_solver].
Qed.

Lemma expand_fold_expands a e l q :
  l ⊆ table -> (a, e) ∈ l ->
  PyStr.contains a q = true -> PyStr.contains e (foldl expand_step q l) = true.
Proof.
  revert q. induction l as [|[a' e'] l IH]; intros q Hl Hin Hq.
  - by apply elem_of_nil in Hin.
  - cbn [foldl]. apply elem_of_cons in Hin as [Heq|Hin].
    + injection Heq as <- <-. apply expand_fold_keeps.
      unfold expand_step. rewrite Hq. simpl.
      destruct (PyStr.contains e q) eqn:He; simpl; [done|].
      apply contains_app_r. change (" " +:+ e) with (String " " e).
      cbn [PyStr.contains]. rewrite contains_refl. apply orb_true_r.
    + apply IH; [set_solver | done |].
      rewrite (expand_step_abbrev a e); [done | set_solver | set_solver].
Qed.

Lemma expand_step_tidy a e q :
  (a, e) ∈ table -> tidy q = true -> tidy (expand_step q (a, e)) = true.
Proof.
  intros Ha Hq. unfold expand_step.
  destruct (PyStr.contains a q) eqn:Hc; simpl; [|done].
  destruct (PyStr.contains e q); simpl; [done|].
  apply tidy_append; [|done|by apply (expansion_ok a e)].
  intros ->. rewrite contains_empty_hay in Hc; [done|]. by apply (abbrev_ok a e).
Qed.

Lemma expand_fold_tidy l q :
  l ⊆ table -> tidy q = true -> tidy (foldl expand_step q l) = true.
Proof.
  revert q. induction l as [|[a e] l IH]; intros q Hl Hq; [done|].
  simpl. apply IH; [set_solver|]. apply expand_step_tidy; [set_solver | done].
Qed.

Lemma expand_fold_fixed l q :
  (forall item, item ∈ l -> expand_step q item = q) -> foldl expand_step q l = q.
Proof.
  induction l as [|item l IH]; intros Hfix; [done|].
  simpl. rewrite Hfix by left. apply IH. intros i Hi. apply Hfix. by right.
Qed.

Lemma expand_step_noop q a e :
  (PyStr.contains a q = true -> PyStr.contains e q = true) -> expand_step q (a, e) = q.
Proof.
  intros Himp. unfold expand_step.
  destruct (PyStr.contains a q); simpl; [|done]. by rewrite Himp.
Qed.

(** A second pass over the table changes nothing. *)
Lemma expand_twice q :
  foldl expand_step (foldl expand_step q table) table = foldl expand_step q table.
Proof.
  apply expand_fold_fixed. intros [a e] Hin. apply expand_step_noop. intros Hc.
  rewrite (expand_fold_abbrev a e) in Hc by done.
  by apply (expand_fold_expands a e table q).
Qed.

End Expansion.

Lemma abbreviations_cases (P : string -> string -> Prop) :
  P "NHD" "National Hydrography Dataset" ->
  P "USGS" "United States Geological Survey" ->
  P "GIS" "Geographic Information System" ->
  forall a e, (a, e) ∈ abbreviations -> P a e.
Proof.
  intros H1 H2 H3 a e Hin. unfold abbreviations in Hin.
  repeat (apply elem_of_cons in Hin as [Heq|Hin]; [by injection Heq as -> ->|]).
  by apply elem_of_nil in Hin.
Qed.

Lemma tidy_collapse s : tidy s = true -> PyStr.collapse_ws false s = s.
Proof.
  destruct s as [|c r]; [done|]. unfold tidy. intros Ht.
  simpl in *. destruct (PyStr.isspace c).
  - rewrite andb_false_r in Ht. discriminate Ht.
  - f_equal. by apply tidy_at_collapse.
Qed.

(** C10. Query normalization is idempotent: normalizing a normalized query
    (whitespace collapsed, then the expansion of each known abbreviation
    that occurs in the query appended unless it is there already) returns it
    unchanged. *)
Theorem preprocess_query_idempotent (query : string) :
  _preprocess_query (_preprocess_query query) = _preprocess_query query.
Proof.
  unfold _preprocess_query.
  set (q0 := PyStr.collapse_ws false (PyStr.strip query)).
  set (q1 := foldl expand_step q0 abbreviations).
  assert (Hab : forall a e, (a, e) ∈ abbreviations -> a ≠ EmptyString /\ space_free a = true).
  { apply abbreviations_cases; by split. }
  assert (Hex : forall a e, (a, e) ∈ abbreviations -> tidy_at true e = true).
  { by apply abbreviations_cases. }
  assert (Hno : forall a e a' e', (a, e) ∈ abbreviations -> (a', e') ∈ abbreviations ->
                  PyStr.contains a e' = false).
  { intros a e a' e' Ha Ha'. revert a e Ha.
    apply abbreviations_cases; revert a' e' Ha'; by apply abbreviations_cases. }
  assert (Ht : tidy q1 = true).
  { apply (expand_fold_tidy abbreviations); try done. apply normalize_tidy. }
  rewrite (tidy_strip q1 Ht), (tidy_collapse q1 Ht). by apply expand_twice.
Qed.

End Normalization.

(** ** The ranked search: similarities, thresholds and the order of the hits *)

Section RankedSearch.
Import VectorStore.
Local Open Scope Q_scope.

(** X1. A distance of the index that is not negative becomes a similarity in
    [0,1]: [1 - score] up to a distance of 1 and [1 / (1 + score)] beyond,
    where it stays above 0 and below one half. *)
Theorem similarity_of_distance_bounds (score : Q) :
  0 <= score ->
  0 <= score_to_similarity score <= 1
  /\ (1 < score -> 0 < score_to_similarity score /\ score_to_similarity score < 1 # 2).
Proof.
  intros Hs. unfold score_to_similarity.
  destruct (Qlt_le_dec 1 score) as [Hgt|Hle].
  - assert (Hpos : 0 < 1 + score) by lra.
    assert (H0 : 0 < 1 / (1 + score)).
    { apply Qlt_shift_div_l; lra. }
    assert (H1 : 1 / (1 + score) < 1 # 2).
    { apply Qlt_shift_div_r; lra. }
    split; [lra|]. intros _. split; lra.
  - split; [lra|]. intros Hgt. lra.
Qed.

Lemma similarity_of_distance_bounds_witness :
  0 <= 3
  /\ 0 <= score_to_similarity 3 <= 1
  /\ (1 < 3 -> 0 < score_to_similarity 3 /\ score_to_similarity 3 < 1 # 2).
Proof. split; [lra | apply (similarity_of_distance_bounds 3); lra]. Defined.

(** X2. The conversion is not monotone across the distance 1: a candidate
    at a distance [far] above 1 gets a higher similarity than a nearer one
    at a distance [near] of at most 1, as soon as [near] exceeds
    [far / (1 + far)]. *)
Theorem similarity_jumps_at_one (near far : Q) :
  near <= 1 -> 1 < far -> far / (1 + far) < near ->
  score_to_similarity near < score_to_similarity far.
Proof.
  intros Hn Hf Hlt. unfold score_to_similarity.
  destruct (Qlt_le_dec 1 near) as [?|_]; [lra|].
  destruct (Qlt_le_dec 1 far) as [_|?]; [|lra].
  assert (Hpos : 0 < 1 + far) by lra.
  assert (E : 1 / (1 + far) == 1 - far / (1 + far)) by (field; lra).
  rewrite E. lra.
Qed.

Lemma similarity_jumps_at_one_witness :
  9 # 10 <= 1 /\ 1 < 3 /\ 3 / (1 + 3) < 9 # 10
  /\ score_to_similarity (9 # 10) < score_to_similarity 3.
Proof.
  assert (H1 : 9 # 10 <= 1) by lra. assert (H2 : 1 < 3) by lra.
  assert (H3 : 3 / (1 + 3) < 9 # 10) by (vm_compute; reflexivity).
  split; [exact H1|]. split; [exact H2|]. split; [exact H3|].
  exact (similarity_jumps_at_one (9 # 10) 3 H1 H2 H3).
Defined.

(** X3. Whatever the query, the adaptive threshold is at most the greater of
    the base threshold and 0.1 and at least the smaller of the base threshold
    and 0.05; for a base threshold of 0.1 or more it is lowered by at most
    0.1 and never raised, and a base threshold below 0.05 is never lowered. *)
Theorem adaptive_threshold_bounds (query : string) (b : Q) :
  Qmin b 0.05 <= _get_adaptive_threshold query b <= Qmax b 0.1
  /\ (0.1 <= b -> b - 0.1 <= _get_adaptive_threshold query b <= b)
  /\ (b < 0.05 -> b <= _get_adaptive_threshold query b).
Proof.
  unfold _get_adaptive_threshold, PyNum.max.
  destruct (existsb _ _); [|destruct (_ <=? _)%nat];
    repeat destruct (Qlt_le_dec _ _);
    destruct (Q.min_spec b 0.05) as [[? ->]|[? ->]];
    destruct (Q.max_spec b 0.1) as [[? ->]|[? ->]];
    repeat split; try lra; try (intros; lra).
Qed.

Lemma insert_desc_perm h l : insert_desc h l ≡ₚ h :: l.
Proof.
  induction l as [|y l IH]; [done|]. simpl.
  destruct (Qlt_le_dec _ _); [|done]. rewrite IH. apply Permutation_swap.
Qed.

Lemma sort_desc_perm l : sort_desc l ≡ₚ l.
Proof.
  induction l as [|h l IH]; [done|]. unfold sort_desc in *. simpl.
  by rewrite insert_desc_perm, IH.
Qed.

Lemma insert_desc_sorted h l : descending l -> descending (insert_desc h l).
Proof.
  unfold descending. induction 1 as [|y l Hl IH Hy]; simpl.
  - repeat constructor.
  - destruct (Qlt_le_dec (relevance_key h) (relevance_key y)) as [Hlt|Hle].
    + constructor; [exact IH|].
      rewrite insert_desc_perm. constructor; [|exact Hy].
      unfold at_least. lra.
    + constructor; [by constructor|]. constructor; [exact Hle|].
      eapply Forall_impl; [exact Hy|]. unfold at_least. intros z Hz. lra.
Qed.

Lemma sort_desc_sorted l : descending (sort_desc l).
Proof.
  induction l as [|h l IH]; [constructor|]. by apply insert_desc_sorted.
Qed.

Lemma descending_firstn k l : descending l -> descending (firstn k l).
Proof.
  unfold descending. intros Hl. revert k. induction Hl as [|y l Hl IH Hy]; intros [|k]; simpl;
    try constructor; [apply IH|].
  by apply Forall_take.
Qed.

Lemma relevance_in_unit query document score md :
  PyStr.split_ws (PyStr.lower query) ≠ [] ->
  exists r,
    _calculate_enhanced_relevance query document (score_to_similarity score) md = Ok r
    /\ 0 <= r <= 1 /\ 0 <= PyNum.round_ndigits 3 r <= 1.
Proof.
  intros Hq. apply to_set_nonempty in Hq.
  pose proof (similarity_nonneg score) as Hs.
  unfold _calculate_enhanced_relevance.
  set (qw := PyStr.to_set (PyStr.split_ws (PyStr.lower query))) in *.
  set (dw := PyStr.to_set (PyStr.split_ws (PyStr.lower document))).
  pose proof (ratio_nonneg (PyStr.inter_size qw dw) (length qw) Hq) as Hr.
  destruct (length qw) as [|n]; [lia|].
  eexists. split; [reflexivity|].
  destruct (100 <? PyStr.len document)%nat;
    match goal with
    | |- 0 <= PyNum.min 1.0 ?x <= 1 /\ _ =>
        destruct (py_min_clamp x) as [_ Hb]; [lra|];
        split; [exact Hb | by apply round_ndigits_unit]
    end.
Qed.

Lemma relevance_tokenless query document score md :
  PyStr.split_ws (PyStr.lower query) = [] ->
  _calculate_enhanced_relevance query document score md = Raised "division by zero".
Proof. intros Hq. unfold _calculate_enhanced_relevance. by rewrite Hq. Qed.

Section Ranked.
Context `{VectorIndex}.

Lemma rank_candidate_ranked query threshold documents doc score :
  PyStr.split_ws (PyStr.lower query) ≠ [] ->
  rank_candidate query threshold documents (doc, score) = Ok documents
  \/ exists h, rank_candidate query threshold documents (doc, score) = Ok (documents ++ [h])
               /\ ranked_hit query threshold [(doc, score)] h.
Proof.
  intros Hq. unfold rank_candidate.
  destruct (Qle_bool _ _) eqn:Hpass; [|by left]. right.
  destruct (relevance_in_unit query (page_content doc) score (doc_metadata doc) Hq)
    as (r & Hr & H01 & Hround).
  rewrite Hr. simpl. eexists. split; [reflexivity|].
  exists doc, score, (PyNum.round_ndigits 3 r). simpl.
  split; [by left|]. split; [done|]. split; [done|].
  split; [by rewrite lookup_insert_eq|].
  split; [rewrite lookup_insert_ne by done; by rewrite lookup_insert_eq|].
  split; [done|]. intros key Hk1 Hk2. by rewrite !lookup_insert_ne.
Qed.

Lemma ranked_hit_mono query threshold results results' h :
  results ⊆ results' -> ranked_hit query threshold results h ->
  ranked_hit query threshold results' h.
Proof.
  intros Hsub (doc & score & r & Hin & Hrest). exists doc, score, r.
  split; [by apply Hsub | exact Hrest].
Qed.

Lemma rank_candidates_ranked query threshold documents results :
  PyStr.split_ws (PyStr.lower query) ≠ [] ->
  exists out,
    rank_candidates query threshold documents results = Ok (documents ++ out)
    /\ Forall (ranked_hit query threshold results) out.
Proof.
  intros Hq. revert documents.
  induction results as [|[doc score] results IH]; intros documents.
  - exists []. by rewrite app_nil_r.
  - cbn [rank_candidates].
    destruct (rank_candidate_ranked query threshold documents doc score Hq)
      as [-> | (h & -> & Hh)]; simpl.
    + destruct (IH documents) as (out & -> & Hout). exists out. split; [done|].
      eapply Forall_impl; [exact Hout|]. intros x. apply ranked_hit_mono. set_solver.
    + destruct (IH (documents ++ [h])) as (out & -> & Hout). exists (h :: out).
      rewrite <- app_assoc. split; [done|]. constructor.
      * eapply ranked_hit_mono; [|exact Hh]. set_solver.
      * eapply Forall_impl; [exact Hout|]. intros x. apply ranked_hit_mono. set_solver.
Qed.

Lemma rank_candidates_tokenless query threshold results : forall documents,
  PyStr.split_ws (PyStr.lower query) = [] ->
  rank_candidates query threshold documents results
  = if existsb (passes query threshold) results
    then Raised "division by zero" else Ok documents.
Proof.
  induction results as [|[doc score] rest IH]; intros documents Hq; [done|].
  cbn [rank_candidates existsb]. unfold rank_candidate, passes at 1. simpl snd.
  destruct (Qle_bool _ _); simpl.
  - by rewrite relevance_tokenless.
  - by apply IH.
Qed.

(** X4. When the query has a token and the index answers, the search
    returns at most [k] hits, in descending order of their stored relevance;
    each one is made from a candidate of the index that passes the adaptive
    threshold, with that candidate's content and metadata, the search type
    [optimized_semantic] and a relevance in [0,1]. *)
Theorem similarity_search_ranked (query : string) (k : nat) (threshold : Q)
    (results : list (Document * Q)) :
  PyStr.split_ws (PyStr.lower query) ≠ [] ->
  similarity_search_with_score (_preprocess_query query) (Nat.min (k * 2) 20) = Ok results ->
  (length (similarity_search query k threshold) <= k)%nat
  /\ descending (similarity_search query k threshold)
  /\ Forall (ranked_hit query threshold results) (similarity_search query k threshold).
Proof.
  intros Hq Hidx. unfold similarity_search, optimized_search. rewrite Hidx. simpl.
  destruct (rank_candidates_ranked query threshold [] results Hq) as (out & -> & Hout).
  simpl. split; [rewrite length_take; lia|]. split.
  - apply descending_firstn, sort_desc_sorted.
  - apply Forall_take. by rewrite sort_desc_perm.
Qed.
(** X5. A query without a token makes the relevance computation divide by
    zero as soon as one candidate passes the threshold: the search then
    answers with the basic search of the index, and with no hit at all when
    no candidate passes. *)
Theorem similarity_search_tokenless_query (query : string) (k : nat) (threshold : Q)
    (results : list (Document * Q)) :
  PyStr.split_ws (PyStr.lower query) = [] ->
  similarity_search_with_score (_preprocess_query query) (Nat.min (k * 2) 20) = Ok results ->
  similarity_search query k threshold
  = if existsb (passes query threshold) results then fallback_search query k else [].
Proof.
  intros Hq Hidx. unfold similarity_search, optimized_search. rewrite Hidx. simpl.
  rewrite rank_candidates_tokenless by done.
  destruct (existsb _ _); [done|]. simpl. by destruct k.
Qed.
End Ranked.

Lemma similarity_search_ranked_witness :
  PyStr.split_ws (PyStr.lower "What is NHD?") ≠ []
  /\ (exists results,
        @similarity_search_with_score four_hits_index
          (_preprocess_query "What is NHD?") (Nat.min (2 * 2) 20) = Ok results
        /\ (length (@similarity_search four_hits_index "What is NHD?" 2 0.15) <= 2)%nat
        /\ descending (@similarity_search four_hits_index "What is NHD?" 2 0.15)
        /\ Forall (ranked_hit "What is NHD?" 0.15 results)
             (@similarity_search four_hits_index "What is NHD?" 2 0.15)).
Proof.
  assert (Hq : PyStr.split_ws (PyStr.lower "What is NHD?") ≠ []) by (vm_compute; discriminate).
  split; [exact Hq|]. eexists. split; [reflexivity|].
  exact (@similarity_search_ranked four_hits_index "What is NHD?" 2 0.15 _ Hq eq_refl).
Defined.

Lemma similarity_search_tokenless_query_witness :
  PyStr.split_ws (PyStr.lower "   ") = []
  /\ (exists results,
        @similarity_search_with_score four_hits_index
          (_preprocess_query "   ") (Nat.min (2 * 2) 20) = Ok results
        /\ @similarity_search four_hits_index "   " 2 0.15
           = if existsb (passes "   " 0.15) results
             then @fallback_search four_hits_index "   " 2 else []).
Proof.
  assert (Hq : PyStr.split_ws (PyStr.lower "   ") = []) by reflexivity.
  split; [exact Hq|]. eexists. split; [reflexivity|].
  exact (@similarity_search_tokenless_query four_hits_index "   " 2 0.15 _ Hq eq_refl).
Defined.

Lemma abbreviations_abbrev_ok a e :
  (a, e) ∈ abbreviations -> a ≠ EmptyString /\ space_free a = true.
Proof. revert a e. apply abbreviations_cases; by split. Qed.

Lemma abbreviations_expansion_ok a e :
  (a, e) ∈ abbreviations -> tidy_at true e = true.
Proof. revert a e. by apply abbreviations_cases. Qed.

Lemma abbreviations_apart a e a' e' :
  (a, e) ∈ abbreviations -> (a', e') ∈ abbreviations -> PyStr.contains a e' = false.
Proof.
  intros Ha Ha'. revert a e Ha.
  apply abbreviations_cases; revert a' e' Ha'; by apply abbreviations_cases.
Qed.

Lemma expand_step_prefix q item : is_prefix q (expand_step q item).
Proof.
  destruct item as [a e]. unfold expand_step.
  destruct (_ && _); [by eexists | exists EmptyString; by rewrite app_empty_r].
Qed.

Lemma is_prefix_trans a b c : is_prefix a b -> is_prefix b c -> is_prefix a c.
Proof. intros [r ->] [r' ->]. exists (r +:+ r'). by rewrite app_assoc_str. Qed.

Lemma expand_fold_prefix l q : is_prefix q (foldl expand_step q l).
Proof.
  revert q. induction l as [|item l IH]; intros q.
  - exists EmptyString. by rewrite app_empty_r.
  - simpl. eapply is_prefix_trans; [apply expand_step_prefix | apply IH].
Qed.

(** X6. The preprocessed query is in normal form for whitespace and starts
    with the normalized query; the expansions appended bring in no
    abbreviation that was not there, and every abbreviation of the table the
    result contains has its expansion in the result. *)
Theorem preprocess_query_expands (query : string) :
  tidy (_preprocess_query query) = true
  /\ is_prefix (PyStr.collapse_ws false (PyStr.strip query)) (_preprocess_query query)
  /\ (forall a e, (a, e) ∈ abbreviations ->
        PyStr.contains a (_preprocess_query query)
        = PyStr.contains a (PyStr.collapse_ws false (PyStr.strip query)))
  /\ (forall a e, (a, e) ∈ abbreviations ->
        PyStr.contains a (_preprocess_query query) = true ->
        PyStr.contains e (_preprocess_query query) = true).
Proof.
  unfold _preprocess_query.
  set (q0 := PyStr.collapse_ws false (PyStr.strip query)).
  pose proof (expand_fold_tidy abbreviations abbreviations_abbrev_ok
                abbreviations_expansion_ok abbreviations_apart) as Htidy.
  pose proof (expand_fold_abbrev abbreviations abbreviations_abbrev_ok
                abbreviations_expansion_ok abbreviations_apart) as Habbrev.
  pose proof (expand_fold_expands abbreviations abbreviations_abbrev_ok
                abbreviations_expansion_ok abbreviations_apart) as Hexp.
  split; [apply Htidy; [done | apply normalize_tidy]|].
  split; [apply expand_fold_prefix|].
  split.
  - intros a e Hin. by apply (Habbrev a e).
  - intros a e Hin Hc. rewrite (Habbrev a e) in Hc by done.
    by apply (Hexp a e).
Qed.

End RankedSearch.

(** ** Ingestion: one document for each content *)

Section IngestProps.
Context `{Digest}.

Lemma dedup_fold seen acc documents :
  snd (foldl dedup_step (seen, acc) documents) = acc ++ dedup_from seen documents.
Proof.
  revert seen acc. induction documents as [|doc rest IH]; intros seen acc; simpl.
  - by rewrite app_nil_r.
  - unfold doc_hash. case_bool_decide.
    + apply IH.
    + rewrite IH. by rewrite <- app_assoc.
Qed.

Lemma _remove_duplicates_dedup_from documents :
  _remove_duplicates documents = dedup_from ∅ documents.
Proof. unfold _remove_duplicates. by rewrite dedup_fold. Qed.

Lemma doc_hash_with_hash doc : doc_hash (with_hash doc) = doc_hash doc.
Proof. reflexivity. Qed.

Lemma dedup_from_fresh seen documents :
  Forall (fun d => doc_hash d ∉ seen) (dedup_from seen documents)
  /\ NoDup (doc_hash <$> (dedup_from seen documents)).
Proof.
  revert seen. induction documents as [|doc rest IH]; intros seen; simpl.
  - split; constructor.
  - case_bool_decide as Hin; [apply IH|].
    destruct (IH ({[doc_hash doc]} ∪ seen)) as [Hfresh Hnd]. split.
    + constructor; [done|]. eapply Forall_impl; [exact Hfresh|]. set_solver.
    + simpl. constructor; [|exact Hnd].
      rewrite doc_hash_with_hash. intros Hin'.
      apply list_elem_of_fmap in Hin' as (d & Hd & Hdin).
      rewrite Forall_forall in Hfresh. specialize (Hfresh d Hdin). set_solver.
Qed.

Lemma dedup_from_sublist seen documents :
  map page_content (dedup_from seen documents) `sublist_of` map page_content documents.
Proof.
  revert seen. induction documents as [|doc rest IH]; intros seen; simpl; [done|].
  case_bool_decide.
  - apply sublist_cons, IH.
  - simpl. apply sublist_skip, IH.
Qed.

Lemma dedup_from_first seen documents i doc :
  documents !! i = Some doc ->
  doc_hash doc ∉ seen ->
  (forall j other, (j < i)%nat -> documents !! j = Some other -> doc_hash other ≠ doc_hash doc) ->
  with_hash doc ∈ dedup_from seen documents.
Proof.
  revert seen i. induction documents as [|d rest IH]; intros seen i Hi Hseen Hfirst; [done|].
  simpl. destruct i as [|i]; simpl in Hi.
  - injection Hi as ->. rewrite bool_decide_eq_false_2 by done. left.
  - assert (Hd : doc_hash d ≠ doc_hash doc) by (apply (Hfirst 0%nat d); [lia | done]).
    assert (Hrest : forall j other, (j < i)%nat -> rest !! j = Some other ->
                      doc_hash other ≠ doc_hash doc).
    { intros j other Hj Hl. apply (Hfirst (S j) other); [lia | done]. }
    case_bool_decide.
    + by apply (IH seen i).
    + right. apply (IH _ i); [done | set_solver | done].
Qed.

Lemma dedup_from_covers seen documents doc :
  doc ∈ documents -> doc_hash doc ∉ seen ->
  doc_hash doc ∈ doc_hash <$> (dedup_from seen documents).
Proof.
  revert seen. induction documents as [|d rest IH]; intros seen Hin Hseen.
  - by apply elem_of_nil in Hin.
  - simpl. destruct (decide (doc_hash d = doc_hash doc)) as [Heq|Hne].
    + rewrite bool_decide_eq_false_2 by (by rewrite Heq). simpl.
      rewrite doc_hash_with_hash, Heq. left.
    + apply elem_of_cons in Hin as [->|Hin]; [done|].
      case_bool_decide; [by apply IH|].
      simpl. right. apply IH; [done | set_solver].
Qed.

Lemma dedup_from_distinct seen documents :
  Forall (fun d => doc_hash d ∉ seen) documents ->
  NoDup (doc_hash <$> documents) ->
  dedup_from seen documents = map with_hash documents.
Proof.
  revert seen. induction documents as [|d rest IH]; intros seen Hfresh Hnd; [done|].
  simpl in *. apply Forall_cons in Hfresh as [Hd Hrest]. apply NoDup_cons in Hnd as [Hnotin Hnd].
  rewrite bool_decide_eq_false_2 by done. f_equal. apply IH; [|done].
  rewrite Forall_forall in Hrest |- *. intros x Hx. specialize (Hrest x Hx).
  assert (doc_hash x ≠ doc_hash d); [|set_solver].
  intros Heq. apply Hnotin. rewrite <- Heq. by apply list_elem_of_fmap_2.
Qed.

Lemma with_hash_twice doc : with_hash (with_hash doc) = with_hash doc.
Proof.
  unfold with_hash, doc_hash. simpl. f_equal. apply insert_insert_eq.
Qed.

Lemma dedup_from_origin seen documents :
  Forall (fun kept => exists doc, doc ∈ documents /\ kept = with_hash doc)
         (dedup_from seen documents).
Proof.
  revert seen. induction documents as [|d rest IH]; intros seen; simpl; [constructor|].
  assert (Hrest : forall seen', Forall (fun kept => exists doc, doc ∈ d :: rest /\ kept = with_hash doc)
                                  (dedup_from seen' rest)).
  { intros seen'. eapply Forall_impl; [apply IH|]. intros kept (doc & Hin & ->).
    exists doc. split; [by right | done]. }
  case_bool_decide; [apply Hrest|]. constructor; [|apply Hrest].
  exists d. split; [by left | done].
Qed.

Lemma dedup_from_own_hash seen documents :
  Forall (fun d => with_hash d = d) (dedup_from seen documents).
Proof.
  revert seen. induction documents as [|d rest IH]; intros seen; simpl; [constructor|].
  case_bool_decide; [apply IH|]. constructor; [apply with_hash_twice | apply IH].
Qed.

Lemma dedup_from_again documents :
  dedup_from ∅ (dedup_from ∅ documents) = dedup_from ∅ documents.
Proof.
  destruct (dedup_from_fresh ∅ documents) as [_ Hnd].
  rewrite dedup_from_distinct; [| apply Forall_forall; set_solver | done].
  clear Hnd. pose proof (dedup_from_own_hash ∅ documents) as Hall.
  induction Hall as [|d l Hd _ IH]; [done|]. simpl. by f_equal.
Qed.

(** X7. [_remove_duplicates] keeps one document for each content hash: the
    hashes of the result are pairwise distinct, the contents of the result
    are a subsequence of those of the input, every kept document is an input
    document with its hash written under ['content_hash'], the first
    document of each hash is the one kept, and no hash of the input is
    lost. *)
Theorem remove_duplicates_keeps_first (documents : list Document) :
  NoDup (doc_hash <$> (_remove_duplicates documents))
  /\ map page_content (_remove_duplicates documents) `sublist_of` map page_content documents
  /\ Forall (fun kept => exists doc, doc ∈ documents /\ kept = with_hash doc)
            (_remove_duplicates documents)
  /\ (forall i doc,
        documents !! i = Some doc ->
        (forall j other, (j < i)%nat -> documents !! j = Some other ->
                         doc_hash other ≠ doc_hash doc) ->
        with_hash doc ∈ _remove_duplicates documents)
  /\ (forall doc, doc ∈ documents ->
        doc_hash doc ∈ doc_hash <$> (_remove_duplicates documents)).
Proof.
  rewrite _remove_duplicates_dedup_from.
  split; [apply dedup_from_fresh|]. split; [apply dedup_from_sublist|].
  split; [apply dedup_from_origin|]. split.
  - intros i doc Hi Hfirst. by apply (dedup_from_first ∅ documents i).
  - intros doc Hin. by apply dedup_from_covers.
Qed.

(** X8. Removing duplicates a second time changes nothing, so adding the
    documents [_remove_duplicates] returned hands the store the same list as
    adding the documents it was given. *)
Theorem remove_duplicates_idempotent `{VectorWriter} (documents : list Document) :
  _remove_duplicates (_remove_duplicates documents) = _remove_duplicates documents
  /\ add_documents (_remove_duplicates documents) = add_documents documents.
Proof.
  assert (E : _remove_duplicates (_remove_duplicates documents) = _remove_duplicates documents).
  { rewrite !_remove_duplicates_dedup_from. apply dedup_from_again. }
  split; [exact E|]. unfold add_documents. by rewrite E.
Qed.

End IngestProps.

(** ** The orchestrator: confidence, sources, truncation, retries, answers *)

(** *** Strings: lower case, margins and text with something in it *)

Lemma lower_char_fixed c : PyStr.lower_char (PyStr.lower_char c) = PyStr.lower_char c.
Proof. destruct c as [[] [] [] [] [] [] [] []]; reflexivity. Qed.

Lemma isspace_lower_char c : PyStr.isspace (PyStr.lower_char c) = PyStr.isspace c.
Proof. destruct c as [[] [] [] [] [] [] [] []]; reflexivity. Qed.

Lemma lower_twice s : PyStr.lower (PyStr.lower s) = PyStr.lower s.
Proof. induction s as [|c s IH]; [done|]. simpl. by rewrite lower_char_fixed, IH. Qed.

Lemma lstrip_lower s : PyStr.lstrip (PyStr.lower s) = PyStr.lower (PyStr.lstrip s).
Proof.
  induction s as [|c s IH]; [done|]. simpl. rewrite isspace_lower_char.
  by destruct (PyStr.isspace c).
Qed.

Lemma rstrip_lower s : PyStr.rstrip (PyStr.lower s) = PyStr.lower (PyStr.rstrip s).
Proof.
  induction s as [|c s IH]; [done|]. simpl. rewrite IH, isspace_lower_char.
  destruct (PyStr.rstrip s); simpl; [by destruct (PyStr.isspace c) | done].
Qed.

Lemma strip_lower s : PyStr.strip (PyStr.lower s) = PyStr.lower (PyStr.strip s).
Proof. unfold PyStr.strip. by rewrite lstrip_lower, rstrip_lower. Qed.

Lemma rstrip_twice s : PyStr.rstrip (PyStr.rstrip s) = PyStr.rstrip s.
Proof.
  induction s as [|c s IH]; [done|]. simpl.
  destruct (PyStr.rstrip s) as [|d r] eqn:E.
  - destruct (PyStr.isspace c) eqn:Hc; [done|]. simpl. by rewrite Hc.
  - simpl in *. by rewrite IH.
Qed.

Lemma strip_twice s : PyStr.strip (PyStr.strip s) = PyStr.strip s.
Proof.
  unfold PyStr.strip.
  destruct (lstrip_head s) as [-> | (c & r & -> & Hc)]; [done|].
  destruct (rstrip_head c r Hc) as [r' Hr]. rewrite Hr.
  simpl PyStr.lstrip. rewrite Hc. rewrite <- Hr. apply rstrip_twice.
Qed.

Lemma lstrip_nonempty s : PyStr.lstrip s ≠ EmptyString -> has_nonspace s = true.
Proof.
  induction s as [|c s IH]; [done|]. simpl.
  destruct (PyStr.isspace c); [exact IH | done].
Qed.

Lemma strip_nonempty s : PyStr.strip s ≠ EmptyString -> has_nonspace s = true.
Proof.
  unfold PyStr.strip. intros Hs. apply lstrip_nonempty. intros E. by rewrite E in Hs.
Qed.

Lemma has_nonspace_lower s : has_nonspace (PyStr.lower s) = has_nonspace s.
Proof. induction s as [|c s IH]; [done|]. simpl. by rewrite isspace_lower_char, IH. Qed.

Lemma split_ws_go_some cur s : PyStr.split_ws_go (Some cur) s ≠ [].
Proof.
  revert cur. induction s as [|c s IH]; intros cur; simpl; [done|].
  destruct (PyStr.isspace c); [done | apply IH].
Qed.

Lemma split_ws_nonempty s : has_nonspace s = true -> PyStr.split_ws s ≠ [].
Proof.
  unfold PyStr.split_ws. induction s as [|c s IH]; [done|]. simpl.
  destruct (PyStr.isspace c); simpl; [exact IH | intros _; apply split_ws_go_some].
Qed.

Lemma stripped_has_token s :
  PyStr.strip s ≠ EmptyString -> PyStr.split_ws (PyStr.lower s) ≠ [].
Proof.
  intros Hs. apply split_ws_nonempty. rewrite has_nonspace_lower. by apply strip_nonempty.
Qed.

Lemma has_nonspace_app a b : has_nonspace (a +:+ b) = has_nonspace a || has_nonspace b.
Proof.
  induction a as [|c a IH]; [done|]. rewrite app_cons. simpl. rewrite IH.
  by rewrite orb_assoc.
Qed.

Lemma has_nonspace_strip s : has_nonspace s = true -> PyStr.strip s ≠ EmptyString.
Proof.
  intros Hs. unfold PyStr.strip.
  destruct (lstrip_head s) as [E | (c & r & -> & Hc)].
  - exfalso. induction s as [|c s IH]; [done|].
    simpl in *. destruct (PyStr.isspace c); [by apply IH | done].
  - destruct (rstrip_head c r Hc) as [r' ->]. done.
Qed.

Lemma has_nonspace_unsplit sep pieces :
  has_nonspace sep = false ->
  has_nonspace (unsplit sep pieces) = existsb has_nonspace pieces.
Proof.
  intros Hsep. induction pieces as [|x l IH]; [done|].
  simpl. by rewrite !has_nonspace_app, Hsep, IH.
Qed.

(** *** The service *)

Section ServiceMore.
Import LLMService.

Section Confidence.
Local Open Scope Q_scope.

(** X9. For a question with at least one token the confidence computation
    returns a number in [0,1], and 0 when no document was retrieved. *)
Theorem enhanced_confidence_unit (question : string) (docs : list RetrievedDoc)
    (answer : string) :
  PyStr.split_ws (PyStr.lower question) ≠ [] ->
  exists c, _calculate_enhanced_confidence question docs answer = Ok c
            /\ 0 <= c <= 1
            /\ (docs = [] -> c == 0).
Proof.
  intros Hq. apply to_set_nonempty in Hq.
  unfold _calculate_enhanced_confidence.
  destruct docs as [|doc docs]; [exists 0.0; repeat split; (lra || done)|].
  set (n := length (doc :: docs)).
  set (qw := PyStr.to_set (PyStr.split_ws (PyStr.lower question))) in *.
  set (rw := PyStr.to_set (PyStr.split_ws (PyStr.lower answer))).
  pose proof (ratio_nonneg (PyStr.inter_size qw rw) (length qw) Hq) as Hr.
  destruct (length qw) as [|m]; [lia|].
  assert (Hbase : 0 <= PyNum.min (PyNum.of_nat n / 7) 1.0).
  { unfold PyNum.min. destruct (Qlt_le_dec _ _); [lra|].
    apply Qle_shift_div_l; [lra|]. pose proof (of_nat_nonneg n). lra. }
  eexists. split; [reflexivity|].
  split; [|done].
  destruct (200 <? PyStr.len answer)%nat;
    match goal with
    | |- 0 <= PyNum.min 1.0 ?x <= 1 => destruct (py_min_clamp x) as [_ Hb]; [lra | exact Hb]
    end.
Qed.
Lemma enhanced_confidence_unit_witness :
  PyStr.split_ws (PyStr.lower "What is NHD?") ≠ []
  /\ exists c, _calculate_enhanced_confidence "What is NHD?" [OtherDoc] "NHD is a dataset." = Ok c
               /\ 0 <= c <= 1
               /\ ([OtherDoc] = [] -> c == 0).
Proof.
  split; [vm_compute; discriminate|].
  apply (enhanced_confidence_unit "What is NHD?" [OtherDoc] "NHD is a dataset.").
  vm_compute. discriminate.
Defined.

End Confidence.

Lemma enhanced_confidence_returns question docs answer :
  PyStr.split_ws (PyStr.lower question) ≠ [] ->
  exists c, _calculate_enhanced_confidence question docs answer = Ok c.
Proof.
  intros Hq. apply to_set_nonempty in Hq. unfold _calculate_enhanced_confidence.
  destruct docs; [eauto|].
  destruct (length (PyStr.to_set (PyStr.split_ws (PyStr.lower question)))); [lia | eauto].
Qed.

Lemma format_source_len fields : PyStr.len (sd_content (format_source fields)) <= 303.
Proof.
  destruct fields as [text md]. unfold format_source. cbn [sd_content].
  destruct (Nat.ltb_spec 300 (String.length text)); [|lia].
  rewrite len_app. pose proof (take_len 300 text).
  change (String.length "...") with 3. len_lia.
Qed.

Lemma format_source_documents_cons doc docs :
  _format_source_documents (doc :: docs)
  = match doc_fields doc with
    | Some fields => format_source fields :: _format_source_documents docs
    | None => _format_source_documents docs
    end.
Proof. unfold _format_source_documents. cbn [omap list_omap]. by destruct (doc_fields doc). Qed.

(** X10. The sources of an answer: each content is cut to 300 characters
    and the mark of three dots, so it has at most 303 characters; there are
    never more sources than documents, and as many when every document is an
    object or a dictionary. *)
Theorem format_source_documents_bounded (docs : list RetrievedDoc) :
  Forall (fun sd => PyStr.len (sd_content sd) <= 303) (_format_source_documents docs)
  /\ length (_format_source_documents docs) <= length docs
  /\ (OtherDoc ∉ docs -> length (_format_source_documents docs) = length docs).
Proof.
  induction docs as [|doc docs (IH1 & IH2 & IH3)].
  - split; [constructor|]. split; done.
  - rewrite format_source_documents_cons.
    destruct (doc_fields doc) as [fields|] eqn:Hf.
    + split; [|split].
      * constructor; [apply format_source_len | exact IH1].
      * cbn [length]. lia.
      * intros Hno. cbn [length]. f_equal. apply IH3. set_solver.
    + split; [exact IH1|]. split; [cbn [length]; lia|].
      intros Hno. destruct doc; try discriminate Hf. set_solver.
Qed.

(** X11. With a limit of three characters or more, [_intelligent_truncate]
    returns a text within the limit: the text itself when it fits, and
    otherwise a cut that ends in three dots. *)
Theorem intelligent_truncate_fits (text : string) (max_length : nat) :
  3 <= max_length ->
  PyStr.len (_intelligent_truncate text max_length) <= max_length
  /\ (PyStr.len text <= max_length -> _intelligent_truncate text max_length = text)
  /\ (max_length < PyStr.len text ->
      exists cut, _intelligent_truncate text max_length = cut +:+ "...").
Proof.
  intros Hm. destruct (Nat.le_gt_cases (PyStr.len text) max_length) as [Hle|Hgt].
  - assert (E : _intelligent_truncate text max_length = text).
    { unfold _intelligent_truncate. by apply Nat.leb_le in Hle as ->. }
    rewrite E. split; [done|]. split; [done | lia].
  - destruct (truncate_overflow text max_length Hgt Hm) as (k & cut & Heq & Hlen & _).
    rewrite Heq. split; [done|]. split; [lia | eauto].
Qed.

Lemma intelligent_truncate_fits_witness :
  3 <= 10
  /\ PyStr.len (_intelligent_truncate "One. Two. Three." 10) <= 10
  /\ (PyStr.len "One. Two. Three." <= 10
      -> _intelligent_truncate "One. Two. Three." 10 = "One. Two. Three.")
  /\ (10 < PyStr.len "One. Two. Three." ->
      exists cut, _intelligent_truncate "One. Two. Three." 10 = cut +:+ "...").
Proof. split; [lia | apply (intelligent_truncate_fits "One. Two. Three." 10); lia]. Defined.

Lemma add_sentences_negative limit sentences :
  (limit < 0)%Z -> add_sentences limit EmptyString sentences = EmptyString.
Proof.
  intros Hneg. destruct sentences as [|s ss]; [done|]. cbn [add_sentences].
  destruct (Z.leb_spec (Z.of_nat (String.length (EmptyString +:+ s +:+ ". "))) limit); [lia | done].
Qed.

(** X12. With a limit below three characters a text that is too long is not
    cut to the limit: the slice [text[:max_length - 3]] has a negative end,
    so the result is the text without its last [3 - max_length] characters,
    followed by three dots, which is longer than the limit and, for a text of
    that many characters or more, longer than the text. *)
Theorem intelligent_truncate_small_limit (text : string) (max_length : nat) :
  max_length < 3 -> max_length < PyStr.len text ->
  _intelligent_truncate text max_length
  = PyStr.take (PyStr.len text - (3 - max_length)) text +:+ "..."
  /\ max_length < PyStr.len (_intelligent_truncate text max_length)
  /\ (3 - max_length <= PyStr.len text ->
      PyStr.len (_intelligent_truncate text max_length) = PyStr.len text + max_length).
Proof.
  intros Hm Hgt.
  assert (E : _intelligent_truncate text max_length
              = PyStr.take (PyStr.len text - (3 - max_length)) text +:+ "...").
  { unfold _intelligent_truncate.
    destruct (Nat.leb_spec (String.length text) max_length); [lia|].
    rewrite add_sentences_negative by lia.
    rewrite bool_decide_eq_false_2 by (intros Hne; by apply Hne).
    unfold slice_to. destruct (Z.ltb_spec (Z.of_nat max_length - 3) 0); [|lia].
    by replace (Z.to_nat (- (Z.of_nat max_length - 3))) with (3 - max_length) by lia. }
  split; [exact E|]. rewrite E, len_app, take_len_exact by lia.
  change (String.length "...") with 3. split; [lia|]. lia.
Qed.

Lemma intelligent_truncate_small_limit_witness :
  2 < 3 /\ 2 < PyStr.len "abcdef"
  /\ _intelligent_truncate "abcdef" 2 = PyStr.take (PyStr.len "abcdef" - (3 - 2)) "abcdef" +:+ "..."
  /\ 2 < PyStr.len (_intelligent_truncate "abcdef" 2)
  /\ (3 - 2 <= PyStr.len "abcdef" ->
      PyStr.len (_intelligent_truncate "abcdef" 2) = PyStr.len "abcdef" + 2).
Proof.
  assert (H1 : 2 < 3) by lia. assert (H2 : 2 < PyStr.len "abcdef") by (simpl; lia).
  split; [exact H1|]. split; [exact H2|].
  exact (intelligent_truncate_small_limit "abcdef" 2 H1 H2).
Defined.

Section CacheKey.
Context `{Digest}.

(** X13. The cache key of a question does not depend on the case of its
    letters nor on the whitespace around it. *)
Theorem cache_key_ignores_case_and_margins (question : string) :
  _generate_cache_key (PyStr.lower question) = _generate_cache_key question
  /\ _generate_cache_key (PyStr.strip question) = _generate_cache_key question.
Proof.
  unfold _generate_cache_key. split.
  - by rewrite lower_twice.
  - by rewrite <- strip_lower, strip_twice.
Qed.
End CacheKey.


Section Retry.
Context `{Backend}.

Lemma retry_loop_after_failures todo attempt max_retries prompt w failures answer d :
  attempt + length failures <= max_retries ->
  length failures < todo ->
  fails_next prompt w failures ->
  llm (llm_calls w + length failures) prompt = (Ok answer, d) ->
  exists w',
    retry_loop todo attempt max_retries prompt w = (Ok (Some answer), w')
    /\ llm_calls w' = llm_calls w + length failures + 1
    /\ trace w' = trace w ++ failed_attempts prompt failures ++ [EvLLM prompt (Ok answer)].
Proof.
  revert todo attempt w.
  induction failures as [|[e dd] failures IH]; intros todo attempt w Hle Htodo Hfail Hok.
  - destruct todo as [|todo]; [simpl in Htodo; lia|].
    simpl in Hok. rewrite Nat.add_0_r in Hok.
    rewrite (retry_loop_success _ _ _ _ _ _ _ Hok).
    eexists. split; [reflexivity|]. simpl. split; [lia | done].
  - destruct todo as [|todo]; [simpl in Htodo; lia|].
    simpl in Hle, Htodo.
    assert (H0 : llm (llm_calls w) prompt = (Raised e, dd)).
    { specialize (Hfail 0 e dd eq_refl). by rewrite Nat.add_0_r in Hfail. }
    rewrite (retry_loop_failure _ _ _ _ _ _ _ H0) by lia.
    set (w1 := sleep 1 _).
    destruct (IH todo (attempt + 1) w1) as (w' & Hrun & Hcalls & Htrace).
    + lia.
    + lia.
    + intros i e' d' Hi. specialize (Hfail (S i) e' d' Hi).
      simpl. rewrite <- Hfail. f_equal. lia.
    + simpl. rewrite <- Hok. f_equal. simpl. lia.
    + exists w'. split; [exact Hrun|]. split.
      * rewrite Hcalls. simpl. lia.
      * rewrite Htrace. simpl. rewrite <- !app_assoc. reflexivity.
Qed.

(** X14. When the backend fails at most [max_retries] times in a row and
    then answers, [_call_llm_with_retry] returns that answer; it has called
    the backend once for each failure and once more, and has paused one
    second after each failure. *)
Theorem retry_returns_first_success
    (prompt : string) (max_retries : nat) (w : World)
    (failures : list (exn * Q)) (answer : string) (d : Q) :
  length failures <= max_retries ->
  fails_next prompt w failures ->
  llm (llm_calls w + length failures) prompt = (Ok answer, d) ->
  exists w',
    _call_llm_with_retry prompt max_retries w = (Ok (Some answer), w')
    /\ llm_calls w' = llm_calls w + length failures + 1
    /\ trace w' = trace w ++ failed_attempts prompt failures ++ [EvLLM prompt (Ok answer)].
Proof.
  intros Hle Hfail Hok. unfold _call_llm_with_retry.
  apply retry_loop_after_failures with (d := d); [lia | lia | done | done].
Qed.
End Retry.

Lemma retry_returns_first_success_witness :
  length [("busy", 1%Q)] <= 2
  /\ @fails_next flaky_backend "prompt" world0 [("busy", 1%Q)]
  /\ @llm flaky_backend (llm_calls world0 + length [("busy", 1%Q)]) "prompt" = (Ok "fine", 2%Q)
  /\ exists w',
       @_call_llm_with_retry flaky_backend "prompt" 2 world0 = (Ok (Some "fine"), w')
       /\ llm_calls w' = llm_calls world0 + length [("busy", 1%Q)] + 1
       /\ trace w' = trace world0 ++ failed_attempts "prompt" [("busy", 1%Q)]
                                  ++ [EvLLM "prompt" (Ok "fine")].
Proof.
  assert (H1 : length [("busy", 1%Q)] <= 2) by (simpl; lia).
  assert (H2 : @fails_next flaky_backend "prompt" world0 [("busy", 1%Q)]).
  { intros [|i] e d Hi; [by injection Hi as <- <- | done]. }
  assert (H3 : @llm flaky_backend (llm_calls world0 + length [("busy", 1%Q)]) "prompt"
               = (Ok "fine", 2%Q)) by reflexivity.
  split; [exact H1|]. split; [exact H2|]. split; [exact H3|].
  exact (@retry_returns_first_success flaky_backend "prompt" 2 world0
           [("busy", 1%Q)] "fine" 2%Q H1 H2 H3).
Defined.

Section Responses.
Context `{Digest} `{Retriever} `{Backend} `{Settings}.

Lemma process_query_error_none question w r w' :
  _process_query question w = (Ok r, w') -> error r = None.
Proof.
  unfold _process_query. destruct (retrieve question 7) as [|doc docs].
  - by intros [= <- _].
  - destruct (_call_llm_with_retry _ 2 w) as [[[answer|]|e] w1].
    + destruct (_calculate_enhanced_confidence _ _ _); [by intros [= <- _] | done].
    + by intros [= <- _].
    + by intros [= <- _].
Qed.

Lemma process_query_returns question w :
  PyStr.split_ws (PyStr.lower question) ≠ [] ->
  exists r w', _process_query question w = (Ok r, w').
Proof.
  intros Hq. unfold _process_query. destruct (retrieve question 7) as [|doc docs]; [eauto|].
  destruct (_call_llm_with_retry _ 2 w) as [[[answer|]|e] w1]; [|eauto..].
  destruct (enhanced_confidence_returns question (doc :: docs) answer Hq) as [c ->]. eauto.
Qed.

(** X15. A question that is not blank never gets the answer of the generic
    exception handler: the answer of [get_response] carries no error, or the
    error ["timeout"]. *)
Theorem get_response_never_generic_error (self : Service) (question : string)
    (timeout : option nat) (w : World) :
  PyStr.strip question ≠ EmptyString ->
  error (get_response self question timeout w).1.1 = None
  \/ error (get_response self question timeout w).1.1 = Some "timeout".
Proof.
  intros Hq. apply stripped_has_token in Hq.
  unfold get_response. rewrite _get_cached_response_miss.
  destruct (process_query_returns question w Hq) as (r & w' & Hrun).
  rewrite Hrun. destruct (Qle_bool _ _); [left | by right].
  simpl. by apply process_query_error_none in Hrun.
Qed.

(** X16. [get_response] stores exactly the answers that carry no error:
    such an answer is marked as not cached and is stored under the key of
    the question with the time it was made, and an answer that carries an
    error leaves the service as it was. *)
Theorem get_response_caches_what_it_returns (self : Service) (question : string)
    (timeout : option nat) (w : World) :
  let '(a, self', w') := get_response self question timeout w in
  (error a = None ->
     cached a = Some false
     /\ response_cache self'
        = <[_generate_cache_key question := (a, now w')]> (response_cache self))
  /\ (error a ≠ None -> self' = self).
Proof.
  unfold get_response. rewrite _get_cached_response_miss.
  destruct (_process_query question w) as [[r|e] w1] eqn:Hrun.
  - destruct (Qle_bool _ _); simpl.
    + apply process_query_error_none in Hrun. split; [done|]. intros Hne. by rewrite Hrun in Hne.
    + split; [done|]. done.
  - destruct (Qle_bool _ _); simpl; split; done.
Qed.

End Responses.

Lemma get_response_never_generic_error_witness :
  PyStr.strip "What is NHD?" ≠ EmptyString
  /\ (error (@get_response plain_digest four_hits_store counting_backend llama2_settings
               service0 "What is NHD?" None world0).1.1 = None
      \/ error (@get_response plain_digest four_hits_store counting_backend llama2_settings
                  service0 "What is NHD?" None world0).1.1 = Some "timeout").
Proof.
  split; [vm_compute; discriminate|].
  apply (@get_response_never_generic_error plain_digest four_hits_store counting_backend
           llama2_settings service0 "What is NHD?" None world0).
  vm_compute. discriminate.
Defined.


End ServiceMore.

(** ** Chunking: content, metadata and the shape of Semantic chunks *)

Lemma ends_nonspace_nonempty s : ends_nonspace s = true -> s ≠ EmptyString.
Proof. by destruct s. Qed.

Lemma app_nonempty_r a b : b ≠ EmptyString -> a +:+ b ≠ EmptyString.
Proof. intros Hb. destruct a; [by rewrite app_empty | done]. Qed.

Lemma ends_nonspace_app a b :
  b ≠ EmptyString -> ends_nonspace (a +:+ b) = ends_nonspace b.
Proof.
  intros Hb. induction a as [|c a IH]; [done|].
  rewrite app_cons. cbn [ends_nonspace]. rewrite IH.
  destruct (a +:+ b) eqn:E; [|done].
  destruct a; [by rewrite app_empty in E | discriminate E].
Qed.

Lemma ends_nonspace_rstrip s : ends_nonspace s = true -> PyStr.rstrip s = s.
Proof.
  induction s as [|c r IH]; [done|]. cbn [ends_nonspace PyStr.rstrip].
  destruct r as [|d r'].
  - intros Hc. apply negb_true_iff in Hc. simpl. by rewrite Hc.
  - intros Hr. rewrite (IH Hr). done.
Qed.

Lemma ends_nonspace_lstrip s : ends_nonspace s = true -> ends_nonspace (PyStr.lstrip s) = true.
Proof.
  induction s as [|c r IH]; [done|]. intros He. cbn [PyStr.lstrip].
  destruct (PyStr.isspace c) eqn:Hc; [|exact He].
  apply IH. cbn [ends_nonspace] in He. destruct r; [|done]. by rewrite Hc in He.
Qed.

Lemma ends_nonspace_strip s : ends_nonspace s = true -> PyStr.strip s ≠ EmptyString.
Proof.
  intros He. unfold PyStr.strip. apply ends_nonspace_lstrip in He.
  rewrite ends_nonspace_rstrip by done. by apply ends_nonspace_nonempty.
Qed.

Lemma paragraphs_end_nonspace text :
  Forall (fun p => ends_nonspace p = true) (paragraphs_of text).
Proof.
  unfold paragraphs_of. apply Forall_forall. intros p Hp.
  apply list_elem_of_filter in Hp as [Hne Hin].
  apply list_elem_of_In, in_map_iff in Hin as (x & <- & _).
  unfold PyStr.strip in *. destruct (rstrip_ends (PyStr.lstrip x)) as [E|E]; [done | exact E].
Qed.

Lemma paragraphs_of_nil text : paragraphs_of text = [] <-> has_nonspace text = false.
Proof.
  assert (Hsplit : has_nonspace text = existsb has_nonspace (PyStr.split para_sep text)).
  { rewrite <- (has_nonspace_unsplit para_sep) by done.
    rewrite unsplit_split by done. rewrite has_nonspace_app. simpl. by rewrite orb_false_r. }
  rewrite Hsplit. unfold paragraphs_of. clear Hsplit.
  induction (PyStr.split para_sep text) as [|x l IH]; [done|].
  simpl. rewrite filter_cons. destruct (has_nonspace x) eqn:Hx.
  - apply has_nonspace_strip in Hx. rewrite decide_True by done. simpl. split; done.
  - rewrite decide_False; [exact IH|]. intros Hne. apply strip_nonempty in Hne. congruence.
Qed.

Lemma starts_nonspace_app a b : starts_nonspace a = true -> starts_nonspace (a +:+ b) = true.
Proof. destruct a; [done|]. by rewrite app_cons. Qed.

Lemma starts_nonspace_lstrip s : starts_nonspace s = true -> PyStr.lstrip s = s.
Proof. destruct s as [|c r]; [done|]. simpl. by intros ->%negb_true_iff. Qed.

Lemma strip_fixed s : starts_nonspace s = true -> ends_nonspace s = true -> PyStr.strip s = s.
Proof.
  intros Hs He. unfold PyStr.strip. rewrite starts_nonspace_lstrip by done.
  by apply ends_nonspace_rstrip.
Qed.

Lemma paragraphs_start_nonspace text :
  Forall (fun p => starts_nonspace p = true) (paragraphs_of text).
Proof.
  unfold paragraphs_of. apply Forall_forall. intros p Hp.
  apply list_elem_of_filter in Hp as [Hne Hin].
  apply list_elem_of_In, in_map_iff in Hin as (x & <- & _).
  unfold PyStr.strip in *. destruct (lstrip_head x) as [E|(c & r & E & Hc)].
  - by rewrite E in Hne.
  - rewrite E in *. destruct (rstrip_head c r Hc) as [r' ->]. simpl. by rewrite Hc.
Qed.

Lemma append_paragraph_len cur p :
  String.length cur + String.length p <= String.length (append_paragraph cur p).
Proof.
  unfold append_paragraph. case_bool_decide as Hc.
  - rewrite !len_app. lia.
  - subst cur. simpl. lia.
Qed.

Lemma append_fold_len ps : forall cur,
  String.length cur <= String.length (foldl append_paragraph cur ps).
Proof.
  induction ps as [|p ps IH]; intros cur; simpl; [lia|].
  specialize (IH (append_paragraph cur p)). pose proof (append_paragraph_len cur p). lia.
Qed.

Lemma join_cons_nonempty x l :
  l ≠ [] -> PyStr.join para_sep (x :: l) = x +:+ para_sep +:+ PyStr.join para_sep l.
Proof. by destruct l. Qed.

Lemma append_fold_join ps : forall cur,
  cur ≠ EmptyString -> foldl append_paragraph cur ps = PyStr.join para_sep (cur :: ps).
Proof.
  induction ps as [|p ps IH]; intros cur Hcur; [done|].
  cbn [foldl]. unfold append_paragraph at 2. rewrite bool_decide_eq_true_2 by done.
  rewrite IH by (by apply app_nonempty_r).
  rewrite (join_cons_nonempty cur (p :: ps)) by done.
  destruct ps as [|q ps]; [done|].
  rewrite (join_cons_nonempty _ (q :: ps)) by done.
  rewrite (join_cons_nonempty p (q :: ps)) by done.
  by rewrite !app_assoc_str.
Qed.

Lemma append_fold_paragraphs ps :
  Forall (fun p => p ≠ EmptyString) ps ->
  foldl append_paragraph EmptyString ps = PyStr.join para_sep ps.
Proof.
  destruct ps as [|p ps]; [done|]. intros Hall. apply Forall_inv in Hall.
  cbn [foldl]. unfold append_paragraph at 2. rewrite bool_decide_eq_false_2 by (intros Hc; by apply Hc).
  by apply append_fold_join.
Qed.

Lemma join_ends ps :
  ps ≠ [] -> Forall (fun p => ends_nonspace p = true) ps ->
  ends_nonspace (PyStr.join para_sep ps) = true.
Proof.
  induction ps as [|p ps IH]; [done|]. intros _ Hall.
  apply Forall_cons in Hall as [Hp Hps]. destruct ps as [|q ps]; [done|].
  rewrite join_cons_nonempty by done.
  assert (Hq : ends_nonspace (PyStr.join para_sep (q :: ps)) = true) by (by apply IH).
  rewrite !ends_nonspace_app; [done| by apply ends_nonspace_nonempty |].
  apply app_nonempty_r. by apply ends_nonspace_nonempty.
Qed.

Lemma join_starts ps :
  Forall (fun p => starts_nonspace p = true) ps -> ps ≠ [] ->
  starts_nonspace (PyStr.join para_sep ps) = true.
Proof.
  destruct ps as [|p ps]; [done|]. intros Hall%Forall_inv _.
  destruct ps; [done|]. rewrite join_cons_nonempty by done. by apply starts_nonspace_app.
Qed.

Lemma paragraphs_join_stripped text :
  paragraphs_of text ≠ [] ->
  PyStr.strip (PyStr.join para_sep (paragraphs_of text)) = PyStr.join para_sep (paragraphs_of text).
Proof.
  intros Hne. apply strip_fixed.
  - apply join_starts; [apply paragraphs_start_nonspace | done].
  - apply join_ends; [done | apply paragraphs_end_nonspace].
Qed.

Lemma paragraphs_nonempty text : Forall (fun p => p ≠ EmptyString) (paragraphs_of text).
Proof.
  eapply Forall_impl; [apply paragraphs_end_nonspace|]. intros p. apply ends_nonspace_nonempty.
Qed.

Section SemanticProps.
Context `{Digest} `{FloatRepr}.

Lemma para_sep_nonempty p : para_sep +:+ p ≠ EmptyString.
Proof. done. Qed.

Lemma semantic_step_content self md st p :
  ends_nonspace p = true -> sem_content_inv st -> sem_content_inv (semantic_step self md st p).
Proof.
  intros Hp [Hcur Hchunks]. pose proof (ends_nonspace_nonempty p Hp) as Hpne.
  assert (Hjoin : forall a, ends_nonspace (a +:+ para_sep +:+ p) = true).
  { intros a. rewrite !ends_nonspace_app; [done | done |].
    destruct p; done. }
  unfold semantic_step. destruct (_ && _) eqn:Hemit; split; simpl.
  - right. apply Hjoin.
  - apply andb_true_iff in Hemit as [_ Hne]. apply bool_decide_eq_true in Hne.
    apply Forall_app. split; [done|]. constructor; [|constructor]. simpl.
    apply ends_nonspace_strip. by destruct Hcur.
  - right. case_bool_decide; [apply Hjoin | done].
  - done.
Qed.

Lemma semantic_loop_content self md ps st :
  Forall (fun p => ends_nonspace p = true) ps ->
  sem_content_inv st -> sem_content_inv (foldl (semantic_step self md) st ps).
Proof.
  intros Hps. revert st. induction Hps as [|p ps Hp _ IH]; intros st Hst; [done|].
  simpl. apply IH. by apply semantic_step_content.
Qed.

(** X18. No chunk of the Semantic strategy has empty content. *)
Theorem semantic_chunks_have_content (self : SemanticChunker) (text : string)
    (md : gmap string value) :
  Forall (fun c => content c ≠ EmptyString) (semantic_chunk_text self text md).
Proof.
  unfold semantic_chunk_text.
  destruct (semantic_loop_content self md (paragraphs_of text) (mkSemState [] EmptyString 0))
    as [Hcur Hchunks]; [apply paragraphs_end_nonspace | split; [by left | constructor] |].
  case_bool_decide as Hne; [|done].
  apply Forall_app. split; [done|]. constructor; [|constructor]. simpl.
  apply ends_nonspace_strip. by destruct Hcur.
Qed.

(** a turn of the loop leaves a buffer that is not empty *)
Lemma semantic_step_current self md st p :
  p ≠ EmptyString -> sem_current (semantic_step self md st p) ≠ EmptyString.
Proof.
  intros Hp. unfold semantic_step. destruct (_ && _); simpl.
  - by apply app_nonempty_r.
  - case_bool_decide as Hc; [by apply app_nonempty_r | done].
Qed.

Lemma semantic_nil_paragraphs self text md :
  semantic_chunk_text self text md = [] <-> paragraphs_of text = [].
Proof.
  unfold semantic_chunk_text. split.
  - intros Hnil. destruct (paragraphs_of text) as [|p ps] eqn:E using rev_ind; [done|].
    exfalso. clear IHps. pose proof (paragraphs_end_nonspace text) as Hall.
    rewrite E in Hall. apply Forall_app in Hall as [_ Hp].
    apply Forall_inv, ends_nonspace_nonempty in Hp.
    rewrite foldl_app in Hnil. simpl in Hnil.
    rewrite bool_decide_eq_true_2 in Hnil by (by apply semantic_step_current).
    by destruct (sem_chunks _).
  - intros ->. done.
Qed.
(** X19. The Semantic strategy returns no chunk exactly for a text without
    any character that is not whitespace: the empty text and a blank one. *)
Theorem semantic_no_chunk_iff_blank (self : SemanticChunker) (text : string)
    (md : gmap string value) :
  semantic_chunk_text self text md = [] <-> has_nonspace text = false.
Proof. rewrite semantic_nil_paragraphs. apply paragraphs_of_nil. Qed.

Lemma semantic_loop_fits self md ps : forall st,
  String.length (foldl append_paragraph (sem_current st) ps) <= sc_chunk_size self ->
  foldl (semantic_step self md) st ps
  = mkSemState (sem_chunks st) (foldl append_paragraph (sem_current st) ps) (sem_index st).
Proof.
  induction ps as [|p ps IH]; intros st Hfit; [by destruct st|].
  cbn [foldl] in *.
  pose proof (append_fold_len ps (append_paragraph (sem_current st) p)) as H1.
  pose proof (append_paragraph_len (sem_current st) p) as H2.
  assert (Hstep : semantic_step self md st p
                  = mkSemState (sem_chunks st) (append_paragraph (sem_current st) p) (sem_index st)).
  { unfold semantic_step.
    destruct (Nat.ltb_spec (sc_chunk_size self)
                (String.length (sem_current st) + String.length p)); [lia|]. done. }
  rewrite Hstep. by rewrite IH.
Qed.

(** X20. A text with a paragraph in it whose paragraphs, stripped and
    joined by blank lines, fit in [chunk_size] becomes one Semantic chunk:
    its content is that join, its index 0 and its recorded size the length
    of the join. *)
Theorem semantic_fitting_text_one_chunk (self : SemanticChunker) (text : string)
    (md : gmap string value) :
  paragraphs_of text ≠ [] ->
  String.length (PyStr.join para_sep (paragraphs_of text)) <= sc_chunk_size self ->
  semantic_chunk_text self text md
  = [mkChunk (PyStr.join para_sep (paragraphs_of text))
       (chunk_metadata_of md 0 (String.length (PyStr.join para_sep (paragraphs_of text)))
          "semantic")
       (make_chunk_id md 0 (PyStr.join para_sep (paragraphs_of text)))].
Proof.
  intros Hne Hfit. unfold semantic_chunk_text.
  rewrite semantic_loop_fits; simpl;
    rewrite (append_fold_paragraphs _ (paragraphs_nonempty text)); [|done].
  rewrite bool_decide_eq_true_2.
  - unfold semantic_emit. by rewrite paragraphs_join_stripped.
  - apply ends_nonspace_nonempty, join_ends; [done | apply paragraphs_end_nonspace].
Qed.

Lemma semantic_step_no_overlap self md st p :
  sc_chunk_overlap self = 0 ->
  sem_current (semantic_step self md st p) = append_paragraph (sem_current st) p.
Proof.
  intros Hz. unfold semantic_step, append_paragraph. rewrite Hz.
  destruct (_ && _) eqn:Hemit; simpl; [|done].
  apply andb_true_iff in Hemit as [_ Hc]. rewrite Hc.
  by destruct (0 <? _).
Qed.

Lemma semantic_loop_no_overlap self md ps : forall st,
  sc_chunk_overlap self = 0 ->
  sem_current (foldl (semantic_step self md) st ps)
  = foldl append_paragraph (sem_current st) ps.
Proof.
  induction ps as [|p ps IH]; intros st Hz; [done|].
  cbn [foldl]. rewrite IH by done. by rewrite semantic_step_no_overlap.
Qed.

(** X21. With [chunk_overlap = 0] the slice [current_chunk[-0:]] is the
    whole buffer, so nothing is dropped at a split: whatever [chunk_size]
    is, the last Semantic chunk holds every paragraph of the text. *)
Theorem semantic_zero_overlap_keeps_all (self : SemanticChunker) (text : string)
    (md : gmap string value) :
  sc_chunk_overlap self = 0 -> paragraphs_of text ≠ [] ->
  exists c, last (semantic_chunk_text self text md) = Some c
    /\ content c = PyStr.join para_sep (paragraphs_of text).
Proof.
  intros Hz Hne. unfold semantic_chunk_text.
  pose proof (semantic_loop_no_overlap self md (paragraphs_of text)
                (mkSemState [] EmptyString 0) Hz) as Hcur.
  simpl in Hcur. rewrite (append_fold_paragraphs _ (paragraphs_nonempty text)) in Hcur.
  rewrite Hcur. rewrite bool_decide_eq_true_2.
  - eexists. rewrite last_snoc. split; [done|]. simpl. by apply paragraphs_join_stripped.
  - apply ends_nonspace_nonempty, join_ends; [done | apply paragraphs_end_nonspace].
Qed.
End SemanticProps.

Lemma semantic_fitting_text_one_chunk_witness :
  paragraphs_of three_paragraphs ≠ []
  /\ String.length (PyStr.join para_sep (paragraphs_of three_paragraphs)) <= 100
  /\ @semantic_chunk_text plain_digest plain_float_repr
       (mkSemanticChunker 100 20) three_paragraphs ∅
     = [mkChunk (PyStr.join para_sep (paragraphs_of three_paragraphs))
          (chunk_metadata_of ∅ 0
             (String.length (PyStr.join para_sep (paragraphs_of three_paragraphs))) "semantic")
          (@make_chunk_id plain_digest plain_float_repr ∅ 0
             (PyStr.join para_sep (paragraphs_of three_paragraphs)))].
Proof.
  assert (H1 : paragraphs_of three_paragraphs ≠ []) by (vm_compute; discriminate).
  assert (H2 : String.length (PyStr.join para_sep (paragraphs_of three_paragraphs)) <= 100).
  { apply Nat.leb_le. vm_compute. reflexivity. }
  split; [exact H1|]. split; [exact H2|].
  exact (@semantic_fitting_text_one_chunk plain_digest plain_float_repr
           (mkSemanticChunker 100 20) three_paragraphs ∅ H1 H2).
Defined.

Lemma semantic_zero_overlap_keeps_all_witness :
  sc_chunk_overlap (mkSemanticChunker 10 0) = 0
  /\ paragraphs_of three_paragraphs ≠ []
  /\ exists c,
       last (@semantic_chunk_text plain_digest plain_float_repr
               (mkSemanticChunker 10 0) three_paragraphs ∅) = Some c
       /\ content c = PyStr.join para_sep (paragraphs_of three_paragraphs).
Proof.
  assert (H1 : paragraphs_of three_paragraphs ≠ []) by (vm_compute; discriminate).
  split; [reflexivity|]. split; [exact H1|].
  exact (@semantic_zero_overlap_keeps_all plain_digest plain_float_repr
           (mkSemanticChunker 10 0) three_paragraphs ∅ eq_refl H1).
Defined.

Section Metadata.
Context `{Digest} `{TextSplitter} `{FloatRepr}.

Lemma chunk_metadata_carries md i size strategy text id :
  carries md strategy (mkChunk text (chunk_metadata_of md i size strategy) id).
Proof.
  unfold carries, chunk_metadata_of. simpl. split; [apply lookup_insert_eq|].
  intros key Hk1 Hk2 Hk3. by rewrite !lookup_insert_ne.
Qed.

Lemma recursive_carries self text md :
  Forall (carries md "recursive") (recursive_chunk_text self text md).
Proof.
  unfold recursive_chunk_text.
  generalize (split_text (rc_chunk_size self) (rc_chunk_overlap self) text).
  intros l. assert (G : forall (f : nat -> string -> Chunk),
    (forall i x, carries md "recursive" (f i x)) -> Forall (carries md "recursive") (imap f l)).
  { induction l as [|x l IH]; intros f Hf; [constructor|].
    simpl. constructor; [apply Hf | apply IH; intros; apply Hf]. }
  apply G. intros. apply chunk_metadata_carries.
Qed.

Lemma semantic_carries self text md :
  Forall (carries md "semantic") (semantic_chunk_text self text md).
Proof.
  unfold semantic_chunk_text.
  assert (G : forall ps st, Forall (carries md "semantic") (sem_chunks st) ->
    Forall (carries md "semantic") (sem_chunks (foldl (semantic_step self md) st ps))).
  { induction ps as [|p ps IH]; intros st Hst; [done|].
    simpl. apply IH. unfold semantic_step. destruct (_ && _); simpl; [|done].
    apply Forall_app. split; [done|]. constructor; [|constructor].
    apply chunk_metadata_carries. }
  specialize (G (paragraphs_of text) (mkSemState [] EmptyString 0) ltac:(constructor)).
  case_bool_decide; [|done]. apply Forall_app. split; [done|].
  constructor; [|constructor]. apply chunk_metadata_carries.
Qed.

Lemma tag_hybrid_carries md strategy c :
  carries md strategy c -> carries md "hybrid" (tag_hybrid c).
Proof.
  intros [_ Hkeys]. unfold carries, tag_hybrid. simpl. split; [apply lookup_insert_eq|].
  intros key Hk1 Hk2 Hk3. rewrite lookup_insert_ne by done. by apply Hkeys.
Qed.

Lemma carries_trans md strategy strategy' c c' :
  carries md strategy c -> carries (metadata c) strategy' c' -> carries md strategy' c'.
Proof.
  intros [_ Hc] [Htag Hc']. split; [done|]. intros key Hk1 Hk2 Hk3.
  rewrite Hc' by done. by apply Hc.
Qed.

Lemma hybrid_carries self text md :
  Forall (carries md "hybrid") (hybrid_chunk_text self text md).
Proof.
  unfold hybrid_chunk_text. apply Forall_concat. apply Forall_map.
  eapply Forall_impl; [apply (semantic_carries (semantic_chunker self) text md)|].
  intros c Hc. unfold hybrid_step. destruct (oversized self c).
  - apply Forall_map.
    eapply Forall_impl; [apply (recursive_carries (recursive_chunker self) (content c) (metadata c))|].
    intros c' Hc'. simpl. eapply tag_hybrid_carries, carries_trans; done.
  - constructor; [|constructor]. by eapply tag_hybrid_carries.
Qed.
(** X22. Every chunk of the Hybrid strategy names the strategy ["hybrid"]
    and has every key of the metadata the text came with, the index and the
    size of the chunk apart, whether the chunk comes from the Semantic pass
    or from the recursive splitting of an oversized chunk. *)
Theorem hybrid_chunks_carry_metadata (self : HybridChunker) (text : string)
    (md : gmap string value) :
  Forall (carries md "hybrid") (hybrid_chunk_text self text md).
Proof. apply hybrid_carries. Qed.

End Metadata.

Section DedupCount.
Context `{Digest}.

Lemma is_duplicate_size {T} (self : DocumentProcessor T) text :
  size (processed_hashes (snd (is_duplicate self text)))
  = size (processed_hashes self) + (if fst (is_duplicate self text) then 0 else 1).
Proof.
  unfold is_duplicate. case_bool_decide; simpl; [lia|].
  rewrite size_union by set_solver. rewrite size_singleton. lia.
Qed.

Lemma is_duplicate_calls_size {T} (texts : list string) (self : DocumentProcessor T) :
  size (processed_hashes (snd (is_duplicate_calls self texts)))
  = size (processed_hashes self)
    + length (filter (fun b => b = false) (fst (is_duplicate_calls self texts))).
Proof.
  revert self. induction texts as [|t texts IH]; intros self; simpl; [lia|].
  pose proof (is_duplicate_size self t) as Hs.
  destruct (is_duplicate self t) as [b self1]. simpl in Hs.
  specialize (IH self1). destruct (is_duplicate_calls self1 texts) as [bs self2].
  simpl in *. rewrite IH, Hs. rewrite filter_cons. destruct b; simpl.
  - lia.
  - simpl. lia.
Qed.

(** X23. After any sequence of calls of [is_duplicate] on a new processor,
    the number of hashes it has stored, which [get_processing_stats] reports
    as the processed documents, is the number of calls answered [False]. *)
Theorem processed_count_is_accepted_count {T} (strategy : T) (texts : list string) :
  size (processed_hashes (snd (is_duplicate_calls (new_DocumentProcessor strategy) texts)))
  = length (filter (fun b => b = false)
                   (fst (is_duplicate_calls (new_DocumentProcessor strategy) texts))).
Proof. rewrite is_duplicate_calls_size. reflexivity. Qed.
End DedupCount.

(** ** Files: validation, extraction and the processing of a document *)

Lemma rsplit_char_app c s before after :
  OsPath.rsplit_char c s = Some (before, after) -> s = before +:+ String c after.
Proof.
  revert before. induction s as [|a r IH]; intros before; simpl; [done|].
  destruct (OsPath.rsplit_char c r) as [[b' a']|].
  - intros [= <- <-]. rewrite app_cons. f_equal. by apply IH.
  - destruct (Ascii.eqb a c) eqn:E; [|done]. apply Ascii.eqb_eq in E. subst a.
    by intros [= <- <-].
Qed.

Lemma split_last_sep_app p : fst (OsPath.split_last_sep p) +:+ snd (OsPath.split_last_sep p) = p.
Proof.
  unfold OsPath.split_last_sep. destruct (OsPath.rsplit_char "/" p) as [[b a]|] eqn:E; simpl.
  - apply rsplit_char_app in E. rewrite E. rewrite app_assoc_str. reflexivity.
  - reflexivity.
Qed.

Lemma splitext_app p : fst (OsPath.splitext p) +:+ snd (OsPath.splitext p) = p.
Proof.
  unfold OsPath.splitext. pose proof (split_last_sep_app p) as Hp.
  destruct (OsPath.split_last_sep p) as [head tail]. simpl in Hp.
  destruct (OsPath.rsplit_char "." tail) as [[stem ext]|] eqn:E; simpl.
  - destruct (OsPath.all_dots stem); simpl; [apply app_empty_r|].
    apply rsplit_char_app in E. rewrite app_assoc_str, <- E. exact Hp.
  - apply app_empty_r.
Qed.

Section FilesProps.
Context `{Digest} `{TextSplitter} `{FloatRepr} `{FileSystem}.

(** X24. A file that [validate_file] accepts exists, has a size within the
    limit of the processor, and has a name that ends, whatever the case of
    its letters, in one of the supported extensions; [extract_text] then
    finds a loader for it, so it returns no text only when the loader
    raises. *)
Theorem validated_file_is_loadable {T} (self : FileProcessor T) (file_path : string) :
  validate_file self file_path = true ->
  path_exists file_path = true
  /\ (exists file_size, getsize file_path = Ok file_size
                        /\ file_size <= max_file_size_bytes self)
  /\ (exists stem ext, PyStr.lower file_path = stem +:+ ext /\ ext ∈ SUPPORTED_EXTENSIONS)
  /\ (extract_text file_path = None ->
      (exists e, load_pdf file_path = Raised e) \/ (exists e, load_text file_path = Raised e)).
Proof.
  unfold validate_file. destruct (path_exists file_path); simpl; [|done].
  destruct (getsize file_path) as [file_size|e]; [|done].
  destruct (Nat.ltb_spec (max_file_size_bytes self) file_size); [done|].
  intros Hext. apply bool_decide_eq_true in Hext.
  split; [done|]. split; [exists file_size; split; [done|lia]|]. split.
  - eexists _, _. split; [symmetry; apply splitext_app|done].
  - unfold extract_text. case_bool_decide as Hpdf.
    + destruct (load_pdf file_path); [done|]. intros _. left. by eexists.
    + case_bool_decide as Htxt.
      * destruct (load_text file_path); [done|]. intros _. right. by eexists.
      * exfalso. unfold SUPPORTED_EXTENSIONS in Hext.
        apply elem_of_cons in Hext as [Hext|Hext]; [done|]. by apply Htxt.
Qed.

Lemma is_duplicate_registers {T} (self : DocumentProcessor T) text :
  generate_content_hash text ∈ processed_hashes (snd (is_duplicate self text)).
Proof. unfold is_duplicate. case_bool_decide; simpl; [done|set_solver]. Qed.

Lemma is_duplicate_known {T} (self : DocumentProcessor T) text :
  generate_content_hash text ∈ processed_hashes self -> is_duplicate self text = (true, self).
Proof. intros Hin. unfold is_duplicate. by rewrite bool_decide_eq_true_2. Qed.

Lemma validate_file_same_limit {T} (self self' : FileProcessor T) file_path :
  max_file_size_bytes self' = max_file_size_bytes self ->
  validate_file self' file_path = validate_file self file_path.
Proof. intros E. unfold validate_file. by rewrite E. Qed.

(** X25. Processing the same file a second time, while the file system
    stays as it is, returns no chunk and leaves the processor unchanged:
    either the first call stopped before the duplicate check, and so does
    the second, or the first call stored the hash of the text, and the second
    finds it. *)
Theorem process_document_repeat_skipped {T} `{ChunkingStrategy T}
    (self : FileProcessor T) (file_path : string) (first_time second_time : Q) :
  process_document (snd (process_document self file_path first_time)) file_path second_time
  = ([], snd (process_document self file_path first_time)).
Proof.
  assert (Hcases :
    (forall t, process_document self file_path t = ([], self))
    \/ exists p text, snd (process_document self file_path first_time)
                      = mkFileProcessor p (max_file_size_bytes self)
        /\ validate_file self file_path = true
        /\ extract_text file_path = Some text /\ text <> EmptyString
        /\ generate_content_hash text ∈ processed_hashes p).
  { unfold process_document.
    destruct (validate_file self file_path) eqn:Hv; simpl; [|by left].
    destruct (extract_text file_path) as [text|] eqn:Ht; [|by left].
    case_bool_decide as Hempty; [by left|].
    pose proof (is_duplicate_registers (processor self) text) as Hreg.
    destruct (is_duplicate (processor self) text) as [dup p]. simpl in Hreg.
    right. exists p, text. by destruct dup. }
  destruct Hcases as [Hskip|(p & text & -> & Hv & Ht & Hne & Hreg)].
  - by rewrite !Hskip.
  - unfold process_document.
    rewrite (validate_file_same_limit self) by done. rewrite Hv, Ht. simpl.
    rewrite bool_decide_eq_false_2 by done. simpl.
    by rewrite (is_duplicate_known p text Hreg).
Qed.

Lemma extract_metadata_filename file_path current_time :
  extract_metadata file_path current_time !! "filename" = Some (VStr (OsPath.basename file_path)).
Proof. unfold extract_metadata. destruct (stat file_path); apply lookup_insert_eq. Qed.

(** X26. With the Hybrid strategy, every chunk [process_document] returns
    comes from a text that was extracted from the file and whose hash was not
    stored before and is stored now; the chunk carries that hash under
    ['content_hash'], the base name of the path under ['filename'] and the
    strategy name ["hybrid"]. *)
Theorem process_document_chunks_provenance (self : FileProcessor HybridChunker)
    (file_path : string) (current_time : Q) (c : Chunk) :
  c ∈ fst (process_document self file_path current_time) ->
  exists text,
    extract_text file_path = Some text
    /\ (generate_content_hash text ∉ processed_hashes (processor self))
    /\ processed_hashes (processor (snd (process_document self file_path current_time)))
       = {[generate_content_hash text]} ∪ processed_hashes (processor self)
    /\ metadata c !! "content_hash" = Some (VStr (generate_content_hash text))
    /\ metadata c !! "filename" = Some (VStr (OsPath.basename file_path))
    /\ metadata c !! "chunking_strategy" = Some (VStr "hybrid").
Proof.
  unfold process_document.
  destruct (validate_file self file_path); simpl; [|by intros ?%elem_of_nil].
  destruct (extract_text file_path) as [text|]; [|by intros ?%elem_of_nil].
  case_bool_decide as Hempty; [by intros ?%elem_of_nil|].
  unfold is_duplicate. case_bool_decide as Hdup; simpl; [by intros ?%elem_of_nil|].
  intros Hc. exists text. split; [done|]. split; [done|]. split; [done|].
  pose proof (hybrid_carries (chunking_strategy (processor self)) text
    (<["content_hash" := VStr (generate_content_hash text)]>
       (extract_metadata file_path current_time))) as Hall.
  rewrite Forall_forall in Hall. destruct (Hall c Hc) as [Htag Hkeys].
  split; [|split; [|done]].
  - rewrite Hkeys by done. apply lookup_insert_eq.
  - rewrite Hkeys by done. rewrite lookup_insert_ne by done. apply extract_metadata_filename.
Qed.

End FilesProps.

Lemma validated_file_is_loadable_witness :
  @validate_file guide_fs _ (new_FileProcessor (new_HybridChunker 1000 200) 10) "docs/Guide.MD"
  = true
  /\ @path_exists guide_fs "docs/Guide.MD" = true
  /\ (exists file_size, @getsize guide_fs "docs/Guide.MD" = Ok file_size
         /\ file_size <= max_file_size_bytes (new_FileProcessor (new_HybridChunker 1000 200) 10))
  /\ (exists stem ext, PyStr.lower "docs/Guide.MD" = stem +:+ ext /\ ext ∈ SUPPORTED_EXTENSIONS)
  /\ (@extract_text guide_fs "docs/Guide.MD" = None ->
      (exists e, @load_pdf guide_fs "docs/Guide.MD" = Raised e)
      \/ (exists e, @load_text guide_fs "docs/Guide.MD" = Raised e)).
Proof.
  assert (Hv : @validate_file guide_fs _ (new_FileProcessor (new_HybridChunker 1000 200) 10)
                 "docs/Guide.MD" = true) by (vm_compute; reflexivity).
  split; [exact Hv|].
  exact (@validated_file_is_loadable guide_fs _
           (new_FileProcessor (new_HybridChunker 1000 200) 10) "docs/Guide.MD" Hv).
Defined.

Lemma process_document_chunks_provenance_witness :
  exists c,
    c ∈ fst (@process_document plain_digest guide_fs _
               (@HybridChunker_strategy plain_digest window_splitter plain_float_repr)
               (new_FileProcessor (new_HybridChunker 1000 200) 10) "docs/Guide.MD" 7)
    /\ metadata c !! "content_hash"
       = Some (VStr ("First part." +:+ para_sep +:+ "Second part."))
    /\ metadata c !! "filename" = Some (VStr "Guide.MD").
Proof.
  assert (Hlen : length (fst (@process_document plain_digest guide_fs _
               (@HybridChunker_strategy plain_digest window_splitter plain_float_repr)
               (new_FileProcessor (new_HybridChunker 1000 200) 10) "docs/Guide.MD" 7)) = 1)
    by (vm_compute; reflexivity).
  destruct (fst (@process_document plain_digest guide_fs _
               (@HybridChunker_strategy plain_digest window_splitter plain_float_repr)
               (new_FileProcessor (new_HybridChunker 1000 200) 10) "docs/Guide.MD" 7))
    as [|c rest] eqn:E; [discriminate Hlen|].
  assert (Hc : c ∈ fst (@process_document plain_digest guide_fs _
               (@HybridChunker_strategy plain_digest window_splitter plain_float_repr)
               (new_FileProcessor (new_HybridChunker 1000 200) 10) "docs/Guide.MD" 7)).
  { rewrite E. left. }
  destruct (@process_document_chunks_provenance plain_digest window_splitter plain_float_repr
              guide_fs (new_FileProcessor (new_HybridChunker 1000 200) 10)
              "docs/Guide.MD" 7 c Hc) as (text & Ht & _ & _ & Hhash & Hname & _).
  exists c. split; [left|]. injection Ht as <-. split; [exact Hhash | exact Hname].
Defined.

(** ** The rate limit *)

Lemma later_than_app m l1 l2 : later_than m (l1 ++ l2) = later_than m l1 ++ later_than m l2.
Proof. apply List.filter_app. Qed.

Lemma later_than_twice lo m l : (lo <= m)%Q -> later_than m (later_than lo l) = later_than m l.
Proof.
  intros Hle. induction l as [|t l IH]; [done|]. simpl.
  destruct (Qle_bool t lo) eqn:E1; simpl.
  - rewrite IH. destruct (Qle_bool t m) eqn:E2; [done|].
    apply Qle_bool_iff in E1. assert (t <= m)%Q by lra.
    apply Qle_bool_iff in H. congruence.
  - destruct (Qle_bool t m); simpl; by rewrite IH.
Qed.

Lemma recent_of_app a m acc1 acc2 :
  recent_of a m (acc1 ++ acc2) = recent_of a m acc1 ++ recent_of a m acc2.
Proof. unfold recent_of. rewrite List.filter_app, map_app. apply later_than_app. Qed.

Lemma check_rate_limit_window limit requests : forall request_count accepted lo,
  agree lo request_count accepted ->
  Forall (fun r => lo <= snd r - 60)%Q requests ->
  clock_order requests ->
  fst (check_rate_limit_calls limit requests request_count)
  = window_answers limit requests accepted.
Proof.
  induction requests as [|[a t] rest IH]; intros rc acc lo Hag Hlo Hord; [done|].
  simpl. inversion Hlo as [|? ? Hlo1 Hlo2]; subst. simpl in Hlo1.
  inversion Hord as [|? ? Hord1 Hord2]; subst.
  assert (Hrest : Forall (fun r => t - 60 <= snd r - 60)%Q rest).
  { apply Forall_forall. intros r Hr. rewrite List.Forall_forall in Hord2.
    assert (t <= snd r)%Q; [|lra].
    apply Hord2, in_map. by apply list_elem_of_In. }
  unfold check_rate_limit.
  pose proof (Hag a (t - 60)%Q Hlo1) as Hnow. unfold later_than, stored in Hnow.
  rewrite Hnow.
  destruct (limit <=? _)%Z eqn:Hfull.
  - specialize (IH (<[a := recent_of a (t - 60)%Q acc]> rc) acc (t - 60)%Q).
    destruct (check_rate_limit_calls limit rest _) as [bs rc']. simpl in *.
    f_equal. apply IH; [|done|done].
    intros a' m Hm. unfold stored. destruct (decide (a' = a)) as [->|Hne].
    + rewrite lookup_insert_eq. simpl. rewrite <- Hnow.
      fold (later_than (t - 60) (default [] (rc !! a))).
      rewrite later_than_twice by done. apply Hag. lra.
    + rewrite lookup_insert_ne by done. apply Hag. lra.
  - specialize (IH (<[a := recent_of a (t - 60)%Q acc ++ [t]]> rc) (acc ++ [(a, t)]) (t - 60)%Q).
    destruct (check_rate_limit_calls limit rest _) as [bs rc']. simpl in *.
    f_equal. apply IH; [|done|done].
    intros a' m Hm. unfold stored. rewrite recent_of_app.
    destruct (decide (a' = a)) as [->|Hne].
    + rewrite lookup_insert_eq. simpl. rewrite later_than_app. f_equal.
      * rewrite <- Hnow. fold (later_than (t - 60) (default [] (rc !! a))).
        rewrite later_than_twice by done. apply Hag. lra.
      * unfold recent_of. simpl. by rewrite bool_decide_eq_true_2.
    + rewrite lookup_insert_ne by done. unfold recent_of at 2. simpl.
      rewrite bool_decide_eq_false_2 by (simpl; congruence). simpl.
      rewrite app_nil_r. apply Hag. lra.
Qed.

(** X27. From an empty dictionary and with a clock that does not run
    backwards, [check_rate_limit] answers as the sliding window over the
    whole history does: dropping the times that are a minute old loses
    nothing, and a request passes exactly when fewer than [limit_per_minute]
    requests of its address passed in the sixty seconds before it. *)
Theorem rate_limit_is_sliding_window (limit_per_minute : Z) (requests : list (string * Q)) :
  clock_order requests ->
  fst (check_rate_limit_calls limit_per_minute requests ∅)
  = window_answers limit_per_minute requests [].
Proof.
  intros Hord. destruct requests as [|[a t] rest]; [done|].
  apply (check_rate_limit_window _ _ _ _ (t - 60)%Q); [|  |done].
  - intros a' m _. unfold stored. by rewrite lookup_empty.
  - constructor; [simpl; lra|]. inversion Hord as [|? ? _ Hall]; subst.
    apply Forall_forall. intros r Hr. rewrite List.Forall_forall in Hall.
    assert (t <= snd r)%Q; [|lra]. apply Hall, in_map. by apply list_elem_of_In.
Qed.

Lemma rate_limit_is_sliding_window_witness :
  clock_order five_requests
  /\ fst (check_rate_limit_calls 2 five_requests ∅) = [true; true; true; false; true]
  /\ fst (check_rate_limit_calls 2 five_requests ∅) = window_answers 2 five_requests [].
Proof.
  assert (Hord : clock_order five_requests).
  { unfold clock_order, five_requests. simpl.
    repeat (constructor; [| repeat constructor; unfold Qle; simpl; lia]). constructor. }
  split; [exact Hord|]. split; [vm_compute; reflexivity|].
  exact (rate_limit_is_sliding_window 2 five_requests Hord).
Defined.

Lemma later_than_length lo m l :
  (lo <= m)%Q -> length (later_than m l) <= length (later_than lo l).
Proof.
  intros Hle. rewrite <- (later_than_twice lo m l Hle). apply List.filter_length_le.
Qed.

Lemma in_minute_after_app a m acc1 acc2 :
  in_minute_after a m (acc1 ++ acc2) = in_minute_after a m acc1 ++ in_minute_after a m acc2.
Proof. unfold in_minute_after. by rewrite recent_of_app, List.filter_app. Qed.

Lemma window_answers_bounded limit requests : forall accepted,
  window_bounded limit accepted ->
  window_bounded limit (accepted ++ accepted_of requests (window_answers limit requests accepted)).
Proof.
  induction requests as [|[a t] rest IH]; intros acc Hb; simpl.
  { by rewrite app_nil_r. }
  destruct (limit <=? _)%Z eqn:Hfull; simpl.
  - by apply IH.
  - rewrite cons_middle, (assoc_L (++)). apply IH. clear IH.
    apply Z.leb_gt in Hfull. intros a' m. rewrite in_minute_after_app, length_app.
    unfold in_minute_after at 2, recent_of. simpl.
    case_bool_decide as Ha; simpl.
    2: { specialize (Hb a' m). simpl. lia. }
    destruct (Qle_bool t m) eqn:E1; simpl.
    { specialize (Hb a' m). lia. }
    destruct (Qle_bool t (m + 60)) eqn:E2; simpl.
    2: { specialize (Hb a' m). lia. }
    apply Qle_bool_iff in E2. assert (Hm : (t - 60 <= m)%Q) by lra.
    pose proof (List.filter_length_le (fun req_time => Qle_bool req_time (m + 60))
                  (recent_of a' m acc)) as H1.
    fold (in_minute_after a' m acc) in H1.
    pose proof (later_than_length (t - 60) m
                  (map snd (List.filter (fun r => bool_decide (fst r = a')) acc)) Hm) as H2.
    fold (recent_of a' m acc) in H2. fold (recent_of a' (t - 60) acc) in H2.
    simpl in Ha. subst a'. unfold in_minute_after, recent_of, later_than in *. lia.
Qed.

(** X28. With a limit that is not negative and a clock that does not run
    backwards, the requests [check_rate_limit] lets through, from an empty
    dictionary, never count more than [limit_per_minute] for one address in
    any sixty seconds. *)
Theorem rate_limit_never_exceeded (limit_per_minute : Z) (requests : list (string * Q)) :
  clock_order requests -> (0 <= limit_per_minute)%Z ->
  forall remote_addr start,
    (Z.of_nat (length (in_minute_after remote_addr start
        (accepted_of requests (fst (check_rate_limit_calls limit_per_minute requests ∅)))))
     <= limit_per_minute)%Z.
Proof.
  intros Hord Hlim.
  assert (Heq : fst (check_rate_limit_calls limit_per_minute requests ∅)
                = window_answers limit_per_minute requests []).
  { destruct requests as [|[a t] rest]; [done|].
    apply (check_rate_limit_window _ _ _ _ (t - 60)%Q); [|  |done].
    - intros a' m _. unfold stored. by rewrite lookup_empty.
    - constructor; [simpl; lra|]. inversion Hord as [|? ? _ Hall]; subst.
      apply Forall_forall. intros r Hr. rewrite List.Forall_forall in Hall.
      assert (t <= snd r)%Q; [|lra]. apply Hall, in_map. by apply list_elem_of_In. }
  rewrite Heq.
  apply (window_answers_bounded limit_per_minute requests []).
  intros a m. simpl. lia.
Qed.

Lemma rate_limit_never_exceeded_witness :
  clock_order five_requests /\ (0 <= 2)%Z
  /\ forall remote_addr start,
      (Z.of_nat (length (in_minute_after remote_addr start
          (accepted_of five_requests (fst (check_rate_limit_calls 2 five_requests ∅)))))
       <= 2)%Z.
Proof.
  assert (Hord : clock_order five_requests).
  { unfold clock_order, five_requests. simpl.
    repeat (constructor; [| repeat constructor; unfold Qle; simpl; lia]). constructor. }
  assert (Hlim : (0 <= 2)%Z) by lia.
  split; [exact Hord|]. split; [exact Hlim|].
  exact (rate_limit_never_exceeded 2 five_requests Hord Hlim).
Defined.

(** ** The model at work *)

Example split_ws_ex :
  PyStr.split_ws "  NHD vs
 USGS " = ["NHD"; "vs"; "USGS"].
Proof. reflexivity. Qed.

Example split_ex :
  PyStr.split ". " "a. b.. c. " = ["a"; "b."; "c"; EmptyString].
Proof. reflexivity. Qed.

Example strip_ex : PyStr.strip "  a b  " = "a b".
Proof. reflexivity. Qed.

Example collapse_ex : PyStr.collapse_ws false "a  b 	c" = "a b c".
Proof. reflexivity. Qed.

Example lower_ex : PyStr.lower "NHD vs USGS" = "nhd vs usgs".
Proof. reflexivity. Qed.

Example of_nat_ex : PyStr.of_nat 12 = "12" /\ PyStr.of_nat 0 = "0".
Proof. split; reflexivity. Qed.

Example take_last_ex :
  PyStr.take_last 2 "abcd" = "cd" /\ PyStr.take_last 0 "abcd" = "abcd".
Proof. split; reflexivity. Qed.

Example preprocess_ex :
  VectorStore._preprocess_query "  What   is NHD and GIS?  "
  = "What is NHD and GIS? National Hydrography Dataset Geographic Information System".
Proof. reflexivity. Qed.

Example threshold_ex :
  VectorStore._get_adaptive_threshold "NHD vs USGS" 0.15 = 0.1%Q
  /\ VectorStore._get_adaptive_threshold "short one" 0.15 = 0.05%Q
  /\ VectorStore._get_adaptive_threshold long_query 0.15 = 0.15%Q.
Proof. repeat split; vm_compute; reflexivity. Qed.

(** The ranked search on four candidates at distances 0.2 to 0.5: with
    [k = 2] the two best are kept, with their relevance rounded to three
    digits. *)
Example similarity_search_ex :
  map (fun h => (hit_content h, VectorStore.relevance_key h))
      (@VectorStore.similarity_search four_hits_index "What is NHD?" 2 0.15%Q)
  = [("NHD is the National Hydrography Dataset.", 0.833%Q);
     ("USGS maintains the NHD.", 0.700%Q)].
Proof. vm_compute. reflexivity. Qed.

(** A query without a token makes the relevance computation raise; the
    search falls back to the basic search of the index. *)
Example similarity_search_fallback_ex :
  @VectorStore.similarity_search four_hits_index "   " 7 0.15%Q = [].
Proof. vm_compute. reflexivity. Qed.

Example semantic_ex :
  map content (@semantic_chunk_text plain_digest plain_float_repr
                 (mkSemanticChunker 10 2) three_paragraphs ∅)
  = ["aaaa"; "aa" +:+ para_sep +:+ "bbbbbbbbbbbbbbbbbbbb"; "bb" +:+ para_sep +:+ "cc"].
Proof. vm_compute. reflexivity. Qed.

(** The Hybrid numbering on the three paragraphs, with the window splitter. *)
Example hybrid_ex :
  map chunk_index_of
      (@hybrid_chunk_text plain_digest window_splitter plain_float_repr
         (new_HybridChunker 10 2) three_paragraphs ∅)
  = [Some (VInt 0); Some (VInt 0); Some (VInt 1); Some (VInt 2); Some (VInt 2)].
Proof. vm_compute. reflexivity. Qed.

Example truncate_ex :
  LLMService._intelligent_truncate
    "Hello world. This is a long sentence without end and more" 20
  = "Hello world...."
  /\ LLMService._intelligent_truncate "Helloworldthisisalongsentencewithoutend" 20
     = "Helloworldthisisa...".
Proof. split; reflexivity. Qed.

Example is_duplicate_ex :
  fst (@is_duplicate_calls plain_digest _ (new_DocumentProcessor tt)
         ["a"; "b"; "a"; "c"; "b"])
  = [false; false; true; false; true].
Proof. vm_compute. reflexivity. Qed.

(** [os.path.splitext] and [os.path.basename]: the extension is what follows
    the last dot of the last component, and a name of dots only, or one that
    starts with its only dot, has none. *)
Example splitext_ex :
  OsPath.splitext "docs/v1.2/guide.final.pdf" = ("docs/v1.2/guide.final", ".pdf")
  /\ OsPath.splitext "docs.d/readme" = ("docs.d/readme", EmptyString)
  /\ OsPath.splitext "notes/.hidden" = ("notes/.hidden", EmptyString)
  /\ OsPath.basename "docs/v1.2/guide.final.pdf" = "guide.final.pdf".
Proof. repeat split; reflexivity. Qed.

(** Of four documents, two with the same content, three are kept, and the
    second of the pair is the one dropped. *)
Example remove_duplicates_ex :
  map (fun d => (page_content d, doc_metadata d !! "page"))
      (@_remove_duplicates plain_digest four_documents)
  = [("alpha", None); ("beta", Some (VInt 1)); ("gamma", None)].
Proof. vm_compute. reflexivity. Qed.

(** With a limit of two requests a minute, the third request of an address
    within the minute is turned away, and the next one after the minute has
    passed is let through. *)
Example check_rate_limit_ex :
  fst (check_rate_limit_calls 2 five_requests ∅) = [true; true; true; false; true].
Proof. vm_compute. reflexivity. Qed.

(** The file of the stand-in file system yields one chunk, and none when it
    is processed again. *)
Example process_document_ex :
  let '(chunks, self) :=
    @process_document plain_digest guide_fs _
      (@HybridChunker_strategy plain_digest window_splitter plain_float_repr)
      (new_FileProcessor (new_HybridChunker 1000 200) 10) "docs/Guide.MD" 7 in
  map content chunks = ["First part." +:+ para_sep +:+ "Second part."]
  /\ processed_documents self = 1
  /\ fst (@process_document plain_digest guide_fs _
            (@HybridChunker_strategy plain_digest window_splitter plain_float_repr)
            self "docs/Guide.MD" 8) = [].
Proof. vm_compute. repeat split; reflexivity. Qed.
